(** * mongoose-history-user: the history plugin and its history-model cache

    A shallow embedding of [lib/mongoose-history.js] (the plugin: diffing,
    record construction, actor and metadata resolution, persistence) and of
    the history-model module (the per-collection model cache), with the
    properties of the specification stated and proved over it.

    Modelling conventions.
    - A JavaScript value met in a document is a [val]: a tree.  Numbers are
      the safe integers (a [Z] below [2 ^ 53] in absolute value, whose text
      is its decimal text); a [Date] is a valid date, given by its time value
      in milliseconds.  Functions, numbers that are no integers and objects
      with a [toJSON] method are no [val].
    - A plain object is an association list in property order.  Property
      order is creation order; keys that are canonical array indices, which
      JavaScript enumerates first, are outside the model.
    - Reading a missing property gives [VUndefined], as in JavaScript, unless
      the name is one that every object inherits from [Object.prototype]
      ([JS.inherited]): such a read gives a function, and the statements that
      depend on a read exclude it ([JS.reads_own]).
    - A [throw] is the [Throw] outcome of a [result].
    - The only object whose identity matters is the actor (the "current
      user"): it lives in a heap and is reached through a reference
      ([held_in_heap]).
    - A callback is called before the function that was given it returns: a
      metadata extractor with a callback calls it at once, and what the store
      answers to a save or a remove is part of the [world].
    - A function of the user (a diff algorithm, a metadata extractor) is a
      function of its arguments: it returns, and raises nothing. *)

From Stdlib Require Import String Ascii List ZArith Bool Lia.
From Stdlib Require Import DecimalString DecimalZ.
From stdpp Require Import gmap strings.
Import ListNotations.

Local Open Scope string_scope.
Local Open Scope Z_scope.
Local Open Scope list_scope.

Infix "+++" := String.append (right associativity, at level 60).

(** ** Values *)

Unset Elimination Schemes.
Inductive val : Type :=
| VUndefined
| VNull
| VBool (b : bool)
| VNum (n : Z)
| VStr (s : string)
| VDate (t : Z)
| VObj (fields : list (string * val))
| VArr (items : list val).
Set Elimination Schemes.

(** Induction on a value, with the induction hypothesis on every property
    of an object and on every item of an array. *)
Section induction.

Variable P : val -> Prop.
Hypothesis Hundefined : P VUndefined.
Hypothesis Hnull : P VNull.
Hypothesis Hbool : forall b, P (VBool b).
Hypothesis Hnum : forall n, P (VNum n).
Hypothesis Hstr : forall s, P (VStr s).
Hypothesis Hdate : forall t, P (VDate t).
Hypothesis Hobj :
  forall fields, Forall (fun kv => P (snd kv)) fields -> P (VObj fields).
Hypothesis Harr : forall items, Forall P items -> P (VArr items).

Fixpoint val_induction (v : val) : P v :=
  match v with
  | VUndefined => Hundefined
  | VNull => Hnull
  | VBool b => Hbool b
  | VNum n => Hnum n
  | VStr s => Hstr s
  | VDate t => Hdate t
  | VObj fields =>
      Hobj fields
        ((fix all (fs : list (string * val))
            : Forall (fun kv => P (snd kv)) fs :=
            match fs with
            | [] => @List.Forall_nil _ _
            | kv :: rest =>
                @List.Forall_cons _ _ kv rest (val_induction (snd kv)) (all rest)
            end) fields)
  | VArr items =>
      Harr items
        ((fix all (l : list val) : Forall P l :=
            match l with
            | [] => @List.Forall_nil _ _
            | x :: rest =>
                @List.Forall_cons _ _ x rest (val_induction x) (all rest)
            end) items)
  end.

End induction.

(** The values [JSON.parse] can give: no [undefined], no date, and objects
    with no key twice. *)
#[warnings="-register-all"]
Inductive json_normal : val -> Prop :=
| normal_null : json_normal VNull
| normal_bool (b : bool) : json_normal (VBool b)
| normal_num (n : Z) : json_normal (VNum n)
| normal_str (s : string) : json_normal (VStr s)
| normal_obj (fields : list (string * val)) :
    Forall (fun kv => json_normal (snd kv)) fields ->
    NoDup (map fst fields) ->
    json_normal (VObj fields)
| normal_arr (items : list val) :
    Forall json_normal items -> json_normal (VArr items).

(** The number of nodes of a value. *)
Fixpoint vsize (v : val) : nat :=
  match v with
  | VObj fields =>
      S ((fix sum (fs : list (string * val)) : nat :=
            match fs with
            | [] => O
            | kv :: rest => S (vsize (snd kv) + sum rest)
            end) fields)
  | VArr items =>
      S ((fix sum (l : list val) : nat :=
            match l with
            | [] => O
            | x :: rest => S (vsize x + sum rest)
            end) items)
  | _ => 1%nat
  end.

Module JS.

(** [obj[key]] on a property list. *)
Fixpoint lookup_field (fields : list (string * val)) (key : string) : val :=
  match fields with
  | [] => VUndefined
  | (k, v) :: rest => if String.eqb k key then v else lookup_field rest key
  end.

(** [obj[key] = v] on a property list: an existing property keeps its
    place, a new one is added last. *)
Fixpoint assign_field (fields : list (string * val)) (key : string) (v : val)
  : list (string * val) :=
  match fields with
  | [] => [(key, v)]
  | (k, w) :: rest =>
      if String.eqb k key then (k, v) :: rest
      else (k, w) :: assign_field rest key v
  end.

(** Whether the object has an own property [key]. *)
Fixpoint has_field (fields : list (string * val)) (key : string) : bool :=
  match fields with
  | [] => false
  | (k, _) :: rest => String.eqb k key || has_field rest key
  end.

(** The names of the properties of [Object.prototype], which every plain
    object inherits. *)
Definition Object_prototype : list string :=
  ["constructor"; "__defineGetter__"; "__defineSetter__"; "hasOwnProperty";
   "__lookupGetter__"; "__lookupSetter__"; "isPrototypeOf";
   "propertyIsEnumerable"; "toString"; "valueOf"; "__proto__";
   "toLocaleString"].

Definition inherited (key : string) : bool :=
  existsb (String.eqb key) Object_prototype.

(** Whether [obj[key]] reads an own property of the object or finds none:
    [key] is a property of the object, or no name that it inherits. *)
Definition reads_own (fields : list (string * val)) (key : string) : bool :=
  has_field fields key || negb (inherited key).

(** The safe integers, which [Number.prototype.toString] and
    [JSON.stringify] write in decimal, digit for digit. *)
Definition safe_integer (n : Z) : bool :=
  (- 2 ^ 53 <? n) && (n <? 2 ^ 53).

(** Whether every number in a value is a safe integer. *)
Fixpoint safe (v : val) : bool :=
  match v with
  | VNum n => safe_integer n
  | VObj fields =>
      (fix all (fs : list (string * val)) : bool :=
         match fs with
         | [] => true
         | (_, x) :: rest => safe x && all rest
         end) fields
  | VArr items =>
      (fix all (l : list val) : bool :=
         match l with
         | [] => true
         | x :: rest => safe x && all rest
         end) items
  | _ => true
  end.

(** [v[key]] where [v] is known to be neither [undefined] nor [null] and
    [key] is no name that [v] inherits: primitives, dates and arrays have no
    own property of interest here. *)
Definition get (v : val) (key : string) : val :=
  match v with
  | VObj fields => lookup_field fields key
  | _ => VUndefined
  end.

(** [v[key] = x] on an object. *)
Definition put (v : val) (key : string) (x : val) : val :=
  match v with
  | VObj fields => VObj (assign_field fields key x)
  | _ => v
  end.

(** ToBoolean. *)
Definition truthy (v : val) : bool :=
  match v with
  | VUndefined | VNull => false
  | VBool b => b
  | VNum n => negb (n =? 0)
  | VStr s => negb (String.eqb s EmptyString)
  | VDate _ | VObj _ | VArr _ => true
  end.

(** [typeof v === 'object'] (which holds of [null]). *)
Definition typeof_object (v : val) : bool :=
  match v with
  | VNull | VDate _ | VObj _ | VArr _ => true
  | _ => false
  end.

(** [v instanceof Date]. *)
Definition is_date (v : val) : bool :=
  match v with VDate _ => true | _ => false end.

(** [v.getTime()] of a date. *)
Definition getTime (v : val) : Z :=
  match v with VDate t => t | _ => 0 end.

(** [a === b].  Objects, arrays and dates are compared by identity in
    JavaScript; two of them met in different documents are never the same
    object, so the comparison is [false] there. *)
Definition strict_eq (a b : val) : bool :=
  match a, b with
  | VUndefined, VUndefined => true
  | VNull, VNull => true
  | VBool x, VBool y => Bool.eqb x y
  | VNum x, VNum y => x =? y
  | VStr x, VStr y => String.eqb x y
  | _, _ => false
  end.

(** [a || b]. *)
Definition or_else (a b : val) : val := if truthy a then a else b.

End JS.

(** ** JSON text: [JSON.stringify] and [JSON.parse] *)

Module JSON.

Definition dquote : ascii := "034"%char.
Definition backslash : ascii := "092"%char.

Definition str1 (c : ascii) : string := String c EmptyString.

(** Decimal text of an integer, as [Number.prototype.toString] gives it. *)
Definition string_of_Z (n : Z) : string := NilZero.string_of_int (Z.to_int n).

(** Decimal text of a natural number, padded with zeros on the left. *)
Fixpoint zeros (n : nat) : string :=
  match n with O => EmptyString | S m => String "0" (zeros m) end.

Definition pad (width : nat) (n : Z) : string :=
  let s := string_of_Z (Z.abs n) in
  zeros (width - String.length s) +++ s.

(** [Date.prototype.toISOString] of a time value (proleptic Gregorian
    calendar, UTC). *)
Definition toISOString (t : Z) : string :=
  let days := t / 86400000 in
  let ms := t mod 86400000 in
  let z := days + 719468 in
  let era := z / 146097 in
  let doe := z mod 146097 in
  let yoe := (doe - doe / 1460 + doe / 36524 - doe / 146096) / 365 in
  let doy := doe - (365 * yoe + yoe / 4 - yoe / 100) in
  let mp := (5 * doy + 2) / 153 in
  let d := doy - (153 * mp + 2) / 5 + 1 in
  let m := if mp <? 10 then mp + 3 else mp - 9 in
  let y := (if m <=? 2 then 1 else 0) + yoe + era * 400 in
  let year :=
    if (0 <=? y) && (y <=? 9999) then pad 4 y
    else (if y <? 0 then "-" else "+") +++ pad 6 y in
  year +++ "-" +++ pad 2 m +++ "-" +++ pad 2 d +++ "T"
       +++ pad 2 (ms / 3600000) +++ ":" +++ pad 2 ((ms / 60000) mod 60) +++ ":"
       +++ pad 2 ((ms / 1000) mod 60) +++ "." +++ pad 3 (ms mod 1000) +++ "Z".

(** *** Printing *)

Definition hex_digit (n : nat) : ascii :=
  nth n ["0"; "1"; "2"; "3"; "4"; "5"; "6"; "7"; "8"; "9";
         "a"; "b"; "c"; "d"; "e"; "f"]%char "0"%char.

(** One character of a string literal: the quote, the backslash and the
    control characters are escaped. *)
Definition escape_char (c : ascii) : string :=
  let n := nat_of_ascii c in
  if Ascii.eqb c dquote then String backslash (str1 dquote)
  else if Ascii.eqb c backslash then String backslash (str1 backslash)
  else if Nat.eqb n 8 then String backslash "b"
  else if Nat.eqb n 9 then String backslash "t"
  else if Nat.eqb n 10 then String backslash "n"
  else if Nat.eqb n 12 then String backslash "f"
  else if Nat.eqb n 13 then String backslash "r"
  else if Nat.ltb n 32 then
    String backslash
      (String "u" (String "0" (String "0"
         (String (hex_digit (n / 16)) (str1 (hex_digit (n mod 16)))))))
  else str1 c.

Fixpoint escape (s : string) : string :=
  match s with
  | EmptyString => EmptyString
  | String c rest => escape_char c +++ escape rest
  end.

Definition quote (s : string) : string :=
  String dquote (escape s +++ str1 dquote).

Fixpoint join (sep : string) (parts : list string) : string :=
  match parts with
  | [] => EmptyString
  | [p] => p
  | p :: rest => p +++ sep +++ join sep rest
  end.

(** The text of a value inside a JSON document.  A property whose value is
    [undefined] is left out of an object; inside an array [undefined] is
    printed as [null]. *)
Fixpoint text (v : val) : string :=
  match v with
  | VUndefined => "null"
  | VNull => "null"
  | VBool true => "true"
  | VBool false => "false"
  | VNum n => string_of_Z n
  | VStr s => quote s
  | VDate t => quote (toISOString t)
  | VObj fields =>
      "{" +++ join ","
        ((fix members (fs : list (string * val)) : list string :=
            match fs with
            | [] => []
            | (k, VUndefined) :: rest => members rest
            | (k, x) :: rest => (quote k +++ ":" +++ text x) :: members rest
            end) fields) +++ "}"
  | VArr items =>
      "[" +++ join ","
        ((fix elems (l : list val) : list string :=
            match l with
            | [] => []
            | x :: rest => text x :: elems rest
            end) items) +++ "]"
  end.

(** [JSON.stringify(v)]: [None] stands for the result [undefined]. *)
Definition stringify (v : val) : option string :=
  match v with
  | VUndefined => None
  | _ => Some (text v)
  end.

(** *** Parsing *)

Definition hex_value (c : ascii) : option nat :=
  let n := nat_of_ascii c in
  if Nat.leb 48 n && Nat.leb n 57 then Some (n - 48)%nat
  else if Nat.leb 97 n && Nat.leb n 102 then Some (n - 87)%nat
  else if Nat.leb 65 n && Nat.leb n 70 then Some (n - 55)%nat
  else None.

(** The character a [\uXXXX] escape stands for; characters beyond one
    byte are outside the model. *)
Definition unicode_escape (h1 h2 h3 h4 : ascii) : option ascii :=
  match hex_value h1, hex_value h2, hex_value h3, hex_value h4 with
  | Some O, Some O, Some a, Some b => Some (ascii_of_nat (16 * a + b))
  | _, _, _, _ => None
  end.

(** The character a two-character escape stands for. *)
Definition simple_escape (e : ascii) : option ascii :=
  if Ascii.eqb e dquote then Some dquote
  else if Ascii.eqb e backslash then Some backslash
  else if Ascii.eqb e "/" then Some "/"%char
  else if Ascii.eqb e "b" then Some "008"%char
  else if Ascii.eqb e "t" then Some "009"%char
  else if Ascii.eqb e "n" then Some "010"%char
  else if Ascii.eqb e "f" then Some "012"%char
  else if Ascii.eqb e "r" then Some "013"%char
  else None.

Definition cons_char (c : ascii) (r : option (string * string))
  : option (string * string) :=
  match r with
  | Some (s, rest) => Some (String c s, rest)
  | None => None
  end.

(** The characters of a string literal after its opening quote, up to and
    including the closing quote; the rest of the input is returned too. *)
Fixpoint parse_chars (s : string) : option (string * string) :=
  match s with
  | EmptyString => None
  | String c rest =>
      if Ascii.eqb c dquote then Some (EmptyString, rest)
      else if Ascii.eqb c backslash then
        match rest with
        | String e rest1 =>
            if Ascii.eqb e "u" then
              match rest1 with
              | String h1 (String h2 (String h3 (String h4 rest2))) =>
                  match unicode_escape h1 h2 h3 h4 with
                  | Some c' => cons_char c' (parse_chars rest2)
                  | None => None
                  end
              | _ => None
              end
            else
              match simple_escape e with
              | Some c' => cons_char c' (parse_chars rest1)
              | None => None
              end
        | EmptyString => None
        end
      else if Nat.ltb (nat_of_ascii c) 32 then None
      else cons_char c (parse_chars rest)
  end.

Definition is_digit (c : ascii) : bool :=
  let n := nat_of_ascii c in Nat.leb 48 n && Nat.leb n 57.

(** The longest prefix of digits, and what follows it. *)
Fixpoint span_digits (s : string) : string * string :=
  match s with
  | String c rest =>
      if is_digit c then
        let (ds, r) := span_digits rest in (String c ds, r)
      else (EmptyString, s)
  | EmptyString => (EmptyString, EmptyString)
  end.

Definition head_is_digit (s : string) : bool :=
  match s with
  | String c _ => is_digit c
  | EmptyString => false
  end.

(** An integer literal: an optional minus sign and at least one digit. *)
Definition parse_number (s : string) : option (val * string) :=
  let (neg, body) :=
    match s with
    | String c r => if Ascii.eqb c "-" then (true, r) else (false, s)
    | EmptyString => (false, s)
    end in
  let (ds, rest) := span_digits body in
  match ds with
  | EmptyString => None
  | _ =>
      match NilZero.uint_of_string ds with
      | Some d =>
          let n := Z.of_uint d in
          Some (VNum (if neg then - n else n), rest)
      | None => None
      end
  end.

(** What follows [keyword] in [s], when [s] starts with it. *)
Fixpoint strip_prefix (keyword s : string) : option string :=
  match keyword with
  | EmptyString => Some s
  | String a keyword' =>
      match s with
      | String b s' => if Ascii.eqb a b then strip_prefix keyword' s' else None
      | EmptyString => None
      end
  end.

(** The literals [null], [true] and [false]. *)
Definition parse_keyword (s : string) : option (val * string) :=
  match strip_prefix "null" s with
  | Some r => Some (VNull, r)
  | None =>
      match strip_prefix "true" s with
      | Some r => Some (VBool true, r)
      | None =>
          match strip_prefix "false" s with
          | Some r => Some (VBool false, r)
          | None => None
          end
      end
  end.

(** The object a member list builds: of two members with one key the later
    value wins and the earlier place is kept. *)
Fixpoint build_object (acc members : list (string * val))
  : list (string * val) :=
  match members with
  | [] => acc
  | (k, v) :: rest => build_object (JS.assign_field acc k v) rest
  end.

(** A recursive-descent reader of the compact texts [text] writes (no
    white space between tokens).  [fuel] bounds the nesting of calls. *)
Fixpoint parse_value (fuel : nat) (s : string) : option (val * string) :=
  match fuel with
  | O => None
  | S f =>
      match s with
      | EmptyString => None
      | String c r =>
          if Ascii.eqb c "[" then
            match r with
            | EmptyString => None
            | String c' r' =>
                if Ascii.eqb c' "]" then Some (VArr [], r')
                else
                  match parse_elements f r with
                  | Some (vs, r'') => Some (VArr vs, r'')
                  | None => None
                  end
            end
          else if Ascii.eqb c "{" then
            match r with
            | EmptyString => None
            | String c' r' =>
                if Ascii.eqb c' "}" then Some (VObj [], r')
                else
                  match parse_members f r with
                  | Some (ms, r'') => Some (VObj (build_object [] ms), r'')
                  | None => None
                  end
            end
          else if Ascii.eqb c dquote then
            match parse_chars r with
            | Some (str, r') => Some (VStr str, r')
            | None => None
            end
          else if Ascii.eqb c "-" || is_digit c then parse_number s
          else parse_keyword s
      end
  end

with parse_elements (fuel : nat) (s : string) : option (list val * string) :=
  match fuel with
  | O => None
  | S f =>
      match parse_value f s with
      | Some (v, String "," r) =>
          match parse_elements f r with
          | Some (vs, r') => Some (v :: vs, r')
          | None => None
          end
      | Some (v, String "]" r) => Some ([v], r)
      | _ => None
      end
  end

with parse_members (fuel : nat) (s : string)
  : option (list (string * val) * string) :=
  match fuel with
  | O => None
  | S f =>
      match s with
      | String c r =>
          if Ascii.eqb c dquote then
            match parse_chars r with
            | Some (k, String ":" r1) =>
                match parse_value f r1 with
                | Some (v, String "," r2) =>
                    match parse_members f r2 with
                    | Some (ms, r3) => Some ((k, v) :: ms, r3)
                    | None => None
                    end
                | Some (v, String "}" r2) => Some ([(k, v)], r2)
                | _ => None
                end
            | _ => None
            end
          else None
      | EmptyString => None
      end
  end.

(** [JSON.parse(s)]: [None] stands for a [SyntaxError]. *)
Definition parse (s : string) : option val :=
  match parse_value (S (String.length s)) s with
  | Some (v, EmptyString) => Some v
  | _ => None
  end.

End JSON.

(** A value is read back when its text, followed by anything that does not
    start with a digit, parses to the value and leaves what follows. *)
Definition reads_back (v : val) : Prop :=
  forall fuel rest,
    (vsize v <= fuel)%nat ->
    JSON.head_is_digit rest = false ->
    JSON.parse_value fuel (JSON.text v +++ rest) = Some (v, rest).

(** ** Exceptions *)

Inductive error : Type :=
| TypeError
| SyntaxError
| CallbackAlreadyCalled.

Inductive result (A : Type) : Type :=
| Ok (a : A)
| Throw (e : error).
Arguments Ok {A} a.
Arguments Throw {A} e.

Definition bind {A B : Type} (r : result A) (k : A -> result B) : result B :=
  match r with
  | Ok a => k a
  | Throw e => Throw e
  end.

Definition is_ok {A : Type} (r : result A) : bool :=
  match r with
  | Ok _ => true
  | Throw _ => false
  end.

Notation "'do' x <- r ; k" := (bind r (fun x => k))
  (at level 10, x name, r at level 100, k at level 200).

(** ** The sanitizer *)

(** [s.replace(pattern, replacement)] with a string pattern: the first
    occurrence only. *)
Fixpoint replace (pattern replacement s : string) : string :=
  if String.prefix pattern s then
    replacement +++ String.substring (String.length pattern) (String.length s) s
  else
    match s with
    | EmptyString => EmptyString
    | String c rest => String c (replace pattern replacement rest)
    end.

(** Whether [pattern] occurs in [s]. *)
Fixpoint occurs (pattern s : string) : bool :=
  String.prefix pattern s
  || match s with
     | EmptyString => false
     | String _ rest => occurs pattern rest
     end.

Definition dquote_dollar : string := String JSON.dquote "$".
Definition squote_dollar : string := "'$".

(** [sanitizeObj(obj)]: the object is written as JSON, the first
    double-quote-then-dollar and the first quote-then-dollar of the text lose
    their dollar, and the text is read back.  When [JSON.stringify] gives
    [undefined] the call of [replace] on it is a [TypeError]; a text that
    does not parse is a [SyntaxError]. *)
Definition sanitizeObj (obj : val) : result val :=
  match JSON.stringify obj with
  | None => Throw TypeError
  | Some t =>
      match JSON.parse
              (replace squote_dollar "'"
                 (replace dquote_dollar (JSON.str1 JSON.dquote) t)) with
      | Some v => Ok v
      | None => Throw SyntaxError
      end
  end.

(** ** Configuration, documents and the world around the plugin *)

(** A value held by reference or by value.  An object that is shared (the
    actor kept by the request context) is a reference into the heap; every
    other value is held by value: the primitives, and the objects that the
    plugin has just made for a history document and that nothing else
    reaches. *)
Inductive hval : Type :=
| HVal (v : val)
| HRef (l : nat).

(** What the request context and [currentUser] may hold: a primitive, or a
    reference to an object of the heap. *)
Definition held_in_heap (h : hval) : bool :=
  match h with
  | HVal (VObj _ | VArr _ | VDate _) => false
  | _ => true
  end.

Inductive mongooseType : Type :=
| TDate
| TString
| TMixed
| TOther (name : string).

Record fieldSpec : Type := { type : mongooseType; required : bool }.

(** The [value] of a metadata pair: a field name, a two-argument function
    of the original and the new document, or a three-argument function that
    also takes a callback.  A three-argument function is given by the
    [(err, data)] it passes to that callback, which it calls once, before it
    returns; a function that calls back later is outside the model. *)
Inductive extractor : Type :=
| Field (name : string)
| Sync (f : val -> val -> val)
| Async (f : val -> val -> val * val).

Record keyValuePair : Type :=
  { key : string; value : extractor; schema : option fieldSpec }.

Record modifiedByOptions : Type :=
  { schemaType : mongooseType;
    contextPath : string;
    blacklist : option (list string) }.

Record options : Type :=
  { customCollectionName : option string;
    customDiffAlgo : option (string -> val -> val -> val);
    diffOnly : bool;
    metadata : option (list keyValuePair);
    modifiedBy : option modifiedByOptions;
    includeCollectionName : bool;
    indexes : option (list (list (string * Z)));
    historyConnection : option nat }.

(** A mongoose model of a history collection: the store handle. *)
Record model : Type :=
  { modelName : string;
    connection : option nat;
    schemaObject : gmap string fieldSpec;
    schemaIndexes : list (list (string * Z)) }.

(** The state outside the plugin's arguments: the heap of shared objects,
    the request context, the clock, the plugin's [currentUser] variable, the
    [historyModels] cache with the models registered with mongoose, the
    history records saved so far (with the name of their model), and what
    the store answers: the error it gives to the callback of the save of a
    record by a model, and to the callback of the removal of the records of
    a model ([None] when it does what it is asked). *)
Record world : Type :=
  { heap : gmap nat (list (string * val));
    context : gmap string hval;
    now : Z;
    currentUser : hval;
    historyModels : gmap string model;
    registry : list model;
    persisted : list (string * gmap string hval);
    saveError : string -> gmap string hval -> option val;
    removeError : string -> option val }.

(** A mongoose document as the hooks see it. *)
Record document : Type :=
  { isNew : bool;
    _original : val;
    toObject : list (string * val);
    collection_name : string }.

(** ** The history-model module *)

Module hm.

Definition baseSchema : gmap string fieldSpec :=
  <["col" := {| type := TString; required := false |}]>
  (<["docId" := {| type := TString; required := false |}]>
  (<["additionalFields" := {| type := TMixed; required := false |}]>
  (<["diff" := {| type := TMixed; required := false |}]>
  (<["doc" := {| type := TMixed; required := true |}]>
  (<["op" := {| type := TString; required := true |}]>
  (<["date" := {| type := TDate; required := true |}]> ∅)))))).

(** [metadata.forEach(m => schemaObject[m.key] = m.schema || Mixed)]. *)
Fixpoint declareMetadata (ms : list keyValuePair)
    (schemaObject : gmap string fieldSpec) : gmap string fieldSpec :=
  match ms with
  | [] => schemaObject
  | m :: rest =>
      declareMetadata rest
        (<[key m :=
             match schema m with
             | Some spec => spec
             | None => {| type := TMixed; required := false |}
             end]> schemaObject)
  end.

(** The schema object [HistoryModel] builds on every call. *)
Definition buildSchemaObject (opts : options) : gmap string fieldSpec :=
  let schemaObject := baseSchema in
  let schemaObject :=
    match modifiedBy opts with
    | Some addUserWhoModifies =>
        <["modifiedBy" :=
            {| type := schemaType addUserWhoModifies; required := false |}]>
          schemaObject
    | None => schemaObject
    end in
  match metadata opts with
  | Some ms => declareMetadata ms schemaObject
  | None => schemaObject
  end.

(** [collectionName in historyModels]: the cache is a plain object, so
    that the test holds of the names it has a model for and of the names it
    inherits from [Object.prototype]. *)
Definition in_historyModels (collectionName : string) (w : world) : bool :=
  match historyModels w !! collectionName with
  | Some _ => true
  | None => JS.inherited collectionName
  end.

(** [HistoryModel(collectionName, options)]: creates and caches the model
    of a history collection.  The result is [historyModels[collectionName]]:
    the model the cache has for the name, and [None] when it has none, which
    stands for the member of [Object.prototype] that the name then reaches
    and which is no model.  [mongoose.model] (or the model function of the
    other connection) is the registration, kept in [registry]. *)
Definition HistoryModel (collectionName : string) (opts : options) (w : world)
  : option model * world :=
  let schemaObject := buildSchemaObject opts in
  let w' :=
    if negb (in_historyModels collectionName w) then
      let m :=
        {| modelName := collectionName;
           connection := historyConnection opts;
           schemaObject := schemaObject;
           schemaIndexes :=
             match indexes opts with Some l => l | None => [] end |} in
      {| heap := heap w; context := context w; now := now w;
         currentUser := currentUser w;
         historyModels := <[collectionName := m]> (historyModels w);
         registry := registry w ++ [m];
         persisted := persisted w;
         saveError := saveError w; removeError := removeError w |}
    else w in
  (historyModels w' !! collectionName, w').

Definition historyCollectionName (collectionName : string)
    (customCollectionName : option string) : string :=
  match customCollectionName with
  | Some name => name
  | None => collectionName +++ "_history"
  end.

(** Any number of calls of [HistoryModel], for any names and options. *)
Fixpoint calls (l : list (string * options)) (w : world) : world :=
  match l with
  | [] => w
  | (name, opts) :: rest => calls rest (snd (HistoryModel name opts w))
  end.

End hm.

(** ** The plugin *)

(** What a hook has done once the callbacks it gave have been called: the
    world and the history document object as they are then, the error
    arguments of the calls of [next] in order, and the exception it raised,
    if any. *)
Record outcome : Type :=
  { world_after : world;
    historyDoc_after : gmap string hval;
    next_calls : list val;
    thrown : option error }.

(** [v.toString()] where [v] is neither [undefined] nor [null]; on these
    two the text is that of [String(v)].  A plain object gives the generic
    text, unless it has a property [toString] of its own: that property is
    no function, and the call is a [TypeError].  An array joins the texts of
    its elements with commas, an [undefined] or [null] element giving the
    empty text.  (The text of a date depends on the time zone of the host;
    no date is left in a sanitized document, and its ISO text stands for it
    here.) *)
Fixpoint toString (v : val) : result string :=
  match v with
  | VUndefined => Ok "undefined"
  | VNull => Ok "null"
  | VBool true => Ok "true"
  | VBool false => Ok "false"
  | VNum n => Ok (JSON.string_of_Z n)
  | VStr s => Ok s
  | VDate t => Ok (JSON.toISOString t)
  | VObj fields =>
      if JS.has_field fields "toString" then Throw TypeError
      else Ok "[object Object]"
  | VArr items =>
      do parts <-
        (fix elems (l : list val) : result (list string) :=
           match l with
           | [] => Ok []
           | x :: rest =>
               do p <-
                 match x with
                 | VUndefined | VNull => Ok EmptyString
                 | _ => toString x
                 end;
               do ps <- elems rest;
               Ok (p :: ps)
           end) items;
      Ok (JSON.join "," parts)
  end.

(** [obj[k]], a [TypeError] when [obj] is [undefined] or [null]; see
    [JS.get] for the names it is read for. *)
Definition member (obj : val) (k : string) : result val :=
  match obj with
  | VUndefined | VNull => Throw TypeError
  | _ => Ok (JS.get obj k)
  end.

(** [obj[k] = x] in strict mode: a [TypeError] unless [obj] is an object.
    A property added to an array or a date is not represented. *)
Definition assign (obj : val) (k : string) (x : val) : result val :=
  match obj with
  | VObj _ => Ok (JS.put obj k x)
  | VArr _ | VDate _ => Ok obj
  | _ => Throw TypeError
  end.

Definition htruthy (h : hval) : bool :=
  match h with
  | HVal v => JS.truthy v
  | HRef _ => true
  end.

(** [contextService.get(path)]. *)
Definition contextService_get (w : world) (path : string) : hval :=
  match context w !! path with
  | Some v => v
  | None => HVal VUndefined
  end.

Definition with_heap (w : world) (h : gmap nat (list (string * val))) : world :=
  {| heap := h; context := context w; now := now w;
     currentUser := currentUser w; historyModels := historyModels w;
     registry := registry w; persisted := persisted w;
     saveError := saveError w; removeError := removeError w |}.

Definition with_currentUser (w : world) (u : hval) : world :=
  {| heap := heap w; context := context w; now := now w;
     currentUser := u; historyModels := historyModels w;
     registry := registry w; persisted := persisted w;
     saveError := saveError w; removeError := removeError w |}.

Definition with_persisted (w : world) (l : list (string * gmap string hval))
  : world :=
  {| heap := heap w; context := context w; now := now w;
     currentUser := currentUser w; historyModels := historyModels w;
     registry := registry w; persisted := l;
     saveError := saveError w; removeError := removeError w |}.

(** The properties of the object at a heap location. *)
Definition deref (w : world) (l : nat) : list (string * val) :=
  match heap w !! l with
  | Some fields => fields
  | None => []
  end.

(** [target[k] = x] where [target] may be a shared object: the assignment
    is made to the object in the heap.  An object held by value is not
    shared ([held_in_heap] is the condition that the actor is none). *)
Definition assign_shared (target : hval) (k : string) (x : val) (w : world)
  : result (hval * world) :=
  match target with
  | HRef l =>
      Ok (target, with_heap w (<[l := JS.assign_field (deref w l) k x]> (heap w)))
  | HVal v => do v' <- assign v k x; Ok (HVal v', w)
  end.

(** One step of a metadata iteratee: an assignment to the target object or
    a call of the iteratee's callback. *)
Inductive step : Type :=
| Assign (k : string) (data : val)
| Done (err : val).

(** The state of a run of [async.each]: the target object, the number of
    iteratees completed, the call of the final callback (its error argument
    and the target as it was then) and the exception raised. *)
Record each_state : Type :=
  { target : val;
    completed : nat;
    final : option (val * val);
    raised : option error }.

Section historyPlugin.

(** [deepDiff(original, new, flag)] of the [deepDiff] module. *)
Variable deepDiff : val -> val -> bool -> val.

(** The [options] the plugin was applied with. *)
Variable opts : options.

Definition defaultDiffAlgo (key : string) (newValue originalValue : val) : val :=
  if String.eqb key "updatedAt" then VNull
  else if JS.truthy originalValue && negb (JS.truthy newValue) then
    VStr "null"
  else if negb (JS.truthy originalValue) && JS.truthy newValue then
    newValue
  else if JS.is_date newValue && JS.is_date originalValue then
    if negb (JS.getTime newValue =? JS.getTime originalValue) then newValue
    else VNull
  else if JS.typeof_object newValue && JS.typeof_object originalValue then
    deepDiff originalValue newValue true
  else
    if negb (JS.strict_eq newValue originalValue) then newValue
    else VNull.

(** [(options && options.customDiffAlgo) || defaultDiffAlgo]. *)
Definition diffAlgo : string -> val -> val -> val :=
  match customDiffAlgo opts with
  | Some f => f
  | None => defaultDiffAlgo
  end.

Fixpoint applyObjectPatch (doc patch : list (string * val))
  : list (string * val) :=
  match patch with
  | [] => doc
  | (k, v) :: rest => applyObjectPatch (JS.assign_field doc k v) rest
  end.

(** The loop of [_saveHistory] over the keys of the new document. *)
Fixpoint diffFields (newDoc : list (string * val)) (originalDoc : val)
    (keys : list (string * val)) (diff : list (string * val))
  : result (list (string * val)) :=
  match keys with
  | [] => Ok diff
  | (k, _) :: rest =>
      do o <- member originalDoc k;
      let customDiff := diffAlgo k (JS.lookup_field newDoc k) o in
      if JS.truthy customDiff then
        let customDiff :=
          if JS.strict_eq customDiff (VStr "null") then VNull
          else customDiff in
        diffFields newDoc originalDoc rest (JS.assign_field diff k customDiff)
      else diffFields newDoc originalDoc rest diff
  end.

(** The loop of [addModifiedByInfo] over the blacklist. *)
Fixpoint unsetKeys (keys : list string) (_modifiedBy : hval) (w : world)
  : result (hval * world) :=
  match keys with
  | [] => Ok (_modifiedBy, w)
  | k :: rest =>
      do r <- assign_shared _modifiedBy k VUndefined w;
      unsetKeys rest (fst r) (snd r)
  end.

Definition addModifiedByInfo (historyDoc : gmap string hval) (w : world)
  : result (gmap string hval * world) :=
  match modifiedBy opts with
  | Some mb =>
      let _modifiedBy := contextService_get w (contextPath mb) in
      let _modifiedBy :=
        if negb (htruthy _modifiedBy) then currentUser w else _modifiedBy in
      do r <-
        match blacklist mb with
        | Some (k :: ks) => unsetKeys (k :: ks) _modifiedBy w
        | _ => Ok (_modifiedBy, w)
        end;
      Ok (<["modifiedBy" := fst r]> historyDoc, snd r)
  | None => Ok (historyDoc, w)
  end.

Definition createHistoryDoc (doc diff : val) (operation : string)
    (collectionName : string) (additionalFields : option (list (string * val)))
    (w : world) : result (gmap string hval * world) :=
  let doc := JS.or_else doc (VObj []) in
  let diff := JS.or_else diff (VObj []) in
  do doc <- sanitizeObj doc;
  do diff <- sanitizeObj diff;
  do doc <- assign doc "__v" VUndefined;
  do diff <- assign diff "__v" VUndefined;
  let historyDoc : gmap string hval := ∅ in
  let historyDoc := <["doc" := HVal doc]> historyDoc in
  let historyDoc := <["diff" := HVal diff]> historyDoc in
  let historyDoc := <["op" := HVal (VStr operation)]> historyDoc in
  let historyDoc := <["date" := HVal (VDate (now w))]> historyDoc in
  let historyDoc :=
    if includeCollectionName opts then
      <["col" := HVal (VStr collectionName)]> historyDoc
    else historyDoc in
  let docId :=
    JS.or_else (JS.get doc "_id") (JS.or_else (JS.get diff "_id") VNull) in
  do historyDoc <-
    (if JS.truthy docId then
       let emptyObj := VObj [] in
       do text <- toString docId;
       do generic <- toString emptyObj;
       if String.eqb text generic then
         Ok (<["docId" := HVal (VStr (JSON.text docId))]> historyDoc)
       else
         do text <- toString docId;
         Ok (<["docId" := HVal (VStr text)]> historyDoc)
     else Ok historyDoc);
  do r <- addModifiedByInfo historyDoc w;
  let historyDoc := fst r in
  let historyDoc :=
    match additionalFields with
    | Some fields =>
        <["additionalFields" := HVal (VObj (applyObjectPatch [] fields))]>
          historyDoc
    | None => historyDoc
    end in
  Ok (historyDoc, snd r).

(** The steps of the iteratee [setMetadata] gives to [async.each]. *)
Definition iteratee (originalDoc newDoc : val) (keyValuePair : keyValuePair)
  : list step :=
  match value keyValuePair with
  | Async f =>
      let (err, data) := f originalDoc newDoc in
      (if JS.truthy err then [Done err] else [])
        ++ [Assign (key keyValuePair) data; Done VUndefined]
  | Sync f =>
      [Assign (key keyValuePair) (f originalDoc newDoc); Done VUndefined]
  | Field name =>
      [Assign (key keyValuePair)
         (if JS.truthy newDoc then JS.get newDoc name else VNull);
       Done VUndefined]
  end.

(** The final callback of [async.each] is called at most once. *)
Definition call_final (st : each_state) (err : val) : each_state :=
  match final st with
  | Some _ => st
  | None =>
      {| target := target st; completed := completed st;
         final := Some (err, target st); raised := raised st |}
  end.

(** The steps of one iteratee under [async.each] over [n] items.  The
    callback of an iteratee may be called once: a second call raises
    "Callback was already called.".  A call with an error calls the final
    callback with it; the call that completes the last item calls the final
    callback without error. *)
Fixpoint run_steps (n : nat) (steps : list step) (called : bool)
    (st : each_state) : each_state :=
  match steps with
  | [] => st
  | Assign k data :: rest =>
      run_steps n rest called
        {| target := JS.put (target st) k data; completed := completed st;
           final := final st; raised := raised st |}
  | Done err :: rest =>
      if called then
        {| target := target st; completed := completed st;
           final := final st; raised := Some CallbackAlreadyCalled |}
      else if JS.truthy err then run_steps n rest true (call_final st err)
      else
        let st' :=
          {| target := target st; completed := S (completed st);
             final := final st; raised := raised st |} in
        run_steps n rest true
          (if Nat.eqb (S (completed st)) n then call_final st' VNull else st')
  end.

(** [async.each(items, iteratee, callback)]: the iteratees are started in
    the order of the list and, as each calls back before it returns, run to
    their end one after the other; an exception ends the run. *)
Fixpoint each (n : nat) (items : list (list step)) (st : each_state)
  : each_state :=
  match items with
  | [] => st
  | steps :: rest =>
      let st' := run_steps n steps false st in
      match raised st' with
      | Some _ => st'
      | None => each n rest st'
      end
  end.

Definition setMetadata (ms : list keyValuePair) (originalDoc newDoc : val)
    (historyDoc : val) : each_state :=
  let st :=
    {| target := historyDoc; completed := 0; final := None; raised := None |} in
  if negb (JS.truthy historyDoc) then call_final st VUndefined
  else
    match ms with
    | [] => call_final st VNull
    | _ => each (length ms) (map (iteratee originalDoc newDoc) ms) st
    end.

(** [new HistoryModel(name, options)(historyDoc)] and [history.save(next)]:
    the store adds the record to its collection and [next] is called without
    error, or the store refuses the record and [next] is called with its
    error.  When [HistoryModel] returns no model but a member of
    [Object.prototype], the call of that member on the history document
    fails, or what it returns has no [save]: a [TypeError]. *)
Definition saveRecord (historyDoc : gmap string hval) (collectionName : string)
    (w : world) : outcome :=
  match hm.HistoryModel
          (hm.historyCollectionName collectionName (customCollectionName opts))
          opts w with
  | (Some History, w') =>
      match saveError w' (modelName History) historyDoc with
      | None =>
          {| world_after :=
               with_persisted w'
                 (persisted w' ++ [(modelName History, historyDoc)]);
             historyDoc_after := historyDoc;
             next_calls := [VNull];
             thrown := None |}
      | Some err =>
          {| world_after := w'; historyDoc_after := historyDoc;
             next_calls := [err]; thrown := None |}
      end
  | (None, w') =>
      {| world_after := w'; historyDoc_after := historyDoc;
         next_calls := []; thrown := Some TypeError |}
  end.

Definition saveHistoryModel (originalDoc newDoc : val)
    (historyDoc : gmap string hval) (collectionName : string) (w : world)
  : outcome :=
  match metadata opts with
  | Some ms =>
      let doc :=
        match historyDoc !! "doc" with
        | Some (HVal d) => d
        | _ => VUndefined
        end in
      let st := setMetadata ms originalDoc newDoc doc in
      let historyDoc' := <["doc" := HVal (target st)]> historyDoc in
      let o :=
        match final st with
        | Some (err, doc_then) =>
            if JS.truthy err then
              {| world_after := w; historyDoc_after := historyDoc';
                 next_calls := [err]; thrown := None |}
            else
              saveRecord (<["doc" := HVal doc_then]> historyDoc)
                collectionName w
        | None =>
            {| world_after := w; historyDoc_after := historyDoc';
               next_calls := []; thrown := None |}
        end in
      {| world_after := world_after o; historyDoc_after := historyDoc';
         next_calls := next_calls o;
         thrown := match thrown o with Some e => Some e | None => raised st end |}
  | None => saveRecord historyDoc collectionName w
  end.

(** An exception raised before [saveHistoryModel] is reached. *)
Definition raise (e : error) (w : world) : outcome :=
  {| world_after := w; historyDoc_after := ∅; next_calls := [];
     thrown := Some e |}.

Definition _saveHistory (doc : document) (operation : string)
    (collectionName : string) (patchBeforeDiff : option (list (string * val)))
    (w : world) : outcome :=
  let originalDoc := _original doc in
  if diffOnly opts && negb (isNew doc) then
    let newDoc := toObject doc in
    let newDoc :=
      match patchBeforeDiff with
      | Some patch => applyObjectPatch newDoc patch
      | None => newDoc
      end in
    let diff := [("_id", JS.lookup_field newDoc "_id")] in
    match diffFields newDoc originalDoc newDoc diff with
    | Throw e => raise e w
    | Ok diff =>
        match createHistoryDoc originalDoc (VObj diff) "u" collectionName None w with
        | Throw e => raise e w
        | Ok (historyDoc, w') =>
            saveHistoryModel originalDoc (VObj newDoc) historyDoc
              (collection_name doc) w'
        end
    end
  else
    let newDoc := VObj (toObject doc) in
    match createHistoryDoc originalDoc newDoc operation collectionName None w with
    | Throw e => raise e w
    | Ok (historyDoc, w') =>
        saveHistoryModel originalDoc newDoc historyDoc (collection_name doc) w'
    end.

(** The document after [_saveHistory], whose second statement is
    [delete doc._original]. *)
Definition forget_original (doc : document) : document :=
  {| isNew := isNew doc; _original := VUndefined; toObject := toObject doc;
     collection_name := collection_name doc |}.

(** [schema.post('init')]. *)
Definition post_init (doc : document) : document :=
  if diffOnly opts then
    {| isNew := isNew doc; _original := VObj (toObject doc);
       toObject := toObject doc; collection_name := collection_name doc |}
  else doc.

(** [schema.pre('save')]. *)
Definition pre_save (doc : document) (w : world) : outcome :=
  let operation := if isNew doc then "i" else "u" in
  _saveHistory doc operation (collection_name doc) None w.

(** [schema.pre('update')], for a query with filter [query] whose update
    has [$set] equal to [set], on the collection [collectionName]. *)
Definition pre_update (query set : val) (collectionName : string) (w : world)
  : outcome :=
  let additionalFields : list (string * val) := [] in
  match (if JS.truthy query then sanitizeObj query else Ok (VObj [])) with
  | Throw e => raise e w
  | Ok query =>
      match createHistoryDoc query set "u" collectionName
              (Some additionalFields) w with
      | Throw e => raise e w
      | Ok (historyDoc, w') =>
          saveHistoryModel query set historyDoc collectionName w'
      end
  end.

(** [schema.pre('remove')]. *)
Definition pre_remove (doc : document) (w : world) : outcome :=
  let d := VObj (toObject doc) in
  match createHistoryDoc d (VObj []) "r" (collection_name doc) None w with
  | Throw e => raise e w
  | Ok (historyDoc, w') =>
      saveHistoryModel (VObj (toObject doc)) d historyDoc (collection_name doc) w'
  end.

(** [schema.pre('findOne')], registered when [modifiedBy] is configured. *)
Definition pre_findOne (w : world) : world :=
  match modifiedBy opts with
  | Some mb => with_currentUser w (contextService_get w (contextPath mb))
  | None => w
  end.

(** [schema.statics.historyModel], called on the model of the collection
    [collectionName]. *)
Definition historyModel (collectionName : string) (w : world)
  : option model * world :=
  hm.HistoryModel
    (hm.historyCollectionName collectionName (customCollectionName opts)) opts w.

(** [schema.statics.clearHistory], called on the model of the collection
    [collectionName]: [History.remove({}, cb)] has the store remove every
    record of the history model, and [next] is called with the error of the
    store, if any.  A member of [Object.prototype] has no [remove]: a
    [TypeError]. *)
Definition clearHistory (collectionName : string) (w : world) : outcome :=
  match hm.HistoryModel
          (hm.historyCollectionName collectionName (customCollectionName opts))
          opts w with
  | (Some History, w') =>
      match removeError w' (modelName History) with
      | None =>
          {| world_after :=
               with_persisted w'
                 (List.filter
                    (fun r => negb (String.eqb (fst r) (modelName History)))
                    (persisted w'));
             historyDoc_after := ∅;
             next_calls := [VNull];
             thrown := None |}
      | Some err =>
          {| world_after := w'; historyDoc_after := ∅;
             next_calls := [err]; thrown := None |}
      end
  | (None, w') =>
      {| world_after := w'; historyDoc_after := ∅;
         next_calls := []; thrown := Some TypeError |}
  end.

End historyPlugin.

(** ** Notions used in the statements

    The definitions of this part embed no code: they name what the
    statements of the second part say of it. *)

(** Two worlds that differ at most in the heap of shared objects. *)
Definition only_heap_differs (w w' : world) : Prop :=
  context w' = context w /\ now w' = now w /\ currentUser w' = currentUser w
  /\ historyModels w' = historyModels w /\ registry w' = registry w
  /\ persisted w' = persisted w
  /\ saveError w' = saveError w /\ removeError w' = removeError w.

(** The request context and [currentUser] hold their objects in the heap. *)
Definition actors_in_heap (w : world) : Prop :=
  held_in_heap (currentUser w) = true
  /\ forall path h, context w !! path = Some h -> held_in_heap h = true.


(** Whether a metadata pair that names a field of the new document reads an
    own property of that document, or finds none, or is given no document. *)
Definition reads_own_field (newDoc : val) (m : keyValuePair) : bool :=
  match value m with
  | Field name =>
      match newDoc with
      | VObj fields => JS.reads_own fields name
      | _ => negb (JS.truthy newDoc)
      end
  | _ => true
  end.


(** What the iteratee of [setMetadata] records for a metadata pair: the
    field of the new document ([null] when there is no new document), the
    result of the two-argument function, or the data the three-argument
    function passes to its callback. *)
Definition extracted (originalDoc newDoc : val) (m : keyValuePair) : val :=
  match value m with
  | Async f => snd (f originalDoc newDoc)
  | Sync f => f originalDoc newDoc
  | Field name => if JS.truthy newDoc then JS.get newDoc name else VNull
  end.

(** The error a metadata pair reports: the [err] a three-argument function
    passes to its callback; the other extractors report none. *)
Definition reported (originalDoc newDoc : val) (m : keyValuePair) : val :=
  match value m with
  | Async f => fst (f originalDoc newDoc)
  | _ => VUndefined
  end.

(** The target object after the assignments of the pairs [ms], in order. *)
Definition record_all (originalDoc newDoc : val) (ms : list keyValuePair)
    (doc : val) : val :=
  fold_left (fun d m => JS.put d (key m) (extracted originalDoc newDoc m)) ms doc.

(** What a hook on a model of the collection [collectionName] has done,
    from the world [w]: it never touches the request context or
    [currentUser], and
    - the store has saved its history document, as one more record of the
      model that the static [historyModel] returns, and [next] was called
      without error; or
    - the store has refused the document: [next] got the error of the store
      and nothing was saved; or
    - a metadata extractor reported an error: [next] got the error, nothing
      was saved and the second call of the extractor's callback raised; or
    - the hook raised before the store was asked: [next] was not called and
      nothing was saved. *)
Definition hook_outcome (opts : options) (collectionName : string) (w : world)
    (r : outcome) : Prop :=
  context (world_after r) = context w
  /\ currentUser (world_after r) = currentUser w
  /\ ((exists m,
         historyModel opts collectionName (world_after r)
         = (Some m, world_after r)
         /\ saveError w (modelName m) (historyDoc_after r) = None
         /\ persisted (world_after r)
            = persisted w ++ [(modelName m, historyDoc_after r)]
         /\ next_calls r = [VNull]
         /\ thrown r = None)
      \/ (exists m err,
            historyModel opts collectionName (world_after r)
            = (Some m, world_after r)
            /\ saveError w (modelName m) (historyDoc_after r) = Some err
            /\ persisted (world_after r) = persisted w
            /\ next_calls r = [err]
            /\ thrown r = None)
      \/ (exists err,
            JS.truthy err = true
            /\ next_calls r = [err]
            /\ thrown r = Some CallbackAlreadyCalled
            /\ persisted (world_after r) = persisted w)
      \/ (next_calls r = [] /\ thrown r <> None
          /\ persisted (world_after r) = persisted w)).

(** A value as JavaScript has it: no object has a key twice. *)
#[warnings="-register-all"]
Inductive js_value : val -> Prop :=
| js_undefined : js_value VUndefined
| js_null : js_value VNull
| js_bool (b : bool) : js_value (VBool b)
| js_num (n : Z) : js_value (VNum n)
| js_str (s : string) : js_value (VStr s)
| js_date (t : Z) : js_value (VDate t)
| js_obj (fields : list (string * val)) :
    Forall (fun kv => js_value (snd kv)) fields ->
    NoDup (map fst fields) ->
    js_value (VObj fields)
| js_arr (items : list val) :
    Forall js_value items -> js_value (VArr items).

(** What a value is once written as JSON and read back: a date is its ISO
    text, a property whose value is [undefined] is gone, and an item of an
    array that is [undefined] is [null]. *)
Fixpoint plain (v : val) : val :=
  match v with
  | VUndefined => VNull
  | VDate t => VStr (JSON.toISOString t)
  | VObj fields =>
      VObj
        ((fix members (fs : list (string * val)) : list (string * val) :=
            match fs with
            | [] => []
            | (k, VUndefined) :: rest => members rest
            | (k, x) :: rest => (k, plain x) :: members rest
            end) fields)
  | VArr items =>
      VArr
        ((fix elems (l : list val) : list val :=
            match l with
            | [] => []
            | x :: rest => plain x :: elems rest
            end) items)
  | _ => v
  end.

(** JSON data that may have a key twice in an object: what the text of a
    document stands for once a dollar has been taken out of a key. *)
#[warnings="-register-all"]
Inductive json_data : val -> Prop :=
| data_null : json_data VNull
| data_bool (b : bool) : json_data (VBool b)
| data_num (n : Z) : json_data (VNum n)
| data_str (s : string) : json_data (VStr s)
| data_obj (fields : list (string * val)) :
    Forall (fun kv => json_data (snd kv)) fields -> json_data (VObj fields)
| data_arr (items : list val) :
    Forall json_data items -> json_data (VArr items).

(** What [JSON.parse] makes of the text of such data: of two members with
    one key the later value wins, at the place of the earlier one. *)
Fixpoint merge (v : val) : val :=
  match v with
  | VObj fields =>
      VObj
        (JSON.build_object []
           ((fix members (fs : list (string * val)) : list (string * val) :=
               match fs with
               | [] => []
               | (k, x) :: rest => (k, merge x) :: members rest
               end) fields))
  | VArr items =>
      VArr
        ((fix elems (l : list val) : list val :=
            match l with
            | [] => []
            | x :: rest => merge x :: elems rest
            end) items)
  | _ => v
  end.

(** A value is read as another when its text, followed by anything that
    does not start with a digit, parses to the other and leaves what
    follows. *)
Definition reads_as (v v' : val) : Prop :=
  forall fuel rest,
    (vsize v <= fuel)%nat ->
    JSON.head_is_digit rest = false ->
    JSON.parse_value fuel (JSON.text v +++ rest) = Some (v', rest).

(** Whether no character of [s] is [q]. *)
Fixpoint free_of (q : ascii) (s : string) : bool :=
  match s with
  | EmptyString => true
  | String c rest => negb (Ascii.eqb c q) && free_of q rest
  end.

(** The string [s] without the dollar that follows the first [q] of [s]
    that a dollar follows; [None] when there is no such [q]. *)
Fixpoint drop_dollar_after (q : ascii) (s : string) : option string :=
  match s with
  | EmptyString => None
  | String c s1 =>
      if Ascii.eqb c q then
        match s1 with
        | String d s2 =>
            if Ascii.eqb d "$" then Some (String c s2)
            else option_map (String c) (drop_dollar_after q s1)
        | EmptyString => None
        end
      else option_map (String c) (drop_dollar_after q s1)
  end.

(** The string whose literal is the literal of [s] without the dollar of
    the first [q]-then-dollar in it: the opening double quote of the literal
    counts when [q] is the double quote. *)
Definition strip_literal (q : ascii) (s : string) : option string :=
  if Ascii.eqb q JSON.dquote && String.prefix "$" s then
    Some (match s with String _ s1 => s1 | EmptyString => EmptyString end)
  else drop_dollar_after q s.

Section strip_lists.

Variable q : ascii.
Variable strip : val -> option val.

(** The first member of an object that has a [q]-then-dollar, in its key
    or else in its value, loses the dollar. *)
Fixpoint strip_members (fs : list (string * val))
  : option (list (string * val)) :=
  match fs with
  | [] => None
  | (k, x) :: rest =>
      match strip_literal q k with
      | Some k' => Some ((k', x) :: rest)
      | None =>
          match strip x with
          | Some x' => Some ((k, x') :: rest)
          | None => option_map (cons (k, x)) (strip_members rest)
          end
      end
  end.

Fixpoint strip_elems (l : list val) : option (list val) :=
  match l with
  | [] => None
  | x :: rest =>
      match strip x with
      | Some x' => Some (x' :: rest)
      | None => option_map (cons x) (strip_elems rest)
      end
  end.

End strip_lists.

(** The data whose text is the text of [v] without the dollar of the first
    [q]-then-dollar in it, keys and strings being met in the order of the
    text; [None] when the text has no [q]-then-dollar. *)
Fixpoint strip_first (q : ascii) (v : val) : option val :=
  match v with
  | VStr s => option_map VStr (strip_literal q s)
  | VObj fields => option_map VObj (strip_members q (strip_first q) fields)
  | VArr items => option_map VArr (strip_elems (strip_first q) items)
  | _ => None
  end.

Definition stripped (q : ascii) (v : val) : val :=
  match strip_first q v with
  | Some v' => v'
  | None => v
  end.

(** ** Sample inputs *)

Module Sample.

(** Structural equality of two values. *)
Fixpoint val_eqb (a b : val) : bool :=
  match a, b with
  | VUndefined, VUndefined => true
  | VNull, VNull => true
  | VBool x, VBool y => Bool.eqb x y
  | VNum x, VNum y => x =? y
  | VStr x, VStr y => String.eqb x y
  | VDate x, VDate y => x =? y
  | VObj xs, VObj ys =>
      (fix fields_eqb (l : list (string * val)) (r : list (string * val)) : bool :=
         match l, r with
         | [], [] => true
         | (k, x) :: l', (k', y) :: r' =>
             String.eqb k k' && val_eqb x y && fields_eqb l' r'
         | _, _ => false
         end) xs ys
  | VArr xs, VArr ys =>
      (fix items_eqb (l : list val) (r : list val) : bool :=
         match l, r with
         | [], [] => true
         | x :: l', y :: r' => val_eqb x y && items_eqb l' r'
         | _, _ => false
         end) xs ys
  | _, _ => false
  end.

(** Modelled from the spec: the [deepDiff] module is not part of the
    sources at hand.  The specification says of it (4.2, step 5): "recurse
    into a structural diff that reports only fields that differ (not the
    whole sub-object)".  Two objects give the object of the fields of the new
    one that differ from the original, two nested objects being compared in
    the same way; any other pair gives the new value.  Step 7: "No change
    in any case => Absent": when no field differs the result is
    [undefined]. *)
Fixpoint deepDiff (original new : val) (flag : bool) : val :=
  match new with
  | VObj fields =>
      match original with
      | VObj ofields =>
          match
            (fix changed (fs : list (string * val)) : list (string * val) :=
               match fs with
               | [] => []
               | (k, x) :: rest =>
                   if val_eqb (JS.lookup_field ofields k) x then changed rest
                   else (k, deepDiff (JS.lookup_field ofields k) x flag)
                          :: changed rest
               end) fields
          with
          | [] => VUndefined
          | differing => VObj differing
          end
      | _ => new
      end
  | _ => new
  end.

Definition no_options : options :=
  {| customCollectionName := None; customDiffAlgo := None; diffOnly := false;
     metadata := None; modifiedBy := None; includeCollectionName := false;
     indexes := None; historyConnection := None |}.

Definition diff_only : options :=
  {| customCollectionName := None; customDiffAlgo := None; diffOnly := true;
     metadata := None; modifiedBy := None; includeCollectionName := false;
     indexes := None; historyConnection := None |}.

(** [{metadata: [{key: 'title', value: 'title'}]}]. *)
Definition with_title_metadata : options :=
  {| customCollectionName := None; customDiffAlgo := None; diffOnly := false;
     metadata := Some [{| key := "title"; value := Field "title"; schema := None |}];
     modifiedBy := None; includeCollectionName := false;
     indexes := None; historyConnection := None |}.

(** [{metadata: [{key: 'm', value: function (o, n, cb) { cb('boom', 'partial') }}]}]. *)
Definition with_failing_metadata : options :=
  {| customCollectionName := None; customDiffAlgo := None; diffOnly := false;
     metadata :=
       Some [{| key := "m";
                value := Async (fun _ _ => (VStr "boom", VStr "partial"));
                schema := None |}];
     modifiedBy := None; includeCollectionName := false;
     indexes := None; historyConnection := None |}.

(** [{modifiedBy: {schemaType: Mixed, contextPath: 'request:userInfo',
    blacklist: ['password']}}]. *)
Definition with_blacklist : options :=
  {| customCollectionName := None; customDiffAlgo := None; diffOnly := false;
     metadata := None;
     modifiedBy :=
       Some {| schemaType := TMixed; contextPath := "request:userInfo";
               blacklist := Some ["password"] |};
     includeCollectionName := false;
     indexes := None; historyConnection := None |}.

(** [{customCollectionName: 'constructor'}]. *)
Definition named_constructor : options :=
  {| customCollectionName := Some "constructor"; customDiffAlgo := None;
     diffOnly := false; metadata := None; modifiedBy := None;
     includeCollectionName := false; indexes := None;
     historyConnection := None |}.

(** A world with nothing in it: no request context, [currentUser] still
    [null], no history model yet; its store, like that of the worlds below,
    does what it is asked. *)
Definition empty_world : world :=
  {| heap := ∅; context := ∅; now := 1000; currentUser := HVal VNull;
     historyModels := ∅; registry := []; persisted := [];
     saveError := fun _ _ => None; removeError := fun _ => None |}.

(** A world whose request context holds the user object
    [{name: 'bob', password: 'pw'}] under ['request:userInfo']. *)
Definition world_with_user : world :=
  {| heap := <[7%nat := [("name", VStr "bob"); ("password", VStr "pw")]]> ∅;
     context := <["request:userInfo" := HRef 7]> ∅;
     now := 1000; currentUser := HVal VNull;
     historyModels := ∅; registry := []; persisted := [];
     saveError := fun _ _ => None; removeError := fun _ => None |}.

(** A new document [{_id: 'abc', title: 'A'}] of the collection [posts]. *)
Definition new_post : document :=
  {| isNew := true; _original := VUndefined;
     toObject := [("_id", VStr "abc"); ("title", VStr "A")];
     collection_name := "posts" |}.

(** The post [{_id: 'abc', title: 'A', message: 'M'}] as loaded by a
    diff-only plugin, with what [toObject()] gives after a change. *)
Definition loaded_post (now : list (string * val)) : document :=
  {| isNew := false;
     _original :=
       VObj [("_id", VStr "abc"); ("title", VStr "A"); ("message", VStr "M")];
     toObject := now;
     collection_name := "posts" |}.

(** Nothing was changed. *)
Definition post_unchanged : document :=
  loaded_post [("_id", VStr "abc"); ("title", VStr "A"); ("message", VStr "M")].

(** The title was changed to ['B']. *)
Definition post_retitled : document :=
  loaded_post [("_id", VStr "abc"); ("title", VStr "B"); ("message", VStr "M")].

(** The title was deleted: [toObject()] has no [title]. *)
Definition post_without_title : document :=
  loaded_post [("_id", VStr "abc"); ("message", VStr "M")].

(** The title was set to [null]. *)
Definition post_with_null_title : document :=
  loaded_post [("_id", VStr "abc"); ("title", VNull); ("message", VStr "M")].

(** A counter was added with the value [0], a flag that was [null] in the
    original was set to [false], and a price went from ['$5'] to ['$7']. *)
Definition post_with_small_changes : document :=
  {| isNew := false;
     _original :=
       VObj [("_id", VStr "abc"); ("title", VStr "A"); ("done", VNull);
             ("price", VStr "$5")];
     toObject :=
       [("_id", VStr "abc"); ("title", VStr "A"); ("done", VBool false);
        ("price", VStr "$7"); ("count", VNum 0)];
     collection_name := "posts" |}.

(** [{modifiedBy: {schemaType: Mixed, contextPath: 'request:userInfo'}}]. *)
Definition with_actor : options :=
  {| customCollectionName := None; customDiffAlgo := None; diffOnly := false;
     metadata := None;
     modifiedBy :=
       Some {| schemaType := TMixed; contextPath := "request:userInfo";
               blacklist := None |};
     includeCollectionName := false;
     indexes := None; historyConnection := None |}.

(** The world of a later request, in which the request context holds
    nothing and [currentUser] is what a [findOne] made in
    [world_with_user] has left. *)
Definition world_after_findOne : world :=
  {| heap := <[7%nat := [("name", VStr "bob"); ("password", VStr "pw")]]> ∅;
     context := ∅;
     now := 2000; currentUser := HRef 7;
     historyModels := ∅; registry := []; persisted := [];
     saveError := fun _ _ => None; removeError := fun _ => None |}.

(** Three metadata pairs: the title, then an extractor that reports the
    error ['boom'] with the data ['partial'], then the message. *)
Definition title_pair : keyValuePair :=
  {| key := "title"; value := Field "title"; schema := None |}.
Definition failing_pair : keyValuePair :=
  {| key := "m"; value := Async (fun _ _ => (VStr "boom", VStr "partial"));
     schema := None |}.
Definition message_pair : keyValuePair :=
  {| key := "message"; value := Field "message"; schema := None |}.
Definition id_as_title_pair : keyValuePair :=
  {| key := "title"; value := Sync (fun _ newDoc => JS.get newDoc "_id");
     schema := None |}.

(** The filter [{_id: {$in: ['x']}, owner: {$ne: 'bob'}}] of an update. *)
Definition filter_with_operators : val :=
  VObj [("_id", VObj [("$in", VArr [VStr "x"])]);
        ("owner", VObj [("$ne", VStr "bob")])].

(** A task with a due date and a property that is [undefined]. *)
Definition task : val :=
  VObj [("_id", VStr "abc"); ("due", VDate 86400000); ("gone", VUndefined)].

End Sample.

(** * Properties *)

(** ** The history-model cache *)

Section cache.

Implicit Types (w : world) (name : string) (opts : options).

Lemma HistoryModel_cached name opts w m :
  historyModels w !! name = Some m ->
  hm.HistoryModel name opts w = (Some m, w).
Proof.
  intros Hm. unfold hm.HistoryModel, hm.in_historyModels. rewrite Hm.
  cbn [negb]. now rewrite Hm.
Qed.

Lemma HistoryModel_first name opts w :
  historyModels w !! name = None ->
  JS.inherited name = false ->
  exists m,
    hm.HistoryModel name opts w =
      (Some m,
       {| heap := heap w; context := context w; now := now w;
          currentUser := currentUser w;
          historyModels := <[name := m]> (historyModels w);
          registry := registry w ++ [m];
          persisted := persisted w;
          saveError := saveError w; removeError := removeError w |})
    /\ modelName m = name
    /\ schemaObject m = hm.buildSchemaObject opts
    /\ connection m = historyConnection opts
    /\ schemaIndexes m = match indexes opts with Some l => l | None => [] end.
Proof.
  intros Hm Hin. unfold hm.HistoryModel, hm.in_historyModels.
  rewrite Hm, Hin. cbn [negb historyModels].
  rewrite lookup_insert_eq. eexists. split; [reflexivity | repeat split].
Qed.

(** A name that the cache has no model for and inherits: nothing is built,
    nothing is registered, and what is returned is no model. *)
Lemma HistoryModel_inherited name opts w :
  historyModels w !! name = None ->
  JS.inherited name = true ->
  hm.HistoryModel name opts w = (None, w).
Proof.
  intros Hm Hin. unfold hm.HistoryModel, hm.in_historyModels.
  rewrite Hm, Hin. cbn [negb]. now rewrite Hm.
Qed.

(** The three cases of a call. *)
Lemma HistoryModel_cases name opts w :
  (exists m, historyModels w !! name = Some m
             /\ hm.HistoryModel name opts w = (Some m, w))
  \/ (historyModels w !! name = None /\ JS.inherited name = true
      /\ hm.HistoryModel name opts w = (None, w))
  \/ (historyModels w !! name = None /\ JS.inherited name = false
      /\ exists m,
           hm.HistoryModel name opts w
           = (Some m,
              {| heap := heap w; context := context w; now := now w;
                 currentUser := currentUser w;
                 historyModels := <[name := m]> (historyModels w);
                 registry := registry w ++ [m];
                 persisted := persisted w;
                 saveError := saveError w; removeError := removeError w |})
           /\ modelName m = name).
Proof.
  destruct (historyModels w !! name) as [m|] eqn:E.
  - left. exists m. split; [reflexivity|]. now apply HistoryModel_cached.
  - destruct (JS.inherited name) eqn:Hin.
    + right. left. repeat split. now apply HistoryModel_inherited.
    + right. right. repeat split.
      destruct (HistoryModel_first name opts w E Hin) as (m & Hm & Hn & _).
      now exists m.
Qed.

(** A call keeps every handle that is in the cache. *)
Lemma HistoryModel_keeps name name' opts w m :
  historyModels w !! name = Some m ->
  historyModels (snd (hm.HistoryModel name' opts w)) !! name = Some m.
Proof.
  intros Hm. unfold hm.HistoryModel, hm.in_historyModels.
  destruct (historyModels w !! name') eqn:E; cbn [negb snd]; [exact Hm|].
  destruct (JS.inherited name'); cbn [negb snd historyModels]; [exact Hm|].
  rewrite lookup_insert_ne; [exact Hm | congruence].
Qed.

Lemma calls_keep l : forall w name m,
  historyModels w !! name = Some m ->
  historyModels (hm.calls l w) !! name = Some m.
Proof.
  induction l as [|[name' opts'] rest IH]; intros w name m Hm; simpl; [exact Hm|].
  apply IH. now apply HistoryModel_keeps.
Qed.

End cache.

(** C10, at the failing input.  The plugin is applied with the custom
    collection name ['constructor'] and the cache is still empty.  The test
    [collectionName in historyModels] holds, because every object inherits
    [constructor]: the first call of [HistoryModel] builds no model, caches
    and registers nothing, and what it returns is no model; so does every
    later call.  The save of a document then raises a [TypeError], never
    calls [next] and saves nothing. *)
Theorem HistoryModel_of_an_inherited_name :
  let first :=
    hm.HistoryModel "constructor" Sample.named_constructor Sample.empty_world in
  let r :=
    pre_save Sample.deepDiff Sample.named_constructor Sample.new_post
      Sample.empty_world in
  historyModels Sample.empty_world !! "constructor" = None
  /\ hm.in_historyModels "constructor" Sample.empty_world = true
  /\ fst first = None
  /\ registry (snd first) = []
  /\ historyModels (snd first) !! "constructor" = None
  /\ hm.HistoryModel "constructor" Sample.named_constructor (snd first) = first
  /\ thrown r = Some TypeError
  /\ next_calls r = []
  /\ persisted (world_after r) = []
  /\ registry (world_after r) = [].
Proof. vm_compute. repeat split. Qed.

(** ** Objects *)

Lemma lookup_assign_field fields k v k' :
  JS.lookup_field (JS.assign_field fields k v) k'
  = if String.eqb k k' then v else JS.lookup_field fields k'.
Proof.
  induction fields as [|[k0 v0] rest IH]; simpl.
  - reflexivity.
  - destruct (String.eqb k0 k) eqn:E0; simpl.
    + apply String.eqb_eq in E0. subst k0.
      destruct (String.eqb k k'); reflexivity.
    + rewrite IH. destruct (String.eqb k0 k') eqn:E1; [|reflexivity].
      apply String.eqb_eq in E1. subst k0.
      now rewrite String.eqb_sym, E0.
Qed.

Lemma get_put v k x k' :
  String.eqb k k' = false -> JS.get (JS.put v k x) k' = JS.get v k'.
Proof.
  intros Hk. destruct v; simpl; try reflexivity.
  now rewrite lookup_assign_field, Hk.
Qed.

Lemma get_assign obj k x obj' k' :
  assign obj k x = Ok obj' -> String.eqb k k' = false ->
  JS.get obj' k' = JS.get obj k'.
Proof.
  intros Ha Hk. destruct obj; simpl in Ha; try discriminate;
    injection Ha as <-; try reflexivity.
  now apply (get_put (VObj fields)).
Qed.

(** Where one side is not an object, [===] is equality. *)
Lemma strict_eq_exact a b :
  JS.typeof_object a = false \/ JS.typeof_object b = false ->
  JS.strict_eq a b = true <-> a = b.
Proof.
  intros Hab. split.
  - destruct a, b; simpl in *; try discriminate; try reflexivity;
      try (destruct Hab; discriminate).
    + intros H. apply Bool.eqb_prop in H. now subst.
    + intros H. apply Z.eqb_eq in H. now subst.
    + intros H. apply String.eqb_eq in H. now subst.
  - intros <-. destruct a; simpl in *; try reflexivity;
      try (destruct Hab; discriminate).
    + apply Bool.eqb_reflx.
    + apply Z.eqb_refl.
    + apply String.eqb_refl.
Qed.

(** ** Building the history document *)

Section record.

Variable opts : options.

Lemma addModifiedByInfo_frame h w h' w' k :
  addModifiedByInfo opts h w = Ok (h', w') ->
  k <> "modifiedBy" -> h' !! k = h !! k.
Proof.
  unfold addModifiedByInfo. intros H Hk.
  destruct (modifiedBy opts) as [mb|].
  - match type of H with bind ?r _ = _ => destruct r as [[a w1]|e] end;
      simpl in H; [|discriminate].
    injection H as <- <-. rewrite lookup_insert_ne; [reflexivity|congruence].
  - now injection H as <- <-.
Qed.

(** The statement of [createHistoryDoc] that sets [docId]: it sets no other
    field, and sets [docId] when the id is truthy and has a text. *)
Lemma docId_set docId (base h0 : gmap string hval) :
  (if JS.truthy docId then
     let emptyObj := VObj [] in
     do text <- toString docId;
     do generic <- toString emptyObj;
     if String.eqb text generic then
       Ok (<["docId" := HVal (VStr (JSON.text docId))]> base)
     else
       do text <- toString docId;
       Ok (<["docId" := HVal (VStr text)]> base)
   else Ok base) = Ok h0 ->
  (forall k, k <> "docId" -> h0 !! k = base !! k)
  /\ if JS.truthy docId then
       exists text,
         toString docId = Ok text
         /\ h0 !! "docId"
            = Some (HVal (VStr (if String.eqb text "[object Object]"
                                then JSON.text docId else text)))
     else h0 = base.
Proof.
  destruct (JS.truthy docId); cbv zeta.
  - destruct (toString docId) as [text|e]; cbn [bind toString JS.has_field];
      [|discriminate].
    destruct (String.eqb text "[object Object]") eqn:E; intros [= <-].
    + split; [intros k Hk; now rewrite lookup_insert_ne by congruence|].
      exists text. rewrite E. split; [reflexivity | apply lookup_insert_eq].
    + split; [intros k Hk; now rewrite lookup_insert_ne by congruence|].
      exists text. rewrite E. split; [reflexivity | apply lookup_insert_eq].
  - intros [= <-]. now split.
Qed.

(** The steps of a call of [createHistoryDoc] that returns. *)
Lemma createHistoryDoc_steps doc diff operation collectionName additionalFields
    w h w' :
  createHistoryDoc opts doc diff operation collectionName additionalFields w
    = Ok (h, w') ->
  exists sdoc sdiff doc' diff' h0 h1,
    sanitizeObj (JS.or_else doc (VObj [])) = Ok sdoc
    /\ sanitizeObj (JS.or_else diff (VObj [])) = Ok sdiff
    /\ assign sdoc "__v" VUndefined = Ok doc'
    /\ assign sdiff "__v" VUndefined = Ok diff'
    /\ (forall k, k <> "docId" ->
          h0 !! k
          = (let base : gmap string hval :=
               <["date" := HVal (VDate (now w))]>
                 (<["op" := HVal (VStr operation)]>
                    (<["diff" := HVal diff']> (<["doc" := HVal doc']> ∅))) in
             if includeCollectionName opts
             then <["col" := HVal (VStr collectionName)]> base else base) !! k)
    /\ (let docId :=
          JS.or_else (JS.get doc' "_id")
            (JS.or_else (JS.get diff' "_id") VNull) in
        if JS.truthy docId then
          exists text,
            toString docId = Ok text
            /\ h0 !! "docId"
               = Some (HVal (VStr (if String.eqb text "[object Object]"
                                   then JSON.text docId else text)))
        else h0 !! "docId" = None)
    /\ addModifiedByInfo opts h0 w = Ok (h1, w')
    /\ h = match additionalFields with
           | Some fields =>
               <["additionalFields" :=
                   HVal (VObj (applyObjectPatch [] fields))]> h1
           | None => h1
           end.
Proof.
  unfold createHistoryDoc. intros H.
  destruct (sanitizeObj (JS.or_else doc (VObj []))) as [sdoc|] eqn:Hd;
    cbn [bind] in H; [|discriminate].
  destruct (sanitizeObj (JS.or_else diff (VObj []))) as [sdiff|] eqn:Hf;
    cbn [bind] in H; [|discriminate].
  destruct (assign sdoc "__v" VUndefined) as [doc'|] eqn:Had;
    cbn [bind] in H; [|discriminate].
  destruct (assign sdiff "__v" VUndefined) as [diff'|] eqn:Haf;
    cbn [bind] in H; [|discriminate].
  match type of H with
  | bind ?step _ = _ => destruct step as [h0|e] eqn:Hstep
  end; cbn [bind] in H; [|discriminate].
  destruct (addModifiedByInfo opts h0 w) as [[h1 w1]|e] eqn:Hm;
    cbn [bind fst snd] in H; [|discriminate].
  injection H as <- <-.
  apply docId_set in Hstep as [Hother Hid].
  exists sdoc, sdiff, doc', diff', h0, h1.
  do 4 (split; [first [assumption | reflexivity]|]). split; [exact Hother|].
  split; [|split; [exact Hm | reflexivity]].
  cbv zeta. destruct (JS.truthy (JS.or_else _ _)); [exact Hid|].
  rewrite Hid. destruct (includeCollectionName opts);
    repeat (rewrite lookup_insert_ne by discriminate); apply lookup_empty.
Qed.

(** What [createHistoryDoc] has put in the document it returns. *)
Lemma createHistoryDoc_fields doc diff operation collectionName additionalFields
    w h w' :
  createHistoryDoc opts doc diff operation collectionName additionalFields w
    = Ok (h, w') ->
  exists sdoc sdiff doc' diff',
    sanitizeObj (JS.or_else doc (VObj [])) = Ok sdoc
    /\ sanitizeObj (JS.or_else diff (VObj [])) = Ok sdiff
    /\ assign sdoc "__v" VUndefined = Ok doc'
    /\ assign sdiff "__v" VUndefined = Ok diff'
    /\ h !! "doc" = Some (HVal doc')
    /\ h !! "diff" = Some (HVal diff')
    /\ h !! "op" = Some (HVal (VStr operation))
    /\ h !! "date" = Some (HVal (VDate (now w)))
    /\ h !! "col" =
         (if includeCollectionName opts then Some (HVal (VStr collectionName))
          else None)
    /\ (let docId :=
          JS.or_else (JS.get doc' "_id")
            (JS.or_else (JS.get diff' "_id") VNull) in
        if JS.truthy docId then
          exists text,
            toString docId = Ok text
            /\ h !! "docId"
               = Some (HVal (VStr (if String.eqb text "[object Object]"
                                   then JSON.text docId else text)))
        else h !! "docId" = None).
Proof.
  intros H.
  destruct (createHistoryDoc_steps _ _ _ _ _ _ _ _ H)
    as (sdoc & sdiff & doc' & diff' & h0 & h1 & Hd & Hf & Had & Haf & Hbase
        & Hid & Hm & ->).
  assert (Hframe : forall k, k <> "modifiedBy" -> k <> "additionalFields" ->
            (match additionalFields with
             | Some fields =>
                 <["additionalFields" :=
                     HVal (VObj (applyObjectPatch [] fields))]> h1
             | None => h1
             end) !! k = h0 !! k).
  { intros k Hk Hk'. rewrite <- (addModifiedByInfo_frame _ _ _ _ k Hm Hk).
    destruct additionalFields; [|reflexivity].
    rewrite lookup_insert_ne; [reflexivity|congruence]. }
  exists sdoc, sdiff, doc', diff'.
  do 4 (split; [assumption|]).
  rewrite !Hframe by discriminate. rewrite !Hbase by discriminate.
  cbv zeta. repeat split;
    try (destruct (includeCollectionName opts);
         repeat (rewrite lookup_insert_ne by discriminate);
         first [apply lookup_insert_eq | apply lookup_empty]).
  exact Hid.
Qed.

(** The fields [createHistoryDoc] can set, and no other. *)
Lemma createHistoryDoc_keys doc diff operation collectionName additionalFields
    w h w' k :
  createHistoryDoc opts doc diff operation collectionName additionalFields w
    = Ok (h, w') ->
  ~ In k ["doc"; "diff"; "op"; "date"; "col"; "docId"; "modifiedBy";
          "additionalFields"] ->
  h !! k = None.
Proof.
  intros H Hk.
  destruct (createHistoryDoc_steps _ _ _ _ _ _ _ _ H)
    as (sdoc & sdiff & doc' & diff' & h0 & h1 & _ & _ & _ & _ & Hbase
        & _ & Hm & ->).
  assert (Hne : forall name,
            In name ["doc"; "diff"; "op"; "date"; "col"; "docId"; "modifiedBy";
                     "additionalFields"] -> name <> k).
  { intros name Hin ->. contradiction. }
  assert (Hadd : (match additionalFields with
                  | Some fields =>
                      <["additionalFields" :=
                          HVal (VObj (applyObjectPatch [] fields))]> h1
                  | None => h1
                  end) !! k = h1 !! k).
  { destruct additionalFields; [|reflexivity].
    apply lookup_insert_ne, Hne. simpl. tauto. }
  rewrite Hadd.
  rewrite (addModifiedByInfo_frame _ _ _ _ k Hm)
    by (intros ->; apply Hk; simpl; tauto).
  rewrite Hbase by (intros ->; apply Hk; simpl; tauto).
  cbv zeta. destruct (includeCollectionName opts);
    repeat (rewrite lookup_insert_ne by (apply Hne; simpl; tauto));
    apply lookup_empty.
Qed.

End record.

Section actor.

Variable opts : options.

(** The actor [addModifiedByInfo] works on: the value of the request
    context, or [currentUser] when that value is falsy. *)
Lemma addModifiedByInfo_unfold mb h w :
  modifiedBy opts = Some mb ->
  addModifiedByInfo opts h w =
    (let _modifiedBy :=
       if negb (htruthy (contextService_get w (contextPath mb)))
       then currentUser w else contextService_get w (contextPath mb) in
     do r <-
       match blacklist mb with
       | Some (k :: ks) => unsetKeys (k :: ks) _modifiedBy w
       | _ => Ok (_modifiedBy, w)
       end;
     Ok (<["modifiedBy" := fst r]> h, snd r)).
Proof. intros Hmb. unfold addModifiedByInfo. now rewrite Hmb. Qed.

Lemma deref_with_heap w l fields l' :
  deref (with_heap w (<[l := fields]> (heap w))) l'
  = if Nat.eqb l l' then fields else deref w l'.
Proof.
  unfold deref. cbn [heap with_heap].
  destruct (Nat.eqb l l') eqn:E.
  - apply Nat.eqb_eq in E. subst l'. now rewrite lookup_insert_eq.
  - apply Nat.eqb_neq in E. now rewrite lookup_insert_ne.
Qed.

(** The blacklist loop on a shared object: every key of the list is set to
    [undefined] in the object itself. *)
Lemma unsetKeys_shared keys : forall l w,
  exists w',
    unsetKeys keys (HRef l) w = Ok (HRef l, w')
    /\ (forall k, In k keys -> JS.lookup_field (deref w' l) k = VUndefined)
    /\ (forall k, ~ In k keys ->
          JS.lookup_field (deref w' l) k = JS.lookup_field (deref w l) k)
    /\ (forall l', l' <> l -> deref w' l' = deref w l')
    /\ context w' = context w /\ currentUser w' = currentUser w.
Proof.
  induction keys as [|k rest IH]; intros l w.
  - exists w. simpl. repeat split; tauto.
  - cbn [unsetKeys assign_shared bind fst snd].
    destruct (IH l (with_heap w
                (<[l := JS.assign_field (deref w l) k VUndefined]> (heap w))))
      as (w' & Hrun & Hin & Hout & Hother & Hctx & Hcur).
    exists w'. split; [exact Hrun|]. repeat split.
    + intros k' [<-|Hk'].
      * destruct (in_dec String.string_dec k rest) as [Hr|Hr]; [now apply Hin|].
        rewrite (Hout k Hr), deref_with_heap, Nat.eqb_refl.
        now rewrite lookup_assign_field, String.eqb_refl.
      * now apply Hin.
    + intros k' Hk'. simpl in Hk'.
      rewrite Hout by tauto.
      rewrite deref_with_heap, Nat.eqb_refl, lookup_assign_field.
      destruct (String.eqb k k') eqn:E; [|reflexivity].
      apply String.eqb_eq in E. tauto.
    + intros l' Hl'. rewrite (Hother l' Hl'), deref_with_heap.
      destruct (Nat.eqb l l') eqn:E; [|reflexivity].
      apply Nat.eqb_eq in E. congruence.
    + exact Hctx.
    + exact Hcur.
Qed.

(** The blacklist loop on [undefined] or [null]: the first assignment is a
    [TypeError]. *)
Lemma unsetKeys_nullish k ks v w :
  JS.truthy v = false -> (v = VUndefined \/ v = VNull) ->
  unsetKeys (k :: ks) (HVal v) w = Throw TypeError.
Proof. intros _ [-> | ->]; reflexivity. Qed.

(** With a blacklist and no actor, [addModifiedByInfo] raises. *)
Lemma addModifiedByInfo_no_actor mb k ks h w :
  modifiedBy opts = Some mb ->
  blacklist mb = Some (k :: ks) ->
  htruthy (contextService_get w (contextPath mb)) = false ->
  currentUser w = HVal VNull \/ currentUser w = HVal VUndefined ->
  addModifiedByInfo opts h w = Throw TypeError.
Proof.
  intros Hmb Hbl Hctx Hcur.
  rewrite (addModifiedByInfo_unfold mb) by assumption.
  rewrite Hbl, Hctx. cbn [negb].
  destruct Hcur as [-> | ->]; reflexivity.
Qed.

End actor.

Section record_properties.

Variable opts : options.

Lemma createHistoryDoc_actor doc diff operation collectionName additionalFields
    w h w' :
  createHistoryDoc opts doc diff operation collectionName additionalFields w
    = Ok (h, w') ->
  exists h0 h1,
    addModifiedByInfo opts h0 w = Ok (h1, w')
    /\ h !! "modifiedBy" = h1 !! "modifiedBy".
Proof.
  intros H.
  destruct (createHistoryDoc_steps opts _ _ _ _ _ _ _ _ H)
    as (sdoc & sdiff & doc' & diff' & h0 & h1 & _ & _ & _ & _ & _ & _ & Hm & ->).
  exists h0, h1. split; [exact Hm|].
  destruct additionalFields; [|reflexivity].
  now rewrite lookup_insert_ne by discriminate.
Qed.

Lemma string_of_Z_not_generic n :
  String.eqb (JSON.string_of_Z n) "[object Object]" = false.
Proof.
  apply String.eqb_neq. unfold JSON.string_of_Z.
  destruct (Z.to_int n) as [d|d]; destruct d; discriminate.
Qed.

(** C9 (as amended).  The [docId] of a history document is taken from the
    [_id] of the sanitized [doc] when that is truthy, else from the [_id] of
    the sanitized [diff], and is absent when neither is truthy.  It is the
    text that [toString()] gives for the id, unless that text is the generic
    ["[object Object]"], and then it is the JSON text of the id.  So a
    string id such as ["abc"] is kept as it is, a number is written in
    decimal and [true] as ["true"]; a plain object is written as JSON; and
    so is the string ["[object Object]"] itself, which is kept with the
    quotes of its JSON text. *)
Theorem documentId_resolution doc diff operation collectionName
    additionalFields w h w' :
  createHistoryDoc opts doc diff operation collectionName additionalFields w
    = Ok (h, w') ->
  exists sdoc sdiff,
    sanitizeObj (JS.or_else doc (VObj [])) = Ok sdoc
    /\ sanitizeObj (JS.or_else diff (VObj [])) = Ok sdiff
    /\ let id :=
         if JS.truthy (JS.get sdoc "_id") then JS.get sdoc "_id"
         else JS.get sdiff "_id" in
       (JS.truthy id = false -> h !! "docId" = None)
       /\ (JS.truthy id = true -> JS.safe id = true ->
           exists text,
             toString id = Ok text
             /\ h !! "docId"
                = Some (HVal (VStr (if String.eqb text "[object Object]"
                                    then JSON.text id else text))))
       /\ (forall s, id = VStr s -> s <> EmptyString ->
             h !! "docId"
             = Some (HVal (VStr (if String.eqb s "[object Object]"
                                 then JSON.quote s else s))))
       /\ (forall n, id = VNum n -> n <> 0 -> JS.safe_integer n = true ->
             h !! "docId" = Some (HVal (VStr (JSON.string_of_Z n))))
       /\ (id = VBool true -> h !! "docId" = Some (HVal (VStr "true")))
       /\ (forall fields, id = VObj fields -> JS.safe id = true ->
             h !! "docId" = Some (HVal (VStr (JSON.text (VObj fields))))).
Proof.
  intros H.
  destruct (createHistoryDoc_fields opts _ _ _ _ _ _ _ _ H)
    as (sdoc & sdiff & doc' & diff' & Hd & Hf & Had & Haf & _ & _ & _ & _ & _ & Hid).
  exists sdoc, sdiff. split; [exact Hd|]. split; [exact Hf|].
  rewrite (get_assign _ _ _ _ "_id" Had eq_refl) in Hid.
  rewrite (get_assign _ _ _ _ "_id" Haf eq_refl) in Hid.
  cbv zeta in Hid. unfold JS.or_else in Hid.
  intros id.
  assert (Hrule :
    if JS.truthy id then
      exists text,
        toString id = Ok text
        /\ h !! "docId"
           = Some (HVal (VStr (if String.eqb text "[object Object]"
                               then JSON.text id else text)))
    else h !! "docId" = None).
  { subst id. destruct (JS.truthy (JS.get sdoc "_id")) eqn:Tdoc.
    - now rewrite Tdoc in *.
    - destruct (JS.truthy (JS.get sdiff "_id")) eqn:Tdiff; [now rewrite Tdiff in *|].
      exact Hid. }
  clearbody id. clear Hid.
  split; [intros Hfalse; now rewrite Hfalse in Hrule|].
  split; [intros Htrue _; now rewrite Htrue in Hrule|].
  split; [|split; [|split]].
  - intros s -> Hne.
    assert (Ht : JS.truthy (VStr s) = true).
    { cbn. apply negb_true_iff, String.eqb_neq. exact Hne. }
    rewrite Ht in Hrule. destruct Hrule as (text & [= <-] & ->). reflexivity.
  - intros n -> Hne _.
    assert (Ht : JS.truthy (VNum n) = true).
    { cbn. apply negb_true_iff, Z.eqb_neq. exact Hne. }
    rewrite Ht in Hrule. destruct Hrule as (text & [= <-] & ->).
    now rewrite string_of_Z_not_generic.
  - intros ->. cbn [JS.truthy] in Hrule.
    destruct Hrule as (text & [= <-] & ->). reflexivity.
  - intros fields -> _. cbn [JS.truthy] in Hrule.
    destruct Hrule as (text & Ht & ->). cbn [toString] in Ht.
    destruct (JS.has_field fields "toString"); [discriminate|].
    now injection Ht as <-.
Qed.

End record_properties.

Lemma documentId_resolution_witness :
  match createHistoryDoc Sample.no_options (VObj [("_id", VStr "abc")])
          VUndefined "i" "posts" None Sample.empty_world with
  | Ok (h, _) =>
      exists sdoc sdiff,
        sanitizeObj (JS.or_else (VObj [("_id", VStr "abc")]) (VObj [])) = Ok sdoc
        /\ sanitizeObj (JS.or_else VUndefined (VObj [])) = Ok sdiff
        /\ let id :=
             if JS.truthy (JS.get sdoc "_id") then JS.get sdoc "_id"
             else JS.get sdiff "_id" in
           (JS.truthy id = false -> h !! "docId" = None)
           /\ (JS.truthy id = true -> JS.safe id = true ->
               exists text,
                 toString id = Ok text
                 /\ h !! "docId"
                    = Some (HVal (VStr (if String.eqb text "[object Object]"
                                        then JSON.text id else text))))
           /\ (forall s, id = VStr s -> s <> EmptyString ->
                 h !! "docId"
                 = Some (HVal (VStr (if String.eqb s "[object Object]"
                                     then JSON.quote s else s))))
           /\ (forall n, id = VNum n -> n <> 0 -> JS.safe_integer n = true ->
                 h !! "docId" = Some (HVal (VStr (JSON.string_of_Z n))))
           /\ (id = VBool true -> h !! "docId" = Some (HVal (VStr "true")))
           /\ (forall fields, id = VObj fields -> JS.safe id = true ->
                 h !! "docId" = Some (HVal (VStr (JSON.text (VObj fields)))))
  | Throw _ => False
  end.
Proof.
  destruct (createHistoryDoc Sample.no_options (VObj [("_id", VStr "abc")])
              VUndefined "i" "posts" None Sample.empty_world)
    as [[h w']|e] eqn:E.
  - exact (documentId_resolution Sample.no_options _ _ _ _ _ _ h w' E).
  - assert (Hok : is_ok (createHistoryDoc Sample.no_options
                           (VObj [("_id", VStr "abc")]) VUndefined "i" "posts"
                           None Sample.empty_world) = true)
      by (vm_compute; reflexivity).
    rewrite E in Hok. discriminate Hok.
Defined.

(** C9, counterexample.  The id of the document is the string
    ["[object Object]"], a scalar: the [docId] of the history document is not
    that string but its JSON text, with the quotes. *)
Lemma documentId_of_the_generic_text :
  match createHistoryDoc Sample.no_options
          (VObj [("_id", VStr "[object Object]")]) VUndefined "i" "posts" None
          Sample.empty_world with
  | Ok (h, _) =>
      h !! "docId" = Some (HVal (VStr (JSON.quote "[object Object]")))
      /\ h !! "docId" <> Some (HVal (VStr "[object Object]"))
  | Throw _ => False
  end.
Proof. vm_compute. split; [reflexivity | discriminate]. Qed.

(** The cases of the specification: the id comes from [doc], else from
    [diff], else there is none; an id that is a query fragment is written as
    JSON, and the items of an array are joined by commas. *)
Example documentId_cases :
  let docId doc diff :=
    match createHistoryDoc Sample.no_options doc diff "u" "posts" None
            Sample.empty_world with
    | Ok (h, _) => h !! "docId"
    | Throw _ => None
    end in
  docId (VObj [("_id", VStr "abc")]) VUndefined = Some (HVal (VStr "abc"))
  /\ docId VUndefined (VObj [("_id", VStr "abc")]) = Some (HVal (VStr "abc"))
  /\ docId (VObj [("_id", VStr "abc")]) (VObj [("_id", VStr "xyz")])
     = Some (HVal (VStr "abc"))
  /\ docId VUndefined VUndefined = None
  /\ docId (VObj [("_id", VNum 42)]) VUndefined = Some (HVal (VStr "42"))
  /\ docId (VObj [("_id", VArr [VNum 1; VNull; VStr "b"])]) VUndefined
     = Some (HVal (VStr "1,,b"))
  /\ docId (VObj [("_id", VObj [("$in", VArr [VStr "x"])])]) VUndefined
     = Some (HVal (VStr (JSON.text (VObj [("in", VArr [VStr "x"])])))).
Proof. repeat split; vm_compute; reflexivity. Qed.

(** An id that is an object with a property [toString]: the call of
    [toString()] on it raises, and so does building the history document. *)
Example documentId_of_an_object_with_toString :
  createHistoryDoc Sample.no_options
    (VObj [("_id", VObj [("toString", VNum 1)])]) VUndefined "u" "posts" None
    Sample.empty_world
  = Throw TypeError.
Proof. vm_compute. reflexivity. Qed.

(** ** Saving the history document *)

Section saving.

Variable deepDiff : val -> val -> bool -> val.
Variable opts : options.

Lemma saveRecord_historyDoc historyDoc collectionName w :
  historyDoc_after (saveRecord opts historyDoc collectionName w) = historyDoc.
Proof.
  unfold saveRecord.
  destruct (hm.HistoryModel _ _ _) as [[m|] w1]; [|reflexivity].
  now destruct (saveError w1 (modelName m) historyDoc).
Qed.

(** [saveHistoryModel] writes to the [doc] of the history document and to
    nothing else of it. *)
Lemma saveHistoryModel_frame originalDoc newDoc historyDoc collectionName w k :
  k <> "doc" ->
  historyDoc_after
    (saveHistoryModel opts originalDoc newDoc historyDoc collectionName w) !! k
  = historyDoc !! k.
Proof.
  intros Hk. unfold saveHistoryModel.
  destruct (metadata opts) as [ms|].
  - cbn [historyDoc_after]. rewrite lookup_insert_ne; [reflexivity|congruence].
  - now rewrite saveRecord_historyDoc.
Qed.

Lemma saveHistoryModel_doc originalDoc newDoc historyDoc collectionName w :
  metadata opts = None ->
  historyDoc_after
    (saveHistoryModel opts originalDoc newDoc historyDoc collectionName w)
  = historyDoc.
Proof.
  intros Hm. unfold saveHistoryModel. rewrite Hm.
  apply saveRecord_historyDoc.
Qed.

(** A save that is not a diff-only update, and that raises nothing, has
    built its history document with [createHistoryDoc] from the original and
    the full new state. *)
Lemma pre_save_full doc w :
  diffOnly opts && negb (isNew doc) = false ->
  thrown (pre_save deepDiff opts doc w) = None ->
  exists h w',
    createHistoryDoc opts (_original doc) (VObj (toObject doc))
      (if isNew doc then "i" else "u") (collection_name doc) None w
      = Ok (h, w')
    /\ (forall k, k <> "doc" ->
          historyDoc_after (pre_save deepDiff opts doc w) !! k = h !! k)
    /\ (metadata opts = None ->
          historyDoc_after (pre_save deepDiff opts doc w) = h).
Proof.
  unfold pre_save, _saveHistory. intros -> Hthrown.
  destruct (createHistoryDoc _ _ _ _ _ _ _) as [[h w']|e] eqn:Hc;
    [|discriminate].
  exists h, w'. split; [reflexivity|]. split.
  - intros k Hk. now apply saveHistoryModel_frame.
  - apply saveHistoryModel_doc.
Qed.

(** Whatever the metadata, a save hook leaves the history document with no
    top-level field beyond those [createHistoryDoc] sets. *)
Lemma pre_save_keys doc w k :
  ~ In k ["doc"; "diff"; "op"; "date"; "col"; "docId"; "modifiedBy";
          "additionalFields"] ->
  historyDoc_after (pre_save deepDiff opts doc w) !! k = None.
Proof.
  intros Hk.
  assert (Hdoc : k <> "doc") by (intros ->; apply Hk; simpl; tauto).
  unfold pre_save, _saveHistory.
  destruct (diffOnly opts && negb (isNew doc)).
  - destruct (diffFields _ _ _ _ _ _) as [D|e]; [|apply lookup_empty].
    destruct (createHistoryDoc _ _ _ _ _ _ _) as [[h w']|e] eqn:Hc;
      [|apply lookup_empty].
    rewrite saveHistoryModel_frame by exact Hdoc.
    exact (createHistoryDoc_keys opts _ _ _ _ _ _ _ _ k Hc Hk).
  - destruct (createHistoryDoc _ _ _ _ _ _ _) as [[h w']|e] eqn:Hc;
      [|apply lookup_empty].
    rewrite saveHistoryModel_frame by exact Hdoc.
    exact (createHistoryDoc_keys opts _ _ _ _ _ _ _ _ k Hc Hk).
Qed.

End saving.

(** C1 (as amended).  A save of a new document produces a history document
    whose [op] is ["i"] and whose [diff] is the sanitized full new state of
    the document, with [__v] set to [undefined]: no reduced delta.  Its [doc]
    is not the new state but the sanitized original, which for a document
    with no [_original] is the empty object (with [__v] set to [undefined])
    when no metadata is configured. *)
Theorem insert_record deepDiff opts doc w :
  isNew doc = true ->
  thrown (pre_save deepDiff opts doc w) = None ->
  exists snew,
    sanitizeObj (VObj (toObject doc)) = Ok snew
    /\ historyDoc_after (pre_save deepDiff opts doc w) !! "op"
       = Some (HVal (VStr "i"))
    /\ historyDoc_after (pre_save deepDiff opts doc w) !! "diff"
       = Some (HVal (JS.put snew "__v" VUndefined))
    /\ (_original doc = VUndefined -> metadata opts = None ->
        historyDoc_after (pre_save deepDiff opts doc w) !! "doc"
        = Some (HVal (VObj [("__v", VUndefined)]))).
Proof.
  intros Hnew Hthrown.
  destruct (pre_save_full deepDiff opts doc w) as (h & w' & Hc & Hk & Hall).
  { rewrite Hnew. apply andb_false_r. }
  { exact Hthrown. }
  rewrite Hnew in Hc.
  destruct (createHistoryDoc_fields opts _ _ _ _ _ _ _ _ Hc)
    as (sdoc & sdiff & doc' & diff' & Hd & Hf & Had & Haf & Hdoc & Hdiff & Hop & _).
  cbn [JS.or_else JS.truthy] in Hf.
  exists sdiff. split; [exact Hf|]. split; [|split].
  - rewrite Hk by discriminate. exact Hop.
  - rewrite Hk by discriminate. rewrite Hdiff.
    destruct sdiff; simpl in Haf; try discriminate;
      injection Haf as <-; reflexivity.
  - intros Horig Hmeta. rewrite (Hall Hmeta), Hdoc.
    rewrite Horig in Hd. vm_compute in Hd. injection Hd as <-.
    vm_compute in Had. now injection Had as <-.
Qed.

Lemma insert_record_witness :
  exists snew,
    sanitizeObj (VObj (toObject Sample.new_post)) = Ok snew
    /\ historyDoc_after
         (pre_save Sample.deepDiff Sample.no_options Sample.new_post
            Sample.empty_world) !! "op"
       = Some (HVal (VStr "i"))
    /\ historyDoc_after
         (pre_save Sample.deepDiff Sample.no_options Sample.new_post
            Sample.empty_world) !! "diff"
       = Some (HVal (JS.put snew "__v" VUndefined))
    /\ (_original Sample.new_post = VUndefined ->
        metadata Sample.no_options = None ->
        historyDoc_after
          (pre_save Sample.deepDiff Sample.no_options Sample.new_post
             Sample.empty_world) !! "doc"
        = Some (HVal (VObj [("__v", VUndefined)]))).
Proof.
  apply (insert_record Sample.deepDiff Sample.no_options Sample.new_post
           Sample.empty_world).
  - reflexivity.
  - vm_compute. reflexivity.
Defined.

(** C1, counterexample.  The save of the new document
    [{_id: 'abc', title: 'A'}] produces a history document whose [doc] is
    [{__v: undefined}]: it is not the sanitized new state
    [{_id: 'abc', title: 'A'}], with or without [__v]. *)
Lemma insert_record_doc_is_not_new_state :
  let r :=
    pre_save Sample.deepDiff Sample.no_options Sample.new_post
      Sample.empty_world in
  let snew := VObj [("_id", VStr "abc"); ("title", VStr "A")] in
  isNew Sample.new_post = true
  /\ thrown r = None
  /\ sanitizeObj (VObj (toObject Sample.new_post)) = Ok snew
  /\ historyDoc_after r !! "op" = Some (HVal (VStr "i"))
  /\ historyDoc_after r !! "doc" = Some (HVal (VObj [("__v", VUndefined)]))
  /\ historyDoc_after r !! "doc" <> Some (HVal snew)
  /\ historyDoc_after r !! "doc" <> Some (HVal (JS.put snew "__v" VUndefined)).
Proof.
  vm_compute. repeat split; discriminate.
Qed.

(** ** The actor *)

(** C5, at the failing input.  Actor tracking is configured with the
    blacklist [['password']], the request context holds nothing and
    [currentUser] is still [null]: the first assignment of the blacklist loop
    is made on [null], so that building the history document raises a
    [TypeError]; the save hook raises, never calls [next] and saves
    nothing. *)
Theorem no_actor_with_blacklist_raises :
  let r :=
    pre_save Sample.deepDiff Sample.with_blacklist Sample.new_post
      Sample.empty_world in
  contextService_get Sample.empty_world "request:userInfo" = HVal VUndefined
  /\ currentUser Sample.empty_world = HVal VNull
  /\ createHistoryDoc Sample.with_blacklist VUndefined
       (VObj (toObject Sample.new_post)) "i" "posts" None Sample.empty_world
     = Throw TypeError
  /\ thrown r = Some TypeError
  /\ next_calls r = []
  /\ persisted (world_after r) = [].
Proof. vm_compute. repeat split. Qed.

(** Without a blacklist the field is not left out either: it is set, to
    [null]. *)
Lemma no_actor_without_blacklist_sets_null opts mb h w :
  modifiedBy opts = Some mb ->
  blacklist mb = None ->
  htruthy (contextService_get w (contextPath mb)) = false ->
  currentUser w = HVal VNull ->
  exists h',
    addModifiedByInfo opts h w = Ok (h', w)
    /\ h' !! "modifiedBy" = Some (HVal VNull).
Proof.
  intros Hmb Hbl Hctx Hcur.
  rewrite (addModifiedByInfo_unfold opts mb) by assumption.
  rewrite Hbl, Hctx, Hcur. cbn. eexists. split; [reflexivity|].
  apply lookup_insert_eq.
Qed.

(** What the blacklist loop does in general.  When the actor is an object,
    the blacklist is applied to that very object: the history document holds
    a reference to the live actor, not a copy, and each blacklisted key of
    the live actor is set to [undefined]; the other keys of the actor and the
    other objects are left as they were. *)
Lemma blacklist_is_applied_to_the_live_actor opts mb k ks l
    doc diff operation collectionName additionalFields w h w' :
  modifiedBy opts = Some mb ->
  blacklist mb = Some (k :: ks) ->
  (if htruthy (contextService_get w (contextPath mb))
   then contextService_get w (contextPath mb) else currentUser w) = HRef l ->
  createHistoryDoc opts doc diff operation collectionName additionalFields w
    = Ok (h, w') ->
  h !! "modifiedBy" = Some (HRef l)
  /\ (forall key, In key (k :: ks) ->
        JS.lookup_field (deref w' l) key = VUndefined)
  /\ (forall key, ~ In key (k :: ks) ->
        JS.lookup_field (deref w' l) key = JS.lookup_field (deref w l) key)
  /\ (forall l', l' <> l -> deref w' l' = deref w l')
  /\ context w' = context w.
Proof.
  intros Hmb Hbl Hactor Hc.
  destruct (createHistoryDoc_actor opts _ _ _ _ _ _ _ _ Hc)
    as (h0 & h1 & Hadd & Hfield).
  rewrite (addModifiedByInfo_unfold opts mb) in Hadd by assumption.
  rewrite Hbl in Hadd. cbv zeta in Hadd.
  replace (if negb (htruthy (contextService_get w (contextPath mb)))
           then currentUser w else contextService_get w (contextPath mb))
    with (HRef l) in Hadd
    by (rewrite <- Hactor; now destruct (htruthy _)).
  destruct (unsetKeys_shared (k :: ks) l w)
    as (w1 & Hrun & Hin & Hout & Hother & Hctx & _).
  rewrite Hrun in Hadd. cbn [bind fst snd] in Hadd.
  injection Hadd as <- <-.
  split; [rewrite Hfield; apply lookup_insert_eq|].
  repeat split; assumption.
Qed.

Lemma blacklist_is_applied_to_the_live_actor_example :
  match createHistoryDoc Sample.with_blacklist VUndefined
          (VObj (toObject Sample.new_post)) "i" "posts" None
          Sample.world_with_user with
  | Ok (h, w') =>
      h !! "modifiedBy" = Some (HRef 7)
      /\ (forall key, In key ["password"] ->
            JS.lookup_field (deref w' 7) key = VUndefined)
      /\ (forall key, ~ In key ["password"] ->
            JS.lookup_field (deref w' 7) key
            = JS.lookup_field (deref Sample.world_with_user 7) key)
      /\ (forall l', l' <> 7%nat ->
            deref w' l' = deref Sample.world_with_user l')
      /\ context w' = context Sample.world_with_user
  | Throw _ => False
  end.
Proof.
  destruct (createHistoryDoc Sample.with_blacklist VUndefined
              (VObj (toObject Sample.new_post)) "i" "posts" None
              Sample.world_with_user) as [[h w']|e] eqn:E.
  - apply (blacklist_is_applied_to_the_live_actor Sample.with_blacklist
             {| schemaType := TMixed; contextPath := "request:userInfo";
                blacklist := Some ["password"] |}
             "password" [] 7%nat VUndefined (VObj (toObject Sample.new_post))
             "i" "posts" None Sample.world_with_user h w').
    + reflexivity.
    + reflexivity.
    + vm_compute. reflexivity.
    + exact E.
  - assert (Hok : is_ok (createHistoryDoc Sample.with_blacklist VUndefined
                           (VObj (toObject Sample.new_post)) "i" "posts" None
                           Sample.world_with_user) = true)
      by (vm_compute; reflexivity).
    rewrite E in Hok. discriminate Hok.
Defined.

(** C6, at the failing input.  Actor tracking is configured with the
    blacklist [['password']] and the request context holds the user object
    [{name: 'bob', password: 'pw'}].  No copy is made: after the history
    document is built the object of the request context itself has lost its
    password, and the history document holds that object. *)
Theorem blacklist_changes_the_live_actor :
  contextService_get Sample.world_with_user "request:userInfo" = HRef 7
  /\ JS.lookup_field (deref Sample.world_with_user 7) "password" = VStr "pw"
  /\ match createHistoryDoc Sample.with_blacklist VUndefined
             (VObj (toObject Sample.new_post)) "i" "posts" None
             Sample.world_with_user with
     | Ok (h, w') =>
         contextService_get w' "request:userInfo" = HRef 7
         /\ h !! "modifiedBy" = Some (HRef 7)
         /\ JS.lookup_field (deref w' 7) "password" = VUndefined
         /\ deref w' 7 <> deref Sample.world_with_user 7
     | Throw _ => False
     end.
Proof.
  vm_compute. repeat split. discriminate.
Qed.

(** ** Metadata *)

(** C3, at the failing input.  The plugin is configured with the metadata
    pair [{key: 'title', value: 'title'}] and the new document
    [{_id: 'abc', title: 'A'}] is saved.  The history schema declares a
    top-level field [title]; the history document that is saved has no
    top-level [title]: the value was written into its [doc]. *)
Theorem metadata_is_written_into_doc :
  let r :=
    pre_save Sample.deepDiff Sample.with_title_metadata Sample.new_post
      Sample.empty_world in
  thrown r = None
  /\ next_calls r = [VNull]
  /\ hm.buildSchemaObject Sample.with_title_metadata !! "title"
     = Some {| type := TMixed; required := false |}
  /\ match persisted (world_after r) with
     | [(name, record)] =>
         name = "posts_history"
         /\ record !! "title" = None
         /\ record !! "doc"
            = Some (HVal (VObj [("__v", VUndefined); ("title", VStr "A")]))
     | _ => False
     end.
Proof. vm_compute. repeat split. Qed.

(** An asynchronous extractor that reports an error: [cb(err)] calls the
    final callback with the error, the data is assigned all the same, and the
    second call of [cb] raises. *)
Lemma setMetadata_failing_extractor k f sch originalDoc newDoc doc err data :
  f originalDoc newDoc = (err, data) ->
  JS.truthy err = true ->
  JS.truthy doc = true ->
  setMetadata [{| key := k; value := Async f; schema := sch |}]
    originalDoc newDoc doc
  = {| target := JS.put doc k data; completed := 0;
       final := Some (err, doc); raised := Some CallbackAlreadyCalled |}.
Proof.
  intros Hf Herr Hdoc. unfold setMetadata. rewrite Hdoc.
  cbn [negb length map each iteratee value key]. rewrite Hf, Herr.
  cbn [app run_steps]. rewrite Herr. reflexivity.
Qed.

(** C4, at the failing input.  The only metadata extractor is
    [function (o, n, cb) { cb('boom', 'partial') }].  The error reaches
    [next] and nothing is saved, but the statements after [cb(err)] still
    run: the data is recorded under the key, and the callback is called a
    second time, which [async] answers with an exception. *)
Theorem failing_extractor_is_still_recorded :
  let r :=
    pre_save Sample.deepDiff Sample.with_failing_metadata Sample.new_post
      Sample.empty_world in
  next_calls r = [VStr "boom"]
  /\ persisted (world_after r) = []
  /\ historyDoc_after r !! "doc"
     = Some (HVal (VObj [("__v", VUndefined); ("m", VStr "partial")]))
  /\ thrown r = Some CallbackAlreadyCalled.
Proof. vm_compute. repeat split. Qed.

(** ** The diff of a diff-only update *)

Section diff.

Variable deepDiff : val -> val -> bool -> val.
Variable opts : options.

Lemma member_object obj k :
  obj <> VUndefined -> obj <> VNull -> member obj k = Ok (JS.get obj k).
Proof. destruct obj; simpl; congruence. Qed.

(** What the loop over the keys of the new document leaves in the diff:
    a key whose diff is truthy holds it (the string ['null'] having become
    [null]); any other key is as it was before the loop. *)
Lemma diffFields_lookup newDoc originalDoc keys :
  originalDoc <> VUndefined -> originalDoc <> VNull ->
  forall diff,
  exists D,
    diffFields deepDiff opts newDoc originalDoc keys diff = Ok D
    /\ forall f,
         JS.lookup_field D f =
           (let out :=
              diffAlgo deepDiff opts f (JS.lookup_field newDoc f)
                (JS.get originalDoc f) in
            if JS.has_field keys f && JS.truthy out then
              if JS.strict_eq out (VStr "null") then VNull else out
            else JS.lookup_field diff f).
Proof.
  intros Hu Hn. induction keys as [|[k x] rest IH]; intros diff.
  - exists diff. split; reflexivity.
  - cbn [diffFields]. rewrite member_object by assumption. cbn [bind].
    set (out := diffAlgo deepDiff opts k (JS.lookup_field newDoc k)
                  (JS.get originalDoc k)).
    destruct (JS.truthy out) eqn:T.
    + destruct (IH (JS.assign_field diff k
                      (if JS.strict_eq out (VStr "null") then VNull else out)))
        as (D & HD & Hl).
      exists D. split; [exact HD|]. intros f. rewrite Hl. cbv zeta.
      cbn [JS.has_field]. rewrite lookup_assign_field.
      destruct (String.eqb k f) eqn:E.
      * apply String.eqb_eq in E. subst f. fold out. rewrite T.
        cbn [orb andb]. now destruct (JS.has_field rest k).
      * reflexivity.
    + destruct (IH diff) as (D & HD & Hl).
      exists D. split; [exact HD|]. intros f. rewrite Hl. cbv zeta.
      cbn [JS.has_field].
      destruct (String.eqb k f) eqn:E; [|reflexivity].
      apply String.eqb_eq in E. subst f. fold out. rewrite T.
      now rewrite !andb_false_r.
Qed.

(** The default algorithm finds no change between two equal values that
    are not compared by [deepDiff]. *)
Lemma defaultDiffAlgo_equal f v :
  JS.typeof_object v = false \/ JS.is_date v = true ->
  defaultDiffAlgo deepDiff f v v = VNull.
Proof.
  intros Hv. unfold defaultDiffAlgo.
  destruct (String.eqb f "updatedAt"); [reflexivity|].
  destruct v; simpl in *; try reflexivity;
    try (destruct Hv; discriminate).
  - now destruct b.
  - destruct (n =? 0); simpl; [|]; now rewrite Z.eqb_refl.
  - destruct (String.eqb s EmptyString); simpl; now rewrite String.eqb_refl.
  - now rewrite Z.eqb_refl.
Qed.

(** A field the new document does not have is not visited by the loop:
    whatever the original holds for it, the diff has no entry for it. *)
Lemma diffFields_absent newDoc originalDoc f :
  originalDoc <> VUndefined -> originalDoc <> VNull ->
  JS.has_field newDoc f = false ->
  f <> "_id" ->
  exists D,
    diffFields deepDiff opts newDoc originalDoc newDoc
      [("_id", JS.lookup_field newDoc "_id")] = Ok D
    /\ JS.lookup_field D f = VUndefined.
Proof.
  intros Hu Hn Hf Hid.
  destruct (diffFields_lookup newDoc originalDoc newDoc Hu Hn
              [("_id", JS.lookup_field newDoc "_id")]) as (D & HD & Hl).
  exists D. split; [exact HD|]. rewrite Hl. cbv zeta. rewrite Hf.
  cbn [andb JS.lookup_field].
  destruct (String.eqb_spec "_id" f); [congruence|reflexivity].
Qed.

(** A field the new document still has, with a falsy value where the
    original has a truthy one, is marked with [null] by the default
    algorithm (the field [updatedAt] apart). *)
Lemma diffFields_marks_falsy newDoc originalDoc f :
  customDiffAlgo opts = None ->
  originalDoc <> VUndefined -> originalDoc <> VNull ->
  JS.has_field newDoc f = true ->
  f <> "updatedAt" ->
  JS.truthy (JS.get originalDoc f) = true ->
  JS.truthy (JS.lookup_field newDoc f) = false ->
  exists D,
    diffFields deepDiff opts newDoc originalDoc newDoc
      [("_id", JS.lookup_field newDoc "_id")] = Ok D
    /\ JS.lookup_field D f = VNull.
Proof.
  intros Hcustom Hu Hn Hf Hup Horig Hnew.
  destruct (diffFields_lookup newDoc originalDoc newDoc Hu Hn
              [("_id", JS.lookup_field newDoc "_id")]) as (D & HD & Hl).
  exists D. split; [exact HD|]. rewrite Hl. cbv zeta. rewrite Hf.
  unfold diffAlgo, defaultDiffAlgo. rewrite Hcustom.
  apply String.eqb_neq in Hup. rewrite Hup, Horig, Hnew. reflexivity.
Qed.

End diff.

(** C2 (as amended).  For an update in diff-only mode whose snapshot is an
    object (a field of the new document whose name every object inherits,
    such as [constructor], being a field of the snapshot too), the [diff] of
    the history document is the sanitized form, with [__v] set to
    [undefined], of a mapping [D] that the loop of [_saveHistory] builds.
    [D] maps every field of the new document whose diff (the result of the
    diff algorithm on the new and the original value) is truthy to that diff,
    the string ['null'] being replaced by [null]; it has no entry for a
    field other than [_id] that the new document does not have, or whose
    diff is absent ([null] or [undefined]); it holds the [_id] of the new
    document under [_id] unless the diff of [_id] is truthy; and, with the
    default algorithm, it has no entry for a field other than [_id] that
    both documents have with the same value, when that value is a date or a
    primitive other than [null]. *)
Theorem diff_only_update_diff deepDiff opts doc original w :
  diffOnly opts = true ->
  isNew doc = false ->
  _original doc = VObj original ->
  (forall f, JS.has_field (toObject doc) f = true ->
             JS.reads_own original f = true) ->
  thrown (pre_save deepDiff opts doc w) = None ->
  exists D sD,
    diffFields deepDiff opts (toObject doc) (VObj original) (toObject doc)
      [("_id", JS.lookup_field (toObject doc) "_id")] = Ok D
    /\ sanitizeObj (VObj D) = Ok sD
    /\ historyDoc_after (pre_save deepDiff opts doc w) !! "op"
       = Some (HVal (VStr "u"))
    /\ historyDoc_after (pre_save deepDiff opts doc w) !! "diff"
       = Some (HVal (JS.put sD "__v" VUndefined))
    /\ (forall f,
          JS.has_field (toObject doc) f = true ->
          let out :=
            diffAlgo deepDiff opts f (JS.lookup_field (toObject doc) f)
              (JS.lookup_field original f) in
          JS.truthy out = true ->
          JS.lookup_field D f =
            (if JS.strict_eq out (VStr "null") then VNull else out))
    /\ (forall f,
          f <> "_id" ->
          let out :=
            diffAlgo deepDiff opts f (JS.lookup_field (toObject doc) f)
              (JS.lookup_field original f) in
          JS.has_field (toObject doc) f = false
          \/ out = VNull \/ out = VUndefined ->
          JS.lookup_field D f = VUndefined)
    /\ (JS.truthy
          (diffAlgo deepDiff opts "_id" (JS.lookup_field (toObject doc) "_id")
             (JS.lookup_field original "_id")) = false ->
        JS.lookup_field D "_id" = JS.lookup_field (toObject doc) "_id")
    /\ (customDiffAlgo opts = None ->
        forall f v,
          f <> "_id" ->
          JS.has_field original f = true ->
          JS.lookup_field (toObject doc) f = v ->
          JS.lookup_field original f = v ->
          JS.typeof_object v = false \/ JS.is_date v = true ->
          JS.lookup_field D f = VUndefined).
Proof.
  intros Hdiff Hnew Horig _ Hthrown.
  destruct (diffFields_lookup deepDiff opts (toObject doc) (VObj original)
              (toObject doc))
    with (diff := [("_id", JS.lookup_field (toObject doc) "_id")])
    as (D & HD & Hl); try discriminate.
  cbn [JS.get] in Hl.
  unfold pre_save, _saveHistory in *.
  rewrite Hdiff, Hnew, Horig in *. cbn [andb negb] in *. rewrite HD in *.
  destruct (createHistoryDoc opts (VObj original) (VObj D) "u"
              (collection_name doc) None w) as [[h w']|e] eqn:Hc;
    [|discriminate].
  destruct (createHistoryDoc_fields opts _ _ _ _ _ _ _ _ Hc)
    as (sdoc & sdiff & doc' & diff' & _ & Hf & _ & Haf & _ & Hfd & Hop & _).
  cbn [JS.or_else JS.truthy] in Hf.
  assert (Hinit : forall f, f <> "_id" ->
            JS.lookup_field [("_id", JS.lookup_field (toObject doc) "_id")] f
            = VUndefined).
  { intros f Hf'. cbn [JS.lookup_field].
    destruct (String.eqb_spec "_id" f); congruence. }
  exists D, sdiff. split; [reflexivity|]. split; [exact Hf|].
  split; [|split; [|split; [|split; [|split]]]].
  - rewrite saveHistoryModel_frame by discriminate. exact Hop.
  - rewrite saveHistoryModel_frame by discriminate. rewrite Hfd.
    destruct sdiff; simpl in Haf; try discriminate;
      injection Haf as <-; reflexivity.
  - intros f Hhas. cbv zeta. intros Hout. rewrite Hl. cbv zeta.
    now rewrite Hhas, Hout.
  - intros f Hf'. cbv zeta. intros Hcase. rewrite Hl. cbv zeta.
    destruct Hcase as [-> | [-> | ->]]; cbn [andb JS.truthy];
      rewrite ?andb_false_r; now apply Hinit.
  - intros Hout. rewrite Hl. cbv zeta. rewrite Hout, andb_false_r.
    reflexivity.
  - intros Hcustom f v Hf' _ Hnewv Horigv Hv.
    rewrite Hl. cbv zeta. unfold diffAlgo. rewrite Hcustom, Hnewv, Horigv.
    rewrite (defaultDiffAlgo_equal deepDiff f v Hv).
    cbn [JS.truthy]. rewrite andb_false_r. now apply Hinit.
Qed.

Lemma diff_only_update_diff_witness :
  let doc := Sample.post_retitled in
  let original :=
    [("_id", VStr "abc"); ("title", VStr "A"); ("message", VStr "M")] in
  let r := pre_save Sample.deepDiff Sample.diff_only doc Sample.empty_world in
  exists D sD,
    diffFields Sample.deepDiff Sample.diff_only (toObject doc) (VObj original)
      (toObject doc) [("_id", JS.lookup_field (toObject doc) "_id")] = Ok D
    /\ sanitizeObj (VObj D) = Ok sD
    /\ historyDoc_after r !! "op" = Some (HVal (VStr "u"))
    /\ historyDoc_after r !! "diff" = Some (HVal (JS.put sD "__v" VUndefined))
    /\ (forall f,
          JS.has_field (toObject doc) f = true ->
          let out :=
            diffAlgo Sample.deepDiff Sample.diff_only f
              (JS.lookup_field (toObject doc) f) (JS.lookup_field original f) in
          JS.truthy out = true ->
          JS.lookup_field D f =
            (if JS.strict_eq out (VStr "null") then VNull else out))
    /\ (forall f,
          f <> "_id" ->
          let out :=
            diffAlgo Sample.deepDiff Sample.diff_only f
              (JS.lookup_field (toObject doc) f) (JS.lookup_field original f) in
          JS.has_field (toObject doc) f = false
          \/ out = VNull \/ out = VUndefined ->
          JS.lookup_field D f = VUndefined)
    /\ (JS.truthy
          (diffAlgo Sample.deepDiff Sample.diff_only "_id"
             (JS.lookup_field (toObject doc) "_id")
             (JS.lookup_field original "_id")) = false ->
        JS.lookup_field D "_id" = JS.lookup_field (toObject doc) "_id")
    /\ (customDiffAlgo Sample.diff_only = None ->
        forall f v,
          f <> "_id" ->
          JS.has_field original f = true ->
          JS.lookup_field (toObject doc) f = v ->
          JS.lookup_field original f = v ->
          JS.typeof_object v = false \/ JS.is_date v = true ->
          JS.lookup_field D f = VUndefined).
Proof.
  apply (diff_only_update_diff Sample.deepDiff Sample.diff_only
           Sample.post_retitled
           [("_id", VStr "abc"); ("title", VStr "A"); ("message", VStr "M")]
           Sample.empty_world).
  - reflexivity.
  - reflexivity.
  - reflexivity.
  - intros f Hf. unfold JS.reads_own.
    assert (Hsame : JS.has_field
                      [("_id", VStr "abc"); ("title", VStr "A");
                       ("message", VStr "M")] f = true).
    { cbn [JS.has_field Sample.post_retitled Sample.loaded_post toObject] in *.
      exact Hf. }
    now rewrite Hsame.
  - vm_compute. reflexivity.
Defined.

(** The update of the specification's scenario: the title goes from ['A'] to
    ['B'], the message stays. *)
Example retitled_post_diff :
  historyDoc_after
    (pre_save Sample.deepDiff Sample.diff_only Sample.post_retitled
       Sample.empty_world) !! "diff"
  = Some (HVal (VObj [("_id", VStr "abc"); ("title", VStr "B");
                      ("__v", VUndefined)])).
Proof. vm_compute. reflexivity. Qed.

(** C2, counterexample.  In a diff-only update a price goes from ['$5'] to
    ['$7'], a counter is added with the value [0] and a flag goes from [null]
    to [false].  The diff algorithm gives ['$7'], [0] and [false] for them;
    the [diff] of the history document maps the price to ['7'] and has
    neither the counter nor the flag. *)
Lemma diff_only_update_drops_falsy_diffs :
  let doc := Sample.post_with_small_changes in
  let r := pre_save Sample.deepDiff Sample.diff_only doc Sample.empty_world in
  let out f :=
    diffAlgo Sample.deepDiff Sample.diff_only f
      (JS.lookup_field (toObject doc) f) (JS.get (_original doc) f) in
  diffOnly Sample.diff_only = true
  /\ isNew doc = false
  /\ thrown r = None
  /\ out "price" = VStr "$7"
  /\ out "count" = VNum 0
  /\ out "done" = VBool false
  /\ historyDoc_after r !! "diff"
     = Some (HVal (VObj [("_id", VStr "abc"); ("price", VStr "7");
                         ("__v", VUndefined)])).
Proof. vm_compute. repeat split. Qed.

(** C7, at the failing input.  The title of a loaded post is deleted, so
    that [toObject()] has no [title].  The loop over the keys of the new
    document never meets [title]: the [diff] of the history document has no
    entry for it and is the very [diff] of a save that changed nothing. *)
Theorem deleted_field_leaves_no_marker :
  let r :=
    pre_save Sample.deepDiff Sample.diff_only Sample.post_without_title
      Sample.empty_world in
  let unchanged :=
    pre_save Sample.deepDiff Sample.diff_only Sample.post_unchanged
      Sample.empty_world in
  JS.get (_original Sample.post_without_title) "title" = VStr "A"
  /\ JS.has_field (toObject Sample.post_without_title) "title" = false
  /\ thrown r = None
  /\ historyDoc_after r !! "diff"
     = Some (HVal (VObj [("_id", VStr "abc"); ("__v", VUndefined)]))
  /\ historyDoc_after unchanged !! "diff" = historyDoc_after r !! "diff".
Proof. vm_compute. repeat split. Qed.

(** A field that the new document still has, with a falsy value, is marked:
    its diff is the string ['null'], which the loop replaces by [null]. *)
Lemma nulled_field_is_marked :
  let r :=
    pre_save Sample.deepDiff Sample.diff_only Sample.post_with_null_title
      Sample.empty_world in
  thrown r = None
  /\ historyDoc_after r !! "diff"
     = Some (HVal (VObj [("_id", VStr "abc"); ("title", VNull);
                         ("__v", VUndefined)])).
Proof. vm_compute. repeat split. Qed.

(** ** JSON texts read back *)

#[local] Arguments String.append !s1 s2.

Section strings.

Lemma append_assoc (a b c : string) : (a +++ b) +++ c = a +++ (b +++ c).
Proof. induction a as [|x a IH]; simpl; [reflexivity | now rewrite IH]. Qed.

Lemma append_empty_r (a : string) : a +++ EmptyString = a.
Proof. induction a as [|x a IH]; simpl; [reflexivity | now rewrite IH]. Qed.

Lemma length_append (a b : string) :
  String.length (a +++ b) = (String.length a + String.length b)%nat.
Proof. induction a as [|x a IH]; simpl; [reflexivity | now rewrite IH]. Qed.

(** One escaped character is read back as the character. *)
Lemma parse_chars_escape_char c rest :
  JSON.parse_chars (JSON.escape_char c +++ rest)
  = JSON.cons_char c (JSON.parse_chars rest).
Proof.
  destruct c as [[] [] [] [] [] [] [] []]; reflexivity.
Qed.

(** A string literal is read back as the string. *)
Lemma parse_chars_escape s rest :
  JSON.parse_chars (JSON.escape s +++ String JSON.dquote rest) = Some (s, rest).
Proof.
  induction s as [|c s IH]; [reflexivity|].
  cbn [JSON.escape]. rewrite append_assoc, parse_chars_escape_char, IH.
  reflexivity.
Qed.

Lemma parse_chars_quote s rest :
  JSON.parse_chars (JSON.escape s +++ JSON.str1 JSON.dquote +++ rest)
  = Some (s, rest).
Proof. apply parse_chars_escape. Qed.

End strings.

Section numbers.

Lemma span_digits_uint d rest :
  JSON.head_is_digit rest = false ->
  JSON.span_digits (NilEmpty.string_of_uint d +++ rest)
  = (NilEmpty.string_of_uint d, rest).
Proof.
  intros Hrest. induction d; simpl; try (rewrite IHd; reflexivity).
  destruct rest as [|c rest]; simpl in *; [reflexivity|]. now rewrite Hrest.
Qed.

(** The digits of a number start with a digit. *)
Lemma string_of_uint_head d :
  d <> Decimal.Nil ->
  exists c s,
    NilZero.string_of_uint d = String c s
    /\ NilEmpty.string_of_uint d = String c s
    /\ JSON.is_digit c = true.
Proof.
  destruct d; intros Hd; try contradiction; simpl; eexists _, _;
    (split; [reflexivity | split; reflexivity]).
Qed.

Lemma is_digit_not c x :
  JSON.is_digit c = true -> JSON.is_digit x = false -> Ascii.eqb c x = false.
Proof.
  intros Hc Hx. destruct (Ascii.eqb_spec c x) as [->|]; [congruence|reflexivity].
Qed.

Lemma parse_number_uint d rest :
  d <> Decimal.Nil ->
  JSON.head_is_digit rest = false ->
  JSON.parse_number (NilZero.string_of_uint d +++ rest)
  = Some (VNum (Z.of_uint d), rest).
Proof.
  intros Hd Hrest.
  destruct (string_of_uint_head d Hd) as (c & s & Hz & He & Hc).
  unfold JSON.parse_number. rewrite Hz. cbn [String.append].
  rewrite (is_digit_not c "-" Hc eq_refl).
  change (String c (s +++ rest)) with (String c s +++ rest).
  rewrite <- He, span_digits_uint by assumption. rewrite He.
  rewrite <- Hz, NilZero.usu by assumption. reflexivity.
Qed.

Lemma parse_number_neg d rest :
  d <> Decimal.Nil ->
  JSON.head_is_digit rest = false ->
  JSON.parse_number (String "-" (NilZero.string_of_uint d) +++ rest)
  = Some (VNum (- Z.of_uint d), rest).
Proof.
  intros Hd Hrest.
  destruct (string_of_uint_head d Hd) as (c & s & Hz & He & Hc).
  unfold JSON.parse_number. cbn [String.append Ascii.eqb Bool.eqb].
  rewrite Hz.
  change (String c s +++ rest) with (String c s +++ rest).
  rewrite <- He, span_digits_uint by assumption. rewrite He.
  rewrite <- Hz, NilZero.usu by assumption. reflexivity.
Qed.

(** The text of a number starts with a digit or a minus sign. *)
Lemma string_of_Z_head n :
  exists c s,
    JSON.string_of_Z n = String c s
    /\ (Ascii.eqb c "-" || JSON.is_digit c) = true.
Proof.
  unfold JSON.string_of_Z. destruct n as [|p|p]; simpl.
  - eexists _, _. split; reflexivity.
  - destruct (string_of_uint_head (Pos.to_uint p)
                (DecimalPos.Unsigned.to_uint_nonnil p)) as (c & s & Hz & _ & Hc).
    exists c, s. split; [exact Hz|]. rewrite Hc. apply orb_true_r.
  - eexists _, _. split; reflexivity.
Qed.

(** The text of a number is read back as the number. *)
Lemma parse_number_string_of_Z n rest :
  JSON.head_is_digit rest = false ->
  JSON.parse_number (JSON.string_of_Z n +++ rest) = Some (VNum n, rest).
Proof.
  intros Hrest. rewrite <- (DecimalZ.of_to n) at 2.
  unfold JSON.string_of_Z.
  destruct n as [|p|p]; cbn [Z.to_int Z.of_int NilZero.string_of_int].
  - apply parse_number_uint; [discriminate|exact Hrest].
  - apply parse_number_uint; [apply DecimalPos.Unsigned.to_uint_nonnil|exact Hrest].
  - apply parse_number_neg; [apply DecimalPos.Unsigned.to_uint_nonnil|exact Hrest].
Qed.

End numbers.

Section roundtrip.

Lemma text_arr items :
  JSON.text (VArr items) = "[" +++ JSON.join "," (map JSON.text items) +++ "]".
Proof. reflexivity. Qed.

Lemma text_obj fields :
  Forall (fun kv => json_normal (snd kv)) fields ->
  JSON.text (VObj fields)
  = "{" +++ JSON.join ","
              (map (fun kv => JSON.quote (fst kv) +++ ":" +++ JSON.text (snd kv))
                 fields) +++ "}".
Proof.
  intros Hn. cbn [JSON.text].
  match goal with
  | |- _ +++ JSON.join _ ?m +++ _ = _ +++ JSON.join _ ?m' +++ _ =>
      replace m with m'; [reflexivity|]
  end.
  induction Hn as [|[k x] rest Hx _ IH]; [reflexivity|].
  cbn [map fst snd]. rewrite IH. simpl in Hx. now destruct Hx.
Qed.

(** The text of a value starts with a character that is neither a closing
    bracket nor a closing brace. *)
Lemma text_head v :
  json_normal v ->
  exists c s,
    JSON.text v = String c s
    /\ Ascii.eqb c "]" = false /\ Ascii.eqb c "}" = false.
Proof.
  intros Hn. destruct Hn as [|b|n|s|fields|items].
  - eexists _, _. repeat split.
  - destruct b; eexists _, _; repeat split.
  - destruct (string_of_Z_head n) as (c & s & Hs & Hc).
    exists c, s. split; [exact Hs|].
    split.
    + destruct (Ascii.eqb_spec c "]") as [E|]; [subst c; discriminate Hc|reflexivity].
    + destruct (Ascii.eqb_spec c "}") as [E|]; [subst c; discriminate Hc|reflexivity].
  - eexists _, _. repeat split.
  - eexists _, _. repeat split.
  - eexists _, _. repeat split.
Qed.

Lemma number_head c :
  (Ascii.eqb c "-" || JSON.is_digit c) = true ->
  Ascii.eqb c "[" = false /\ Ascii.eqb c "{" = false
  /\ Ascii.eqb c JSON.dquote = false.
Proof.
  intros Hc. repeat split.
  - destruct (Ascii.eqb_spec c "[") as [E|]; [subst c; discriminate Hc|reflexivity].
  - destruct (Ascii.eqb_spec c "{") as [E|]; [subst c; discriminate Hc|reflexivity].
  - destruct (Ascii.eqb_spec c JSON.dquote) as [E|];
      [subst c; discriminate Hc|reflexivity].
Qed.

(** Building an object from members with distinct keys gives the members. *)
Lemma assign_field_fresh acc k v :
  ~ In k (map fst acc) -> JS.assign_field acc k v = acc ++ [(k, v)].
Proof.
  induction acc as [|[k0 v0] rest IH]; simpl; intros Hk; [reflexivity|].
  destruct (String.eqb_spec k0 k) as [->|]; [tauto|].
  rewrite IH by tauto. reflexivity.
Qed.

Lemma build_object_distinct members : forall acc,
  NoDup (map fst (acc ++ members)) ->
  JSON.build_object acc members = acc ++ members.
Proof.
  induction members as [|[k v] rest IH]; intros acc Hnd; simpl.
  - now rewrite app_nil_r.
  - rewrite assign_field_fresh.
    + rewrite IH; rewrite <- app_assoc; [reflexivity | exact Hnd].
    + rewrite map_app in Hnd. apply NoDup_app in Hnd as (_ & Hdisj & _).
      intros Hin. apply list_elem_of_In in Hin.
      apply (Hdisj k Hin). simpl. constructor.
Qed.

Lemma vsize_arr_cons x xs :
  vsize (VArr (x :: xs)) = S (vsize x + vsize (VArr xs)).
Proof. simpl. lia. Qed.

Lemma vsize_obj_cons kv fields :
  vsize (VObj (kv :: fields)) = S (vsize (snd kv) + vsize (VObj fields)).
Proof. simpl. lia. Qed.

Lemma parse_elements_text items :
  items <> [] ->
  Forall reads_back items ->
  forall f rest,
    (vsize (VArr items) <= S f)%nat ->
    JSON.head_is_digit rest = false ->
    JSON.parse_elements f
      (JSON.join "," (map JSON.text items) +++ String "]" rest)
    = Some (items, rest).
Proof.
  induction items as [|x xs IH]; [contradiction|].
  intros _ Hall f rest Hsize Hrest.
  apply Forall_cons in Hall as [Hx Hxs].
  rewrite vsize_arr_cons in Hsize.
  destruct f as [|f]; [simpl in Hsize; lia|].
  cbn [JSON.parse_elements].
  destruct xs as [|y more].
  - cbn [map JSON.join String.append].
    rewrite (Hx f (String "]" rest)) by (simpl in *; lia || reflexivity).
    reflexivity.
  - change (JSON.join "," (map JSON.text (x :: y :: more)))
      with (JSON.text x +++ "," +++ JSON.join "," (map JSON.text (y :: more))).
    rewrite !append_assoc. cbn [String.append].
    rewrite (Hx f) by (simpl in *; lia || reflexivity).
    rewrite IH; try assumption; try discriminate.
    + reflexivity.
    + lia.
Qed.

Lemma parse_members_text fields :
  fields <> [] ->
  Forall (fun kv => reads_back (snd kv)) fields ->
  forall f rest,
    (vsize (VObj fields) <= S f)%nat ->
    JSON.head_is_digit rest = false ->
    JSON.parse_members f
      (JSON.join ","
         (map (fun kv => JSON.quote (fst kv) +++ ":" +++ JSON.text (snd kv))
            fields) +++ String "}" rest)
    = Some (fields, rest).
Proof.
  induction fields as [|[k x] more IH]; [contradiction|].
  intros _ Hall f rest Hsize Hrest.
  apply Forall_cons in Hall as [Hx Hmore]. cbn [snd] in Hx.
  rewrite vsize_obj_cons in Hsize. cbn [snd] in Hsize.
  destruct f as [|f]; [simpl in Hsize; lia|].
  cbn [JSON.parse_members].
  destruct more as [|kv more].
  - cbn [map JSON.join fst snd]. unfold JSON.quote, JSON.str1.
    cbn [String.append]. rewrite !append_assoc. cbn [String.append].
    rewrite Ascii.eqb_refl, parse_chars_escape.
    rewrite (Hx f (String "}" rest)) by (simpl in *; lia || reflexivity).
    reflexivity.
  - change (JSON.join ","
              (map (fun kv0 => JSON.quote (fst kv0) +++ ":" +++ JSON.text (snd kv0))
                 ((k, x) :: kv :: more)))
      with ((JSON.quote k +++ ":" +++ JSON.text x) +++ "," +++
            JSON.join ","
              (map (fun kv0 => JSON.quote (fst kv0) +++ ":" +++ JSON.text (snd kv0))
                 (kv :: more))).
    unfold JSON.quote at 1. unfold JSON.str1.
    cbn [String.append]. rewrite !append_assoc. cbn [String.append].
    rewrite Ascii.eqb_refl, parse_chars_escape.
    rewrite (Hx f) by (simpl in *; lia || reflexivity).
    rewrite IH; try assumption; try discriminate.
    + reflexivity.
    + lia.
Qed.

(** The text of a value [JSON.parse] can give is read back as the value. *)
Lemma text_reads_back v : json_normal v -> reads_back v.
Proof.
  induction v as [| |b|n|s|t|fields IH|items IH] using val_induction;
    intros Hn;
    try (inversion Hn; fail); intros fuel rest Hsize Hrest;
    (destruct fuel as [|f]; [simpl in Hsize; lia|]).
  - reflexivity.
  - destruct b; reflexivity.
  - destruct (string_of_Z_head n) as (c & s & Hs & Hc).
    destruct (number_head c Hc) as (H1 & H2 & H3).
    cbn [JSON.text JSON.parse_value]. rewrite Hs. cbn [String.append].
    rewrite H1, H2, H3, Hc.
    change (String c (s +++ rest)) with (String c s +++ rest).
    rewrite <- Hs. now apply parse_number_string_of_Z.
  - cbn [JSON.text JSON.parse_value]. unfold JSON.quote, JSON.str1.
    cbn [String.append]. rewrite append_assoc. cbn [String.append].
    rewrite Ascii.eqb_refl.
    change (Ascii.eqb JSON.dquote "[") with false.
    change (Ascii.eqb JSON.dquote "{") with false.
    cbv iota. now rewrite parse_chars_escape.
  - inversion Hn as [| | | |fields' Hvals Hkeys|]; subst fields'.
    rewrite (text_obj fields Hvals).
    destruct fields as [|kv more]; [reflexivity|].
    assert (Hall : Forall (fun kv0 => reads_back (snd kv0)) (kv :: more)).
    { clear - IH Hvals. induction IH as [|kv0 l Hkv0 _ IHl]; [constructor|].
      apply Forall_cons in Hvals as [Hv Hl].
      constructor; [now apply Hkv0 | now apply IHl]. }
    destruct (text_head (snd kv)) as (c & s' & Hhead & _ & Hc).
    { now apply Forall_cons in Hvals as [Hv _]. }
    cbn [JSON.parse_value]. cbn [String.append].
    rewrite !append_assoc. cbn [String.append].
    rewrite (parse_members_text (kv :: more)) by (assumption || discriminate).
    rewrite build_object_distinct by exact Hkeys.
    destruct kv as [k x]. cbn [map JSON.join fst snd].
    destruct more; unfold JSON.quote; cbn [String.append];
      change (Ascii.eqb JSON.dquote "}") with false; reflexivity.
  - inversion Hn as [| | | | |items' Hvals]; subst items'.
    rewrite text_arr.
    destruct items as [|x more]; [reflexivity|].
    assert (Hall : Forall reads_back (x :: more)).
    { clear - IH Hvals. induction IH as [|x0 l Hx0 _ IHl]; [constructor|].
      apply Forall_cons in Hvals as [Hv Hl].
      constructor; [now apply Hx0 | now apply IHl]. }
    destruct (text_head x) as (c & s' & Hhead & Hc & _).
    { now apply Forall_cons in Hvals as [Hv _]. }
    cbn [JSON.parse_value]. cbn [String.append].
    rewrite !append_assoc. cbn [String.append].
    rewrite (parse_elements_text (x :: more)) by (assumption || discriminate).
    cbn [map JSON.join].
    destruct more; cbn [map]; rewrite Hhead; cbn [String.append];
      rewrite Hc; reflexivity.
Qed.

End roundtrip.

Section parsed.

Lemma assign_field_keys acc k v :
  NoDup (map fst acc) -> NoDup (map fst (JS.assign_field acc k v)).
Proof.
  intros Hnd. destruct (in_dec String.string_dec k (map fst acc)) as [Hin|Hout].
  - replace (map fst (JS.assign_field acc k v)) with (map fst acc); [exact Hnd|].
    clear Hnd. induction acc as [|[k0 v0] rest IH]; simpl in *; [contradiction|].
    destruct (String.eqb_spec k0 k) as [->|Hne]; simpl; [reflexivity|].
    rewrite <- IH; [reflexivity|]. destruct Hin; [contradiction|assumption].
  - rewrite assign_field_fresh by exact Hout. rewrite map_app. simpl.
    apply NoDup_app. split; [exact Hnd|]. split.
    + intros x Hx Hk. apply list_elem_of_In in Hx. apply Hout.
      apply list_elem_of_In in Hk. simpl in Hk. destruct Hk as [<-|[]]. exact Hx.
    + apply NoDup_singleton.
Qed.

Lemma assign_field_normal acc k v :
  Forall (fun kv => json_normal (snd kv)) acc -> json_normal v ->
  Forall (fun kv => json_normal (snd kv)) (JS.assign_field acc k v).
Proof.
  intros Hacc Hv. induction Hacc as [|[k0 v0] rest H0 Hrest IH]; simpl.
  - now repeat constructor.
  - destruct (String.eqb k0 k); constructor; simpl in *; assumption.
Qed.

Lemma build_object_normal members : forall acc,
  Forall (fun kv => json_normal (snd kv)) members ->
  Forall (fun kv => json_normal (snd kv)) acc ->
  NoDup (map fst acc) ->
  json_normal (VObj (JSON.build_object acc members)).
Proof.
  induction members as [|[k v] rest IH]; intros acc Hm Hacc Hnd; simpl.
  - now constructor.
  - apply Forall_cons in Hm as [Hv Hrest]. apply IH; [exact Hrest| |].
    + now apply assign_field_normal.
    + now apply assign_field_keys.
Qed.

Lemma parse_number_normal s v r :
  JSON.parse_number s = Some (v, r) -> json_normal v.
Proof.
  unfold JSON.parse_number.
  destruct (match s with
            | EmptyString => (false, s)
            | String c r0 => if Ascii.eqb c "-" then (true, r0) else (false, s)
            end) as [neg body].
  destruct (JSON.span_digits body) as [ds rest].
  destruct ds; [discriminate|].
  destruct (NilZero.uint_of_string _); [|discriminate].
  intros [= <- _]. constructor.
Qed.

Lemma parse_keyword_normal s v r :
  JSON.parse_keyword s = Some (v, r) -> json_normal v.
Proof.
  unfold JSON.parse_keyword.
  destruct (JSON.strip_prefix "null" s); [intros [= <- _]; constructor|].
  destruct (JSON.strip_prefix "true" s); [intros [= <- _]; constructor|].
  destruct (JSON.strip_prefix "false" s); [intros [= <- _]; constructor|].
  discriminate.
Qed.

(** Whatever the parser returns is a value [JSON.parse] can give. *)
Lemma parse_value_normal fuel :
  (forall s v r, JSON.parse_value fuel s = Some (v, r) -> json_normal v)
  /\ (forall s vs r,
        JSON.parse_elements fuel s = Some (vs, r) -> Forall json_normal vs)
  /\ (forall s ms r,
        JSON.parse_members fuel s = Some (ms, r) ->
        Forall (fun kv => json_normal (snd kv)) ms).
Proof.
  induction fuel as [|f (IHv & IHe & IHm)];
    [repeat split; intros; discriminate|].
  repeat split.
  - intros s v r. cbn [JSON.parse_value].
    destruct s as [|c s]; [discriminate|].
    destruct (Ascii.eqb c "[").
    { destruct s as [|c' s']; [discriminate|].
      destruct (Ascii.eqb c' "]"); [intros [= <- _]; now repeat constructor|].
      destruct (JSON.parse_elements f _) as [[vs r']|] eqn:E; [|discriminate].
      intros [= <- _]. constructor. exact (IHe _ _ _ E). }
    destruct (Ascii.eqb c "{").
    { destruct s as [|c' s']; [discriminate|].
      destruct (Ascii.eqb c' "}"); [intros [= <- _]; now repeat constructor|].
      destruct (JSON.parse_members f _) as [[ms r']|] eqn:E; [|discriminate].
      intros [= <- _]. apply build_object_normal;
        [exact (IHm _ _ _ E) | constructor | constructor]. }
    destruct (Ascii.eqb c JSON.dquote).
    { destruct (JSON.parse_chars s) as [[str r']|]; [|discriminate].
      intros [= <- _]. constructor. }
    destruct (Ascii.eqb c "-" || JSON.is_digit c).
    { apply parse_number_normal. }
    apply parse_keyword_normal.
  - intros s vs r. cbn [JSON.parse_elements].
    destruct (JSON.parse_value f s) as [[v [|c r0]]|] eqn:E; try discriminate.
    destruct (Ascii.eqb_spec c ","%char) as [->|Hc].
    + destruct (JSON.parse_elements f r0) as [[vs' r']|] eqn:E'; [|discriminate].
      intros [= <- _]. constructor; [exact (IHv _ _ _ E) | exact (IHe _ _ _ E')].
    + destruct (Ascii.eqb_spec c "]"%char) as [->|Hc'].
      * intros [= <- _]. constructor; [exact (IHv _ _ _ E) | constructor].
      * intros H. exfalso. revert H.
        destruct c as [[] [] [] [] [] [] [] []]; try discriminate;
          contradiction.
  - intros s ms r. cbn [JSON.parse_members].
    destruct s as [|c s]; [discriminate|].
    destruct (Ascii.eqb c JSON.dquote); [|discriminate].
    destruct (JSON.parse_chars s) as [[k [|c1 r1]]|]; try discriminate.
    destruct (Ascii.eqb_spec c1 ":"%char) as [->|Hc1].
    + destruct (JSON.parse_value f r1) as [[v [|c2 r2]]|] eqn:E; try discriminate.
      destruct (Ascii.eqb_spec c2 ","%char) as [->|Hc2].
      * destruct (JSON.parse_members f r2) as [[ms' r3]|] eqn:E'; [|discriminate].
        intros [= <- _]. constructor; [exact (IHv _ _ _ E) | exact (IHm _ _ _ E')].
      * destruct (Ascii.eqb_spec c2 "}"%char) as [->|Hc2'].
        -- intros [= <- _]. constructor; [exact (IHv _ _ _ E) | constructor].
        -- intros H. exfalso. revert H.
           destruct c2 as [[] [] [] [] [] [] [] []]; try discriminate;
             contradiction.
    + intros H. exfalso. revert H.
      destruct c1 as [[] [] [] [] [] [] [] []]; try discriminate; contradiction.
Qed.

End parsed.

Section idempotence.

Lemma length_join_arr items :
  Forall (fun x => (vsize x <= String.length (JSON.text x))%nat) items ->
  (vsize (VArr items)
   <= 2 + String.length (JSON.join "," (map JSON.text items)))%nat.
Proof.
  induction 1 as [|x xs Hx _ IH]; [simpl; lia|].
  rewrite vsize_arr_cons. destruct xs as [|y more].
  - simpl in *. lia.
  - change (JSON.join "," (map JSON.text (x :: y :: more)))
      with (JSON.text x +++ "," +++ JSON.join "," (map JSON.text (y :: more))).
    rewrite !length_append. change (String.length ",") with 1%nat. lia.
Qed.

Lemma length_join_obj fields :
  Forall (fun kv => (vsize (snd kv) <= String.length (JSON.text (snd kv)))%nat)
    fields ->
  (vsize (VObj fields)
   <= 2 + String.length
          (JSON.join ","
             (map (fun kv => JSON.quote (fst kv) +++ ":" +++ JSON.text (snd kv))
                fields)))%nat.
Proof.
  induction 1 as [|kv more Hkv _ IH]; [simpl; lia|].
  rewrite vsize_obj_cons. destruct more as [|kv' more].
  - cbn [map JSON.join]. rewrite !length_append. simpl vsize. lia.
  - change (JSON.join ","
              (map (fun kv0 => JSON.quote (fst kv0) +++ ":" +++ JSON.text (snd kv0))
                 (kv :: kv' :: more)))
      with ((JSON.quote (fst kv) +++ ":" +++ JSON.text (snd kv)) +++ "," +++
            JSON.join ","
              (map (fun kv0 => JSON.quote (fst kv0) +++ ":" +++ JSON.text (snd kv0))
                 (kv' :: more))).
    rewrite !length_append. change (String.length ",") with 1%nat. lia.
Qed.

(** The text of a value has at least as many characters as the value has
    nodes: the fuel [JSON.parse] gives the parser is enough. *)
Lemma vsize_le_text v :
  json_normal v -> (vsize v <= String.length (JSON.text v))%nat.
Proof.
  induction v as [| |b|n|s|t|fields IH|items IH] using val_induction;
    intros Hn; try (inversion Hn; fail).
  - simpl. lia.
  - destruct b; simpl; lia.
  - destruct (string_of_Z_head n) as (c & s & Hs & _).
    cbn [JSON.text vsize]. rewrite Hs. simpl. lia.
  - simpl. lia.
  - inversion Hn as [| | | |fields' Hvals Hkeys|]; subst fields'.
    rewrite (text_obj fields Hvals), !length_append.
    assert (Hall : Forall (fun kv => (vsize (snd kv)
                             <= String.length (JSON.text (snd kv)))%nat) fields).
    { clear - IH Hvals. induction IH as [|kv0 l Hkv0 _ IHl]; [constructor|].
      apply Forall_cons in Hvals as [Hv Hl].
      constructor; [now apply Hkv0 | now apply IHl]. }
    pose proof (length_join_obj fields Hall).
    change (String.length "{") with 1%nat.
    change (String.length "}") with 1%nat. lia.
  - inversion Hn as [| | | | |items' Hvals]; subst items'.
    rewrite text_arr, !length_append.
    assert (Hall : Forall (fun x => (vsize x
                             <= String.length (JSON.text x))%nat) items).
    { clear - IH Hvals. induction IH as [|x0 l Hx0 _ IHl]; [constructor|].
      apply Forall_cons in Hvals as [Hv Hl].
      constructor; [now apply Hx0 | now apply IHl]. }
    pose proof (length_join_arr items Hall).
    change (String.length "[") with 1%nat.
    change (String.length "]") with 1%nat. lia.
Qed.

(** [JSON.parse(JSON.stringify(v))] is [v] for a value [JSON.parse] can
    give. *)
Lemma parse_text v : json_normal v -> JSON.parse (JSON.text v) = Some v.
Proof.
  intros Hn. unfold JSON.parse.
  rewrite <- (append_empty_r (JSON.text v)) at 2.
  rewrite (text_reads_back v Hn); [reflexivity| |reflexivity].
  pose proof (vsize_le_text v Hn). lia.
Qed.

Lemma parse_normal s v : JSON.parse s = Some v -> json_normal v.
Proof.
  unfold JSON.parse.
  destruct (JSON.parse_value _ s) as [[v' [|c r]]|] eqn:E; try discriminate.
  intros [= <-]. exact (proj1 (parse_value_normal _) _ _ _ E).
Qed.

(** A pattern that does not occur is not replaced. *)
Lemma replace_absent pattern replacement s :
  occurs pattern s = false -> replace pattern replacement s = s.
Proof.
  induction s as [|c s IH]; simpl; intros H.
  - apply orb_false_iff in H as [-> _]. reflexivity.
  - apply orb_false_iff in H as [-> H]. now rewrite IH.
Qed.

Lemma sanitizeObj_normal x y : sanitizeObj x = Ok y -> json_normal y.
Proof.
  unfold sanitizeObj. destruct (JSON.stringify x) as [t|]; [|discriminate].
  destruct (JSON.parse _) as [v|] eqn:E; [|discriminate].
  intros [= <-]. exact (parse_normal _ _ E).
Qed.

(** Sanitizing a value [JSON.parse] can give, whose text has no
    double-quote-then-dollar and no quote-then-dollar, gives the value. *)
Lemma sanitizeObj_clean y :
  json_normal y ->
  occurs dquote_dollar (JSON.text y) = false ->
  occurs squote_dollar (JSON.text y) = false ->
  sanitizeObj y = Ok y.
Proof.
  intros Hn Hd Hs. unfold sanitizeObj.
  assert (JSON.stringify y = Some (JSON.text y)) as -> by (now destruct Hn).
  rewrite (replace_absent dquote_dollar) by exact Hd.
  rewrite (replace_absent squote_dollar) by exact Hs.
  now rewrite parse_text.
Qed.

(** A replacement that does not start at the first character leaves it. *)
Lemma replace_head pattern replacement c s :
  String.prefix pattern (String c s) = false ->
  replace pattern replacement (String c s)
  = String c (replace pattern replacement s).
Proof. intros H. cbn [replace]. now rewrite H. Qed.


(** No date is left in a sanitized document: the [_id] that
    [createHistoryDoc] turns into text is never one. *)
Lemma sanitized_field_is_not_a_date x y k :
  sanitizeObj x = Ok y -> JS.is_date (JS.get y k) = false.
Proof.
  intros Hx. pose proof (sanitizeObj_normal x y Hx) as Hn.
  destruct Hn as [|b|n|s|fields Hvals _|items]; try reflexivity.
  cbn [JS.get]. clear Hx.
  induction Hvals as [|[k0 v0] rest Hv _ IH]; [reflexivity|].
  cbn [JS.lookup_field]. destruct (String.eqb k0 k); [|exact IH].
  simpl in Hv. now destruct Hv.
Qed.

End idempotence.

(** C8 (as amended).  Sanitization is idempotent on every value whose
    sanitized form has no dollar left after a quote: when the JSON text of
    [sanitizeObj x] contains neither a double quote followed by a dollar nor
    a single quote followed by a dollar, sanitizing it again changes
    nothing. *)
Theorem sanitizeObj_idempotent_when_clean x y :
  sanitizeObj x = Ok y ->
  occurs dquote_dollar (JSON.text y) = false ->
  occurs squote_dollar (JSON.text y) = false ->
  bind (sanitizeObj x) sanitizeObj = sanitizeObj x.
Proof.
  intros Hx Hd Hs. rewrite Hx. cbn [bind].
  apply sanitizeObj_clean; [exact (sanitizeObj_normal x y Hx) | exact Hd | exact Hs].
Qed.

Lemma sanitizeObj_idempotent_when_clean_witness :
  bind (sanitizeObj (VObj [("_id", VObj [("$in", VArr [VStr "x"])])])) sanitizeObj
  = sanitizeObj (VObj [("_id", VObj [("$in", VArr [VStr "x"])])]).
Proof.
  apply (sanitizeObj_idempotent_when_clean
           (VObj [("_id", VObj [("$in", VArr [VStr "x"])])])
           (VObj [("_id", VObj [("in", VArr [VStr "x"])])])).
  - vm_compute. reflexivity.
  - vm_compute. reflexivity.
  - vm_compute. reflexivity.
Defined.

(** C8, counterexample.  The mapping [{a: '$$'}] has no key that starts
    with a dollar, nested or not; sanitizing it gives [{a: '$'}], and
    sanitizing that gives [{a: ''}].  The mapping [{$a: 1, $b: 2}], whose
    dollar keys are not nested, loses one dollar at each pass as well. *)
Lemma sanitizeObj_is_not_idempotent :
  sanitizeObj (VObj [("a", VStr "$$")]) = Ok (VObj [("a", VStr "$")])
  /\ bind (sanitizeObj (VObj [("a", VStr "$$")])) sanitizeObj
     = Ok (VObj [("a", VStr EmptyString)])
  /\ bind (sanitizeObj (VObj [("a", VStr "$$")])) sanitizeObj
     <> sanitizeObj (VObj [("a", VStr "$$")])
  /\ sanitizeObj (VObj [("$a", VNum 1); ("$b", VNum 2)])
     = Ok (VObj [("a", VNum 1); ("$b", VNum 2)])
  /\ bind (sanitizeObj (VObj [("$a", VNum 1); ("$b", VNum 2)])) sanitizeObj
     = Ok (VObj [("a", VNum 1); ("b", VNum 2)])
  /\ bind (sanitizeObj (VObj [("$a", VNum 1); ("$b", VNum 2)])) sanitizeObj
     <> sanitizeObj (VObj [("$a", VNum 1); ("$b", VNum 2)]).
Proof.
  vm_compute. repeat split; discriminate.
Qed.

(** ** When building the history document completes *)

Section completion.

Variable opts : options.



End completion.

(** * Further properties *)

(** ** The schema and the registry of the history models *)

Section history_model.

Implicit Types (w : world) (name : string) (opts : options).

Lemma append_same_length a b s :
  a +++ s = b +++ s -> String.length a = String.length b.
Proof.
  intros H. apply (f_equal String.length) in H.
  rewrite !length_append in H. lia.
Qed.

Lemma append_cancel_r a : forall b s, a +++ s = b +++ s -> a = b.
Proof.
  induction a as [|c a IH]; intros b s H.
  - destruct b as [|d b]; [reflexivity|].
    apply append_same_length in H. discriminate H.
  - destruct b as [|d b].
    + apply append_same_length in H. discriminate H.
    + cbn [String.append] in H. injection H as -> H. f_equal. exact (IH b s H).
Qed.

(** X1.  Without a custom name, two collections with different names have
    different history collections; with a custom name, every collection has
    the same one. *)
Theorem historyCollectionName_separates a b :
  a <> b ->
  hm.historyCollectionName a None <> hm.historyCollectionName b None
  /\ forall custom,
       hm.historyCollectionName a (Some custom)
       = hm.historyCollectionName b (Some custom).
Proof.
  intros Hab. split; [|reflexivity].
  unfold hm.historyCollectionName. intros H. apply Hab.
  exact (append_cancel_r a b _ H).
Qed.

Lemma historyCollectionName_separates_witness :
  hm.historyCollectionName "posts" None <> hm.historyCollectionName "users" None
  /\ forall custom,
       hm.historyCollectionName "posts" (Some custom)
       = hm.historyCollectionName "users" (Some custom).
Proof.
  apply (historyCollectionName_separates "posts" "users"). discriminate.
Defined.

Lemma find_app_last {A} (p : A -> bool) l x :
  List.find p (l ++ [x])
  = match List.find p l with
    | Some y => Some y
    | None => if p x then Some x else None
    end.
Proof.
  induction l as [|y l IH]; simpl; [reflexivity|].
  destruct (p y); [reflexivity | exact IH].
Qed.

Lemma declareMetadata_lookup ms : forall (s : gmap string fieldSpec) k,
  hm.declareMetadata ms s !! k
  = match List.find (fun m => String.eqb (key m) k) (rev ms) with
    | Some m =>
        Some (match schema m with
              | Some spec => spec
              | None => {| type := TMixed; required := false |}
              end)
    | None => s !! k
    end.
Proof.
  induction ms as [|m rest IH]; intros s k; [reflexivity|].
  cbn [hm.declareMetadata rev]. rewrite IH, find_app_last.
  destruct (List.find _ (rev rest)); [reflexivity|].
  destruct (String.eqb_spec (key m) k) as [->|Hne].
  - now rewrite lookup_insert_eq.
  - now rewrite lookup_insert_ne.
Qed.

(** X2.  The schema [HistoryModel] builds: a key of the metadata is declared
    with the schema of the last pair that has this key (a mixed field when the
    pair has none), also when the key is one of the fields of a history
    record; any other key is [modifiedBy], of the configured type, when actor
    tracking is configured; what remains are the seven basic fields. *)
Theorem buildSchemaObject_lookup opts k :
  hm.buildSchemaObject opts !! k
  = match List.find (fun m => String.eqb (key m) k)
            (rev (match metadata opts with Some ms => ms | None => [] end)) with
    | Some m =>
        Some (match schema m with
              | Some spec => spec
              | None => {| type := TMixed; required := false |}
              end)
    | None =>
        match modifiedBy opts with
        | Some mb =>
            if String.eqb k "modifiedBy"
            then Some {| type := schemaType mb; required := false |}
            else hm.baseSchema !! k
        | None => hm.baseSchema !! k
        end
    end.
Proof.
  unfold hm.buildSchemaObject.
  assert (Hbase :
    (match modifiedBy opts with
     | Some addUserWhoModifies =>
         <["modifiedBy" :=
             {| type := schemaType addUserWhoModifies; required := false |}]>
           hm.baseSchema
     | None => hm.baseSchema
     end) !! k
    = match modifiedBy opts with
      | Some mb =>
          if String.eqb k "modifiedBy"
          then Some {| type := schemaType mb; required := false |}
          else hm.baseSchema !! k
      | None => hm.baseSchema !! k
      end).
  { destruct (modifiedBy opts) as [mb|]; [|reflexivity].
    destruct (String.eqb_spec k "modifiedBy") as [->|Hne].
    - now rewrite lookup_insert_eq.
    - now rewrite lookup_insert_ne by congruence. }
  destruct (metadata opts) as [ms|].
  - rewrite declareMetadata_lookup. destruct (List.find _ _); [reflexivity|].
    exact Hbase.
  - cbn [rev List.find]. exact Hbase.
Qed.

(** X3.  For a name that the cache has no model for and that is none of
    the names inherited from [Object.prototype], the first call of
    [HistoryModel] builds the model from its options (its schema, its
    connection and its indexes are those options'), caches it and registers
    it, once; every later call for the name, whatever calls were made in
    between and whatever options it is given, returns that same model and
    changes nothing, so that the options of a later call are ignored and no
    second registration takes place. *)
Theorem HistoryModel_built_from_first_options name opts w :
  historyModels w !! name = None ->
  JS.inherited name = false ->
  exists m w1,
    hm.HistoryModel name opts w = (Some m, w1)
    /\ modelName m = name
    /\ schemaObject m = hm.buildSchemaObject opts
    /\ connection m = historyConnection opts
    /\ schemaIndexes m = match indexes opts with Some l => l | None => [] end
    /\ registry w1 = registry w ++ [m]
    /\ forall between opts',
         let w2 := hm.calls between w1 in
         hm.HistoryModel name opts' w2 = (Some m, w2).
Proof.
  intros Hnone Hin.
  destruct (HistoryModel_first name opts w Hnone Hin)
    as (m & Hcall & Hname & Hschema & Hconn & Hidx).
  eexists m, _. split; [exact Hcall|].
  do 4 (split; [assumption|]). split; [reflexivity|].
  intros between opts' w2. apply HistoryModel_cached. subst w2.
  apply calls_keep. cbn [historyModels]. apply lookup_insert_eq.
Qed.

Lemma HistoryModel_built_from_first_options_witness :
  exists m w1,
    hm.HistoryModel "posts_history" Sample.with_title_metadata
      Sample.empty_world = (Some m, w1)
    /\ modelName m = "posts_history"
    /\ schemaObject m = hm.buildSchemaObject Sample.with_title_metadata
    /\ connection m = historyConnection Sample.with_title_metadata
    /\ schemaIndexes m
       = match indexes Sample.with_title_metadata with
         | Some l => l
         | None => []
         end
    /\ registry w1 = registry Sample.empty_world ++ [m]
    /\ forall between opts',
         let w2 := hm.calls between w1 in
         hm.HistoryModel "posts_history" opts' w2 = (Some m, w2).
Proof.
  apply (HistoryModel_built_from_first_options "posts_history"
           Sample.with_title_metadata Sample.empty_world).
  - reflexivity.
  - reflexivity.
Defined.

Lemma HistoryModel_registry name opts w :
  NoDup (map modelName (registry w)) ->
  (forall m, In m (registry w) -> historyModels w !! modelName m <> None) ->
  let w' := snd (hm.HistoryModel name opts w) in
  NoDup (map modelName (registry w'))
  /\ (forall m, In m (registry w') -> historyModels w' !! modelName m <> None).
Proof.
  intros Hnd Hreg.
  destruct (HistoryModel_cases name opts w)
    as [(m0 & _ & ->) | [(_ & _ & ->) | (E & _ & m0 & -> & Hname)]];
    cbn [snd]; [now split | now split |].
  cbn [registry historyModels]. split.
  - rewrite map_app. cbn [map]. rewrite Hname.
    apply NoDup_app. split; [exact Hnd|].
    split; [|apply NoDup_singleton].
    intros x Hx Hin. apply list_elem_of_In in Hin. simpl in Hin.
    destruct Hin as [<-|[]].
    apply list_elem_of_In, in_map_iff in Hx as (m & Hm & Hin).
    apply (Hreg m Hin). now rewrite Hm.
  - intros m Hin. apply in_app_iff in Hin as [Hin|[<-|[]]].
    + destruct (String.eqb_spec name (modelName m)) as [<-|Hne].
      * now rewrite lookup_insert_eq.
      * rewrite lookup_insert_ne by exact Hne. now apply Hreg.
    + rewrite Hname. now rewrite lookup_insert_eq.
Qed.

(** X4.  No name is registered with mongoose twice: when the models
    registered so far have different names and are all in the cache, this is
    still so after any calls of [HistoryModel], for any names and options. *)
Theorem HistoryModel_registers_a_name_once l : forall w,
  NoDup (map modelName (registry w)) ->
  (forall m, In m (registry w) -> historyModels w !! modelName m <> None) ->
  NoDup (map modelName (registry (hm.calls l w)))
  /\ (forall m, In m (registry (hm.calls l w)) ->
        historyModels (hm.calls l w) !! modelName m <> None).
Proof.
  induction l as [|[name opts] rest IH]; intros w Hnd Hreg; [now split|].
  cbn [hm.calls].
  destruct (HistoryModel_registry name opts w Hnd Hreg) as [Hnd' Hreg'].
  now apply IH.
Qed.

Lemma HistoryModel_registers_a_name_once_witness :
  let l := [("posts_history", Sample.no_options);
            ("users_history", Sample.diff_only);
            ("posts_history", Sample.with_title_metadata)] in
  NoDup (map modelName (registry (hm.calls l Sample.empty_world)))
  /\ (forall m, In m (registry (hm.calls l Sample.empty_world)) ->
        historyModels (hm.calls l Sample.empty_world) !! modelName m <> None).
Proof.
  apply (HistoryModel_registers_a_name_once
           [("posts_history", Sample.no_options);
            ("users_history", Sample.diff_only);
            ("posts_history", Sample.with_title_metadata)]
           Sample.empty_world).
  - simpl. constructor.
  - simpl. intros m [].
Defined.

End history_model.

(** ** What building a history document leaves alone *)

Section world_frames.

Variable opts : options.

Lemma only_heap_differs_refl w : only_heap_differs w w.
Proof. repeat split. Qed.

Lemma only_heap_differs_trans w1 w2 w3 :
  only_heap_differs w1 w2 -> only_heap_differs w2 w3 -> only_heap_differs w1 w3.
Proof.
  intros (A1 & A2 & A3 & A4 & A5 & A6 & A7 & A8)
         (B1 & B2 & B3 & B4 & B5 & B6 & B7 & B8).
  repeat split; congruence.
Qed.

(** The blacklist loop changes the heap at most, and there the object of
    the actor only; on an actor held by value it changes nothing. *)
Lemma unsetKeys_frame keys : forall a w a' w',
  unsetKeys keys a w = Ok (a', w') ->
  only_heap_differs w w'
  /\ (forall l, a = HRef l ->
        a' = HRef l /\ forall l', l' <> l -> heap w' !! l' = heap w !! l')
  /\ (forall v, a = HVal v -> w' = w).
Proof.
  induction keys as [|k rest IH]; intros a w a' w' H.
  - injection H as <- <-.
    split; [apply only_heap_differs_refl|]. split; [|reflexivity].
    intros l Ha. now split.
  - cbn [unsetKeys] in H. destruct a as [v|l]; cbn [assign_shared bind] in H.
    + destruct (assign v k VUndefined) as [v'|e]; cbn [bind fst snd] in H;
        [|discriminate].
      destruct (IH _ _ _ _ H) as (Hw & _ & Hv).
      split; [exact Hw|]. split; [discriminate|].
      intros _ _. exact (Hv v' eq_refl).
    + cbn [fst snd] in H. destruct (IH _ _ _ _ H) as (Hw & Hl & _).
      split; [|split; [|discriminate]].
      * eapply only_heap_differs_trans; [|exact Hw]. repeat split.
      * intros l0 [= <-]. destruct (Hl l eq_refl) as [-> Hheap].
        split; [reflexivity|]. intros l' Hl'. rewrite (Hheap l' Hl').
        cbn [heap with_heap]. now rewrite lookup_insert_ne by congruence.
Qed.

(** Resolving the actor changes nothing but the object of the actor in the
    heap, and not even that without a blacklist. *)
Lemma addModifiedByInfo_world h w h' w' :
  addModifiedByInfo opts h w = Ok (h', w') ->
  only_heap_differs w w'
  /\ (forall l, h' !! "modifiedBy" <> Some (HRef l) ->
        heap w' !! l = heap w !! l)
  /\ (match modifiedBy opts with
      | Some mb =>
          match blacklist mb with Some (_ :: _) => False | _ => True end
      | None => True
      end -> w' = w).
Proof.
  unfold addModifiedByInfo. intros H.
  destruct (modifiedBy opts) as [mb|].
  - destruct (blacklist mb) as [[|k ks]|]; cbn [bind fst snd] in H.
    + injection H as <- <-. now split; [apply only_heap_differs_refl|].
    + match type of H with
      | bind (unsetKeys _ ?actor _) _ = _ =>
          destruct (unsetKeys (k :: ks) actor w) as [[a w1]|e] eqn:E;
          cbn [bind fst snd] in H; [|discriminate];
          destruct (unsetKeys_frame _ _ _ _ _ E) as (Hw & Hl & Hv);
          destruct actor as [v|l0]
      end; injection H as <- <-.
      * rewrite (Hv v eq_refl). now split; [apply only_heap_differs_refl|].
      * split; [exact Hw|]. split; [|contradiction].
        destruct (Hl l0 eq_refl) as [-> Hheap].
        intros l Hne. apply Hheap. intros ->. apply Hne.
        apply lookup_insert_eq.
    + injection H as <- <-. now split; [apply only_heap_differs_refl|].
  - injection H as <- <-. now split; [apply only_heap_differs_refl|].
Qed.

Lemma createHistoryDoc_world doc diff operation collectionName
    additionalFields w h w' :
  createHistoryDoc opts doc diff operation collectionName additionalFields w
    = Ok (h, w') ->
  only_heap_differs w w'
  /\ (forall l, h !! "modifiedBy" <> Some (HRef l) ->
        heap w' !! l = heap w !! l)
  /\ (match modifiedBy opts with
      | Some mb =>
          match blacklist mb with Some (_ :: _) => False | _ => True end
      | None => True
      end -> w' = w).
Proof.
  intros H.
  destruct (createHistoryDoc_actor opts _ _ _ _ _ _ _ _ H)
    as (h0 & h1 & Ha & Hfield).
  rewrite Hfield. exact (addModifiedByInfo_world _ _ _ _ Ha).
Qed.

End world_frames.

(** ** The metadata loop *)

Section metadata_loop.

Variables originalDoc newDoc : val.

Lemma run_steps_ok n m st :
  JS.truthy (reported originalDoc newDoc m) = false -> final st = None ->
  run_steps n (iteratee originalDoc newDoc m) false st
  = let t := JS.put (target st) (key m) (extracted originalDoc newDoc m) in
    {| target := t; completed := S (completed st);
       final := if Nat.eqb (S (completed st)) n then Some (VNull, t) else None;
       raised := raised st |}.
Proof.
  intros Hok Hfinal. unfold iteratee, reported, extracted in *.
  destruct (value m) as [name|f|f].
  - cbn [run_steps JS.truthy target completed final raised].
    destruct (Nat.eqb _ n); unfold call_final;
      cbn [target completed final raised]; rewrite ?Hfinal; reflexivity.
  - cbn [run_steps JS.truthy target completed final raised].
    destruct (Nat.eqb _ n); unfold call_final;
      cbn [target completed final raised]; rewrite ?Hfinal; reflexivity.
  - destruct (f originalDoc newDoc) as [err data]. cbn [fst snd] in *.
    rewrite Hok. cbn [app run_steps JS.truthy target completed final raised].
    destruct (Nat.eqb _ n); unfold call_final;
      cbn [target completed final raised]; rewrite ?Hfinal; reflexivity.
Qed.

Lemma run_steps_error n m st :
  JS.truthy (reported originalDoc newDoc m) = true -> final st = None ->
  run_steps n (iteratee originalDoc newDoc m) false st
  = {| target := JS.put (target st) (key m) (extracted originalDoc newDoc m);
       completed := completed st;
       final := Some (reported originalDoc newDoc m, target st);
       raised := Some CallbackAlreadyCalled |}.
Proof.
  intros Herr Hfinal. unfold iteratee, reported, extracted in *.
  destruct (value m) as [name|f|f]; try discriminate Herr.
  destruct (f originalDoc newDoc) as [err data]. cbn [fst snd] in *.
  rewrite Herr. cbn [app run_steps]. rewrite Herr.
  unfold call_final. rewrite Hfinal. reflexivity.
Qed.

Lemma record_all_app ms ms' doc :
  record_all originalDoc newDoc (ms ++ ms') doc
  = record_all originalDoc newDoc ms' (record_all originalDoc newDoc ms doc).
Proof. apply fold_left_app. Qed.

(** The loop over pairs that report no error: every pair is recorded, and
    the final callback is called, without error, by the last one. *)
Lemma each_ok n ms : forall st,
  ms <> [] ->
  Forall (fun m => JS.truthy (reported originalDoc newDoc m) = false) ms ->
  final st = None -> raised st = None ->
  (completed st + length ms = n)%nat ->
  each n (map (iteratee originalDoc newDoc) ms) st
  = {| target := record_all originalDoc newDoc ms (target st);
       completed := n;
       final := Some (VNull, record_all originalDoc newDoc ms (target st));
       raised := None |}.
Proof.
  induction ms as [|m rest IH]; intros st Hne Hall Hfinal Hraised Hn;
    [contradiction|].
  apply Forall_cons in Hall as [Hm Hrest].
  cbn [map each]. rewrite run_steps_ok by assumption. cbv zeta.
  cbn [raised]. rewrite Hraised.
  destruct rest as [|m' rest'].
  - cbn [length] in Hn. replace (S (completed st)) with n by lia.
    rewrite Nat.eqb_refl. reflexivity.
  - assert (Hlt : Nat.eqb (S (completed st)) n = false).
    { apply Nat.eqb_neq. cbn [length] in Hn. lia. }
    rewrite Hlt. rewrite IH; cbn [target completed final raised];
      try reflexivity; try assumption; try discriminate.
    cbn [length] in *. lia.
Qed.

(** The loop up to the first pair that reports an error: the pairs before
    it are recorded, the final callback gets the error, the data of the pair
    is recorded all the same, and the second call of the pair's callback
    raises; the pairs after it are not run. *)
Lemma each_error n pre m post : forall st,
  Forall (fun m => JS.truthy (reported originalDoc newDoc m) = false) pre ->
  JS.truthy (reported originalDoc newDoc m) = true ->
  final st = None -> raised st = None ->
  (completed st + length (pre ++ m :: post) = n)%nat ->
  each n (map (iteratee originalDoc newDoc) (pre ++ m :: post)) st
  = {| target :=
         JS.put (record_all originalDoc newDoc pre (target st)) (key m)
           (extracted originalDoc newDoc m);
       completed := (completed st + length pre)%nat;
       final :=
         Some (reported originalDoc newDoc m,
               record_all originalDoc newDoc pre (target st));
       raised := Some CallbackAlreadyCalled |}.
Proof.
  induction pre as [|p pre IH]; intros st Hall Herr Hfinal Hraised Hn.
  - cbn [app map each]. rewrite run_steps_error by assumption.
    cbn [raised length]. rewrite Nat.add_0_r. reflexivity.
  - apply Forall_cons in Hall as [Hp Hpre].
    cbn [app map each]. rewrite run_steps_ok by assumption. cbv zeta.
    cbn [raised]. rewrite Hraised.
    assert (Hlt : Nat.eqb (S (completed st)) n = false).
    { apply Nat.eqb_neq. rewrite <- Hn. cbn [app length]. rewrite length_app.
      cbn [length]. lia. }
    rewrite Hlt. rewrite IH; cbn [target completed final raised];
      try assumption; try reflexivity.
    + f_equal. cbn [length]. lia.
    + cbn [app length] in Hn. lia.
Qed.

(** Either no pair reports an error, or there is a first one that does. *)
Lemma first_error ms :
  Forall (fun m => JS.truthy (reported originalDoc newDoc m) = false) ms
  \/ exists pre m post,
       ms = pre ++ m :: post
       /\ Forall (fun m => JS.truthy (reported originalDoc newDoc m) = false) pre
       /\ JS.truthy (reported originalDoc newDoc m) = true.
Proof.
  induction ms as [|m rest IH]; [left; constructor|].
  destruct (JS.truthy (reported originalDoc newDoc m)) eqn:E.
  - right. exists [], m, rest. repeat split; [constructor | exact E].
  - destruct IH as [Hall | (pre & x & post & -> & Hpre & Hx)].
    + left. now constructor.
    + right. exists (m :: pre), x, post. repeat split; [|exact Hx].
      now constructor.
Qed.

End metadata_loop.

(** ** Metadata and the outcome of the hooks *)

Section metadata.

Variables originalDoc newDoc : val.

Lemma record_all_get ms : forall fields k,
  JS.get (record_all originalDoc newDoc ms (VObj fields)) k
  = match List.find (fun m => String.eqb (key m) k) (rev ms) with
    | Some m => extracted originalDoc newDoc m
    | None => JS.lookup_field fields k
    end.
Proof.
  induction ms as [|m rest IH]; intros fields k; [reflexivity|].
  unfold record_all in *. cbn [fold_left rev JS.put]. rewrite IH, find_app_last.
  destruct (List.find _ (rev rest)); [reflexivity|].
  rewrite lookup_assign_field. now destruct (String.eqb (key m) k).
Qed.

Lemma setMetadata_all_ok ms fields :
  Forall (fun m => JS.truthy (reported originalDoc newDoc m) = false) ms ->
  setMetadata ms originalDoc newDoc (VObj fields)
  = {| target := record_all originalDoc newDoc ms (VObj fields);
       completed := length ms;
       final := Some (VNull, record_all originalDoc newDoc ms (VObj fields));
       raised := None |}.
Proof.
  intros Hall. unfold setMetadata. cbn [JS.truthy negb].
  destruct ms as [|m rest]; [reflexivity|].
  apply each_ok; try reflexivity; [discriminate | exact Hall].
Qed.

(** X5.  When no metadata extractor reports an error (an extractor with a
    callback calling it before it returns, and a field name reading an own
    property of the new document), [setMetadata] records every pair in the
    target object, in the order of the list, so that of two pairs with one
    key the later wins, and calls its callback once, without error, after
    the last pair. *)
Theorem setMetadata_records_every_pair ms fields :
  Forall (fun m => reads_own_field newDoc m = true) ms ->
  Forall (fun m => JS.truthy (reported originalDoc newDoc m) = false) ms ->
  setMetadata ms originalDoc newDoc (VObj fields)
  = {| target := record_all originalDoc newDoc ms (VObj fields);
       completed := length ms;
       final := Some (VNull, record_all originalDoc newDoc ms (VObj fields));
       raised := None |}
  /\ forall k,
       JS.get (record_all originalDoc newDoc ms (VObj fields)) k
       = match List.find (fun m => String.eqb (key m) k) (rev ms) with
         | Some m => extracted originalDoc newDoc m
         | None => JS.lookup_field fields k
         end.
Proof.
  intros _ Hall. split; [now apply setMetadata_all_ok | apply record_all_get].
Qed.

(** X6.  At the first metadata extractor that reports an error (through
    its callback, which it calls before it returns), [setMetadata] calls its
    callback with that error, the target holding the pairs before it; the
    data of the failing extractor is recorded all the same, the second call
    of its callback raises, and the pairs after it are not run. *)
Theorem setMetadata_stops_at_first_error pre m post fields :
  Forall (fun m => reads_own_field newDoc m = true) pre ->
  Forall (fun m => JS.truthy (reported originalDoc newDoc m) = false) pre ->
  JS.truthy (reported originalDoc newDoc m) = true ->
  setMetadata (pre ++ m :: post) originalDoc newDoc (VObj fields)
  = {| target :=
         JS.put (record_all originalDoc newDoc pre (VObj fields)) (key m)
           (extracted originalDoc newDoc m);
       completed := length pre;
       final :=
         Some (reported originalDoc newDoc m,
               record_all originalDoc newDoc pre (VObj fields));
       raised := Some CallbackAlreadyCalled |}.
Proof.
  intros _ Hpre Herr. unfold setMetadata. cbn [JS.truthy negb].
  destruct (pre ++ m :: post) as [|x l] eqn:E.
  { destruct pre; discriminate E. }
  rewrite <- E. apply (each_error originalDoc newDoc); try reflexivity; assumption.
Qed.

(** Whatever the pairs, [setMetadata] calls its callback: with an error,
    and then it raises as well, or without, and then the callback finds the
    target as [setMetadata] leaves it. *)
Lemma setMetadata_final ms doc :
  exists err d,
    final (setMetadata ms originalDoc newDoc doc) = Some (err, d)
    /\ if JS.truthy err
       then raised (setMetadata ms originalDoc newDoc doc)
            = Some CallbackAlreadyCalled
       else d = target (setMetadata ms originalDoc newDoc doc)
            /\ raised (setMetadata ms originalDoc newDoc doc) = None.
Proof.
  unfold setMetadata. destruct (JS.truthy doc) eqn:Hdoc; cbn [negb].
  - destruct ms as [|m rest] eqn:Ems.
    + exists VNull, doc. split; [reflexivity | split; reflexivity].
    + rewrite <- Ems.
      assert (Hne : ms <> []) by (rewrite Ems; discriminate).
      clear Ems.
      destruct (first_error originalDoc newDoc ms)
        as [Hall | (pre & x & post & -> & Hpre & Hx)].
      * rewrite each_ok; try reflexivity; try assumption.
        eexists _, _. split; [reflexivity|]. split; reflexivity.
      * rewrite (each_error originalDoc newDoc); try reflexivity; try assumption.
        eexists _, _. split; [reflexivity|]. cbn [raised]. now rewrite Hx.
  - exists VUndefined, doc. split; [reflexivity | split; reflexivity].
Qed.

End metadata.

Section hooks.

Variable deepDiff : val -> val -> bool -> val.
Variable opts : options.

(** The record [saveRecord] hands to the store is the history document it
    is given, whatever the answer of the store. *)
Lemma saveRecord_eta h c w :
  {| world_after := world_after (saveRecord opts h c w);
     historyDoc_after := h;
     next_calls := next_calls (saveRecord opts h c w);
     thrown := match thrown (saveRecord opts h c w) with
               | Some e => Some e
               | None => None
               end |}
  = saveRecord opts h c w.
Proof.
  unfold saveRecord.
  destruct (hm.HistoryModel _ _ _) as [[m|] w1]; [|reflexivity].
  now destruct (saveError w1 (modelName m) h).
Qed.

Lemma saveRecord_outcome h c w :
  hook_outcome opts c w (saveRecord opts h c w).
Proof.
  unfold hook_outcome, saveRecord, historyModel.
  set (name := hm.historyCollectionName c (customCollectionName opts)).
  destruct (HistoryModel_cases name opts w)
    as [(m & E & ->) | [(_ & _ & ->) | (_ & _ & m & -> & _)]].
  - destruct (saveError w (modelName m) h) as [err|] eqn:Es;
      cbn [world_after historyDoc_after next_calls thrown
           context currentUser persisted with_persisted].
    + repeat split. right. left. exists m, err.
      repeat split; [now apply HistoryModel_cached | exact Es].
    + repeat split. left. exists m.
      repeat split; [now apply HistoryModel_cached | exact Es].
  - cbn. repeat split. right. right. right. repeat split. discriminate.
  - cbn [saveError].
    destruct (saveError w (modelName m) h) as [err|] eqn:Es;
      cbn [world_after historyDoc_after next_calls thrown
           context currentUser persisted with_persisted].
    + repeat split. right. left. exists m, err.
      repeat split; [|exact Es].
      apply HistoryModel_cached. cbn [historyModels]. apply lookup_insert_eq.
    + repeat split. left. exists m.
      repeat split; [|exact Es].
      apply HistoryModel_cached. cbn [historyModels]. apply lookup_insert_eq.
Qed.

(** With metadata of which no extractor reports an error, what
    [saveHistoryModel] does is to save the document with the metadata in
    its [doc]. *)
Lemma saveHistoryModel_saves originalDoc newDoc historyDoc c w ms err :
  metadata opts = Some ms ->
  let doc :=
    match historyDoc !! "doc" with Some (HVal d) => d | _ => VUndefined end in
  let st := setMetadata ms originalDoc newDoc doc in
  final st = Some (err, target st) -> JS.truthy err = false ->
  raised st = None ->
  saveHistoryModel opts originalDoc newDoc historyDoc c w
  = saveRecord opts (<["doc" := HVal (target st)]> historyDoc) c w.
Proof.
  intros Hmeta doc st Hfinal Herr Hraised. unfold saveHistoryModel.
  rewrite Hmeta. fold doc. fold st. rewrite Hfinal, Herr, Hraised.
  apply saveRecord_eta.
Qed.

Lemma saveHistoryModel_outcome originalDoc newDoc historyDoc collectionName w :
  hook_outcome opts collectionName w
    (saveHistoryModel opts originalDoc newDoc historyDoc collectionName w).
Proof.
  destruct (metadata opts) as [ms|] eqn:Hmeta.
  - set (doc := match historyDoc !! "doc" with
                | Some (HVal d) => d
                | _ => VUndefined
                end).
    destruct (setMetadata_final originalDoc newDoc ms doc)
      as (err & d & Hfinal & Hcase).
    destruct (JS.truthy err) eqn:Herr.
    + unfold saveHistoryModel. rewrite Hmeta. fold doc. rewrite Hfinal, Herr.
      unfold hook_outcome.
      cbn [world_after historyDoc_after next_calls thrown].
      repeat split. right. right. left. exists err. repeat split; assumption.
    + destruct Hcase as [-> Hraised].
      rewrite (saveHistoryModel_saves originalDoc newDoc historyDoc
                 collectionName w ms err Hmeta Hfinal Herr Hraised).
      apply saveRecord_outcome.
  - unfold saveHistoryModel. rewrite Hmeta. apply saveRecord_outcome.
Qed.

Lemma hook_outcome_raise c e w : hook_outcome opts c w (raise e w).
Proof.
  unfold hook_outcome, raise. cbn. repeat split. right. right. right.
  repeat split. discriminate.
Qed.

(** The outcome of a hook that has built its history document and goes on
    from the world [w'], which differs from [w] in the heap at most. *)
Lemma hook_outcome_heap c w w' r :
  only_heap_differs w w' ->
  hook_outcome opts c w' r ->
  hook_outcome opts c w r.
Proof.
  intros (Hc & _ & Hu & _ & _ & Hp & Hs & _) (Hc' & Hu' & Hcases).
  unfold hook_outcome. split; [congruence|]. split; [congruence|].
  rewrite <- Hp, <- Hs. exact Hcases.
Qed.

(** X7.  With metadata of which no extractor reports an error (an
    extractor with a callback calling it before it returns, and a field name
    reading an own property of the new document), [saveHistoryModel] writes
    every metadata value into the [doc] of the history document, where it
    replaces a field of that name, and changes no other field of the
    document; it then does with that document what it does with a document
    when there is no metadata: the document is given to the store. *)
Theorem saveHistoryModel_writes_metadata_into_doc originalDoc newDoc historyDoc
    fields collectionName w ms :
  metadata opts = Some ms ->
  historyDoc !! "doc" = Some (HVal (VObj fields)) ->
  Forall (fun m => reads_own_field newDoc m = true) ms ->
  Forall (fun m => JS.truthy (reported originalDoc newDoc m) = false) ms ->
  saveHistoryModel opts originalDoc newDoc historyDoc collectionName w
  = saveRecord opts
      (<["doc" := HVal (record_all originalDoc newDoc ms (VObj fields))]>
         historyDoc)
      collectionName w
  /\ historyDoc_after
       (saveHistoryModel opts originalDoc newDoc historyDoc collectionName w)
     = <["doc" := HVal (record_all originalDoc newDoc ms (VObj fields))]>
         historyDoc
  /\ forall k,
       JS.get (record_all originalDoc newDoc ms (VObj fields)) k
       = match List.find (fun m => String.eqb (key m) k) (rev ms) with
         | Some m => extracted originalDoc newDoc m
         | None => JS.lookup_field fields k
         end.
Proof.
  intros Hmeta Hdoc _ Hall.
  assert (Heq :
    saveHistoryModel opts originalDoc newDoc historyDoc collectionName w
    = saveRecord opts
        (<["doc" := HVal (record_all originalDoc newDoc ms (VObj fields))]>
           historyDoc)
        collectionName w).
  { pose proof (saveHistoryModel_saves originalDoc newDoc historyDoc
                  collectionName w ms VNull Hmeta) as Hsaves.
    cbv zeta in Hsaves. rewrite Hdoc in Hsaves.
    rewrite (setMetadata_all_ok originalDoc newDoc ms fields Hall) in Hsaves.
    now apply Hsaves. }
  split; [exact Heq|]. split; [|apply record_all_get].
  rewrite Heq. apply saveRecord_historyDoc.
Qed.

(** A hook that builds its history document and hands it to
    [saveHistoryModel]. *)
Lemma hook_outcome_after_createHistoryDoc c originalDoc newDoc doc diff
    operation additional w :
  hook_outcome opts c w
    match createHistoryDoc opts doc diff operation c additional w with
    | Ok (historyDoc, w') =>
        saveHistoryModel opts originalDoc newDoc historyDoc c w'
    | Throw e => raise e w
    end.
Proof.
  destruct (createHistoryDoc _ _ _ _ _ _ _) as [[h w']|e] eqn:Hc;
    [|apply hook_outcome_raise].
  apply (hook_outcome_heap c w w').
  - exact (proj1 (createHistoryDoc_world opts _ _ _ _ _ _ _ _ Hc)).
  - apply saveHistoryModel_outcome.
Qed.

Lemma pre_save_outcome doc w :
  hook_outcome opts (collection_name doc) w (pre_save deepDiff opts doc w).
Proof.
  unfold pre_save, _saveHistory.
  destruct (diffOnly opts && negb (isNew doc)).
  - destruct (diffFields _ _ _ _ _ _) as [D|e]; [|apply hook_outcome_raise].
    apply hook_outcome_after_createHistoryDoc.
  - apply hook_outcome_after_createHistoryDoc.
Qed.


End hooks.

Lemma setMetadata_records_every_pair_witness :
  let ms := [Sample.title_pair; Sample.id_as_title_pair] in
  let newDoc := VObj (toObject Sample.new_post) in
  setMetadata ms VUndefined newDoc (VObj [("__v", VUndefined)])
  = {| target := record_all VUndefined newDoc ms (VObj [("__v", VUndefined)]);
       completed := length ms;
       final :=
         Some (VNull, record_all VUndefined newDoc ms (VObj [("__v", VUndefined)]));
       raised := None |}
  /\ forall k,
       JS.get (record_all VUndefined newDoc ms (VObj [("__v", VUndefined)])) k
       = match List.find (fun m => String.eqb (key m) k) (rev ms) with
         | Some m => extracted VUndefined newDoc m
         | None => JS.lookup_field [("__v", VUndefined)] k
         end.
Proof.
  apply (setMetadata_records_every_pair VUndefined
           (VObj (toObject Sample.new_post))
           [Sample.title_pair; Sample.id_as_title_pair] [("__v", VUndefined)]).
  - repeat constructor.
  - repeat constructor.
Defined.

Lemma setMetadata_stops_at_first_error_witness :
  let newDoc := VObj (toObject Sample.post_unchanged) in
  setMetadata
    ([Sample.title_pair] ++ Sample.failing_pair :: [Sample.message_pair])
    VUndefined newDoc (VObj [("__v", VUndefined)])
  = {| target :=
         JS.put (record_all VUndefined newDoc [Sample.title_pair]
                   (VObj [("__v", VUndefined)]))
           (key Sample.failing_pair)
           (extracted VUndefined newDoc Sample.failing_pair);
       completed := length [Sample.title_pair];
       final :=
         Some (reported VUndefined newDoc Sample.failing_pair,
               record_all VUndefined newDoc [Sample.title_pair]
                 (VObj [("__v", VUndefined)]));
       raised := Some CallbackAlreadyCalled |}.
Proof.
  apply (setMetadata_stops_at_first_error VUndefined
           (VObj (toObject Sample.post_unchanged))
           [Sample.title_pair] Sample.failing_pair [Sample.message_pair]
           [("__v", VUndefined)]).
  - repeat constructor.
  - repeat constructor.
  - reflexivity.
Defined.

Lemma saveHistoryModel_writes_metadata_into_doc_witness :
  let newDoc := VObj (toObject Sample.new_post) in
  let historyDoc : gmap string hval :=
    <["doc" := HVal (VObj [("title", VStr "old"); ("__v", VUndefined)])]> ∅ in
  let written : gmap string hval :=
    <["doc" :=
        HVal (record_all VUndefined newDoc [Sample.title_pair]
                (VObj [("title", VStr "old"); ("__v", VUndefined)]))]>
      historyDoc in
  let r :=
    saveHistoryModel Sample.with_title_metadata VUndefined newDoc historyDoc
      "posts" Sample.empty_world in
  r = saveRecord Sample.with_title_metadata written "posts" Sample.empty_world
  /\ historyDoc_after r = written
  /\ forall k,
       JS.get (record_all VUndefined newDoc [Sample.title_pair]
                 (VObj [("title", VStr "old"); ("__v", VUndefined)])) k
       = match List.find (fun m => String.eqb (key m) k)
                 (rev [Sample.title_pair]) with
         | Some m => extracted VUndefined newDoc m
         | None =>
             JS.lookup_field [("title", VStr "old"); ("__v", VUndefined)] k
         end.
Proof.
  apply (saveHistoryModel_writes_metadata_into_doc Sample.with_title_metadata
           VUndefined (VObj (toObject Sample.new_post))
           (<["doc" := HVal (VObj [("title", VStr "old"); ("__v", VUndefined)])]> ∅)
           [("title", VStr "old"); ("__v", VUndefined)] "posts"
           Sample.empty_world [Sample.title_pair]).
  - reflexivity.
  - apply lookup_insert_eq.
  - repeat constructor.
  - repeat constructor.
Defined.

Lemma world_with_user_in_heap : actors_in_heap Sample.world_with_user.
Proof.
  split; [reflexivity|].
  intros path h Hpath.
  destruct (String.eqb_spec "request:userInfo" path) as [<-|Hne].
  - cbn in Hpath. rewrite lookup_insert_eq in Hpath. now injection Hpath as <-.
  - cbn in Hpath. rewrite lookup_insert_ne in Hpath by exact Hne.
    rewrite lookup_empty in Hpath. discriminate Hpath.
Defined.


(** ** The diff of a diff-only update, field by field *)

Section fields.

Variable deepDiff : val -> val -> bool -> val.
Variable opts : options.

Lemma truthy_not_strict_eq n o :
  JS.truthy n = true -> JS.truthy o = false -> JS.strict_eq n o = false.
Proof.
  intros Hn Ho. destruct n, o; simpl in *; try reflexivity; try discriminate.
  - destruct b, b0; simpl in *; congruence.
  - destruct (Z.eqb_spec n n0) as [->|]; [|reflexivity].
    rewrite Ho in Hn. discriminate.
  - destruct (String.eqb_spec s s0) as [->|]; [|reflexivity].
    rewrite Ho in Hn. discriminate.
Qed.

(** The default algorithm on two values of which one at least is not an
    object, an array, a date or [null]. *)
Lemma defaultDiffAlgo_primitive f n o :
  f <> "updatedAt" ->
  JS.typeof_object n = false \/ JS.typeof_object o = false ->
  defaultDiffAlgo deepDiff f n o
  = if JS.truthy o && negb (JS.truthy n) then VStr "null"
    else if JS.strict_eq n o then VNull else n.
Proof.
  intros Hf Hprim. unfold defaultDiffAlgo.
  apply String.eqb_neq in Hf. rewrite Hf.
  destruct (JS.truthy o) eqn:To, (JS.truthy n) eqn:Tn; cbn [andb negb].
  - assert (Hd : JS.is_date n && JS.is_date o = false)
      by (destruct Hprim; destruct n, o; simpl in *; congruence).
    assert (Ht : JS.typeof_object n && JS.typeof_object o = false)
      by (destruct Hprim as [-> | ->];
          [reflexivity | apply andb_false_r]).
    rewrite Hd, Ht. now destruct (JS.strict_eq n o).
  - reflexivity.
  - now rewrite (truthy_not_strict_eq n o Tn To).
  - assert (Hd : JS.is_date n && JS.is_date o = false)
      by (destruct n; simpl in *; congruence).
    assert (Ht : JS.typeof_object n && JS.typeof_object o = false)
      by (destruct Hprim as [-> | ->];
          [reflexivity | apply andb_false_r]).
    rewrite Hd, Ht. now destruct (JS.strict_eq n o).
Qed.

(** X9.  In a diff-only update with the default algorithm, a field of the
    new document (other than [_id] and [updatedAt]) whose new or original
    value is a primitive other than [null] (the original value being
    [undefined] when the original has no such field, which is so when the
    name is none that every object inherits) is put in the diff as follows:
    with [null] when the original value is truthy and the new one falsy; with
    its new value when that is truthy and differs from the original, the
    string ['null'] being turned into [null]; and not at all otherwise, so
    that a change to a falsy value from a falsy one (a counter set to 0, a
    flag set to false) leaves no entry. *)
Theorem diff_of_a_primitive_field newDoc originalFields f :
  customDiffAlgo opts = None ->
  JS.has_field newDoc f = true ->
  JS.reads_own originalFields f = true ->
  f <> "updatedAt" -> f <> "_id" ->
  JS.typeof_object (JS.lookup_field newDoc f) = false
  \/ JS.typeof_object (JS.lookup_field originalFields f) = false ->
  exists D,
    diffFields deepDiff opts newDoc (VObj originalFields) newDoc
      [("_id", JS.lookup_field newDoc "_id")] = Ok D
    /\ JS.lookup_field D f
       = (let n := JS.lookup_field newDoc f in
          let o := JS.lookup_field originalFields f in
          if JS.truthy o && negb (JS.truthy n) then VNull
          else if JS.truthy n && negb (JS.strict_eq n o) then
            if JS.strict_eq n (VStr "null") then VNull else n
          else VUndefined).
Proof.
  intros Hcustom Hhas _ Hup Hid Hprim.
  destruct (diffFields_lookup deepDiff opts newDoc (VObj originalFields) newDoc)
    with (diff := [("_id", JS.lookup_field newDoc "_id")])
    as (D & HD & Hl); try discriminate.
  exists D. split; [exact HD|]. rewrite Hl. cbv zeta.
  rewrite Hhas. cbn [andb JS.get]. unfold diffAlgo. rewrite Hcustom.
  rewrite (defaultDiffAlgo_primitive f _ _ Hup Hprim).
  assert (Hinit : JS.lookup_field [("_id", JS.lookup_field newDoc "_id")] f
                  = VUndefined).
  { cbn [JS.lookup_field]. destruct (String.eqb_spec "_id" f); congruence. }
  rewrite Hinit.
  set (n := JS.lookup_field newDoc f). set (o := JS.lookup_field originalFields f).
  destruct (JS.truthy o && negb (JS.truthy n)); [reflexivity|].
  destruct (JS.strict_eq n o); cbn [JS.truthy negb].
  - now rewrite andb_false_r.
  - rewrite andb_true_r. now destruct (JS.truthy n).
Qed.

(** X10.  In a diff-only update with the default algorithm, a field (other
    than [_id] and [updatedAt]) that holds a date in both documents is put in
    the diff, with the new date, exactly when the two time values differ. *)
Theorem diff_of_a_date_field newDoc originalFields f t t' :
  customDiffAlgo opts = None ->
  JS.has_field newDoc f = true ->
  f <> "updatedAt" -> f <> "_id" ->
  JS.lookup_field newDoc f = VDate t ->
  JS.lookup_field originalFields f = VDate t' ->
  exists D,
    diffFields deepDiff opts newDoc (VObj originalFields) newDoc
      [("_id", JS.lookup_field newDoc "_id")] = Ok D
    /\ JS.lookup_field D f = if t =? t' then VUndefined else VDate t.
Proof.
  intros Hcustom Hhas Hup Hid Hn Ho.
  destruct (diffFields_lookup deepDiff opts newDoc (VObj originalFields) newDoc)
    with (diff := [("_id", JS.lookup_field newDoc "_id")])
    as (D & HD & Hl); try discriminate.
  exists D. split; [exact HD|]. rewrite Hl. cbv zeta.
  rewrite Hhas. cbn [andb JS.get]. unfold diffAlgo, defaultDiffAlgo.
  rewrite Hcustom, Hn, Ho. apply String.eqb_neq in Hup. rewrite Hup.
  cbn [JS.truthy JS.is_date JS.getTime andb negb].
  destruct (t =? t'); cbn [negb JS.truthy JS.strict_eq]; [|reflexivity].
  cbn [JS.lookup_field]. destruct (String.eqb_spec "_id" f); congruence.
Qed.

(** X11.  With the default algorithm the diff of a diff-only update never
    has an entry for [updatedAt], whatever the two documents hold for it. *)
Theorem updatedAt_is_never_in_the_diff newDoc originalFields :
  customDiffAlgo opts = None ->
  exists D,
    diffFields deepDiff opts newDoc (VObj originalFields) newDoc
      [("_id", JS.lookup_field newDoc "_id")] = Ok D
    /\ JS.lookup_field D "updatedAt" = VUndefined.
Proof.
  intros Hcustom.
  destruct (diffFields_lookup deepDiff opts newDoc (VObj originalFields) newDoc)
    with (diff := [("_id", JS.lookup_field newDoc "_id")])
    as (D & HD & Hl); try discriminate.
  exists D. split; [exact HD|]. rewrite Hl. cbv zeta.
  unfold diffAlgo, defaultDiffAlgo. rewrite Hcustom.
  cbn [String.eqb Ascii.eqb Bool.eqb JS.truthy]. rewrite andb_false_r.
  reflexivity.
Qed.




End fields.

Lemma diff_of_a_primitive_field_witness :
  let doc := Sample.post_with_small_changes in
  exists D,
    diffFields Sample.deepDiff Sample.diff_only (toObject doc)
      (VObj [("_id", VStr "abc"); ("title", VStr "A"); ("done", VNull);
             ("price", VStr "$5")])
      (toObject doc) [("_id", JS.lookup_field (toObject doc) "_id")] = Ok D
    /\ JS.lookup_field D "count"
       = (let n := JS.lookup_field (toObject doc) "count" in
          let o := JS.lookup_field
                     [("_id", VStr "abc"); ("title", VStr "A"); ("done", VNull);
                      ("price", VStr "$5")] "count" in
          if JS.truthy o && negb (JS.truthy n) then VNull
          else if JS.truthy n && negb (JS.strict_eq n o) then
            if JS.strict_eq n (VStr "null") then VNull else n
          else VUndefined).
Proof.
  apply (diff_of_a_primitive_field Sample.deepDiff Sample.diff_only
           (toObject Sample.post_with_small_changes)
           [("_id", VStr "abc"); ("title", VStr "A"); ("done", VNull);
            ("price", VStr "$5")] "count").
  - reflexivity.
  - reflexivity.
  - reflexivity.
  - discriminate.
  - discriminate.
  - left. reflexivity.
Defined.

Lemma diff_of_a_date_field_witness :
  exists D,
    diffFields Sample.deepDiff Sample.diff_only
      [("_id", VStr "abc"); ("due", VDate 2000)]
      (VObj [("_id", VStr "abc"); ("due", VDate 1000)])
      [("_id", VStr "abc"); ("due", VDate 2000)]
      [("_id", JS.lookup_field [("_id", VStr "abc"); ("due", VDate 2000)] "_id")]
    = Ok D
    /\ JS.lookup_field D "due" = if 2000 =? 1000 then VUndefined else VDate 2000.
Proof.
  apply (diff_of_a_date_field Sample.deepDiff Sample.diff_only
           [("_id", VStr "abc"); ("due", VDate 2000)]
           [("_id", VStr "abc"); ("due", VDate 1000)] "due" 2000 1000).
  - reflexivity.
  - reflexivity.
  - discriminate.
  - discriminate.
  - reflexivity.
  - reflexivity.
Defined.

Lemma updatedAt_is_never_in_the_diff_witness :
  exists D,
    diffFields Sample.deepDiff Sample.diff_only
      [("_id", VStr "abc"); ("updatedAt", VDate 2000)]
      (VObj [("_id", VStr "abc"); ("updatedAt", VDate 1000)])
      [("_id", VStr "abc"); ("updatedAt", VDate 2000)]
      [("_id",
        JS.lookup_field [("_id", VStr "abc"); ("updatedAt", VDate 2000)] "_id")]
    = Ok D
    /\ JS.lookup_field D "updatedAt" = VUndefined.
Proof.
  apply (updatedAt_is_never_in_the_diff Sample.deepDiff Sample.diff_only
           [("_id", VStr "abc"); ("updatedAt", VDate 2000)]
           [("_id", VStr "abc"); ("updatedAt", VDate 1000)]).
  reflexivity.
Defined.

(** ** The history documents of the hooks *)

Section records.

Variable deepDiff : val -> val -> bool -> val.
Variable opts : options.

Lemma assign_put obj k x obj' :
  assign obj k x = Ok obj' -> obj' = JS.put obj k x.
Proof.
  destruct obj; simpl; intros H; try discriminate H; now injection H as <-.
Qed.

Lemma createHistoryDoc_additionalFields doc diff operation collectionName
    additionalFields w h w' :
  createHistoryDoc opts doc diff operation collectionName additionalFields w
    = Ok (h, w') ->
  h !! "additionalFields"
  = match additionalFields with
    | Some fields => Some (HVal (VObj (applyObjectPatch [] fields)))
    | None => None
    end.
Proof.
  intros H.
  destruct (createHistoryDoc_steps opts _ _ _ _ _ _ _ _ H)
    as (sdoc & sdiff & doc' & diff' & h0 & h1 & _ & _ & _ & _ & Hbase
        & _ & Hm & ->).
  destruct additionalFields as [fields|]; [apply lookup_insert_eq|].
  rewrite (addModifiedByInfo_frame _ _ _ _ _ _ Hm) by discriminate.
  rewrite Hbase by discriminate. cbv zeta.
  destruct (includeCollectionName opts);
    repeat (rewrite lookup_insert_ne by discriminate);
    apply lookup_empty.
Qed.

(** X12.  Without [diffOnly] the hook of init keeps no snapshot, so that
    the save of a loaded document, which has none, gives a history document
    whose [diff] is the sanitized full new state and whose [doc] is the empty
    object (both with [__v] set to [undefined]): the original state is not
    recorded.  The operation is ['u'] for a document that is not new. *)
Theorem save_without_diffOnly_has_no_original doc w :
  diffOnly opts = false ->
  _original doc = VUndefined ->
  thrown (pre_save deepDiff opts (post_init opts doc) w) = None ->
  exists snew,
    sanitizeObj (VObj (toObject doc)) = Ok snew
    /\ historyDoc_after (pre_save deepDiff opts (post_init opts doc) w) !! "op"
       = Some (HVal (VStr (if isNew doc then "i" else "u")))
    /\ historyDoc_after (pre_save deepDiff opts (post_init opts doc) w) !! "diff"
       = Some (HVal (JS.put snew "__v" VUndefined))
    /\ (metadata opts = None ->
        historyDoc_after (pre_save deepDiff opts (post_init opts doc) w) !! "doc"
        = Some (HVal (VObj [("__v", VUndefined)]))).
Proof.
  intros Hdiff Horig. unfold post_init. rewrite Hdiff. intros Hthrown.
  destruct (pre_save_full deepDiff opts doc w) as (h & w' & Hc & Hk & Hall).
  { now rewrite Hdiff. }
  { exact Hthrown. }
  destruct (createHistoryDoc_fields opts _ _ _ _ _ _ _ _ Hc)
    as (sdoc & sdiff & doc' & diff' & Hd & Hf & Had & Haf & Hdoc & Hdf & Hop & _).
  cbn [JS.or_else JS.truthy] in Hf.
  exists sdiff. split; [exact Hf|]. split; [|split].
  - rewrite Hk by discriminate. exact Hop.
  - rewrite Hk by discriminate. rewrite Hdf. now rewrite (assign_put _ _ _ _ Haf).
  - intros Hmeta. rewrite (Hall Hmeta), Hdoc.
    rewrite Horig in Hd. vm_compute in Hd. injection Hd as <-.
    vm_compute in Had. now injection Had as <-.
Qed.

(** X13.  In diff-only mode the save of a document that is not new and has
    no snapshot raises a [TypeError] at the first field of the document:
    [next] is not called and nothing is saved.  A save deletes the snapshot,
    so that this is what a second save of a loaded document does. *)
Theorem diff_only_save_without_snapshot_raises doc w :
  diffOnly opts = true ->
  isNew doc = false ->
  toObject doc <> [] ->
  thrown (pre_save deepDiff opts (forget_original doc) w) = Some TypeError
  /\ next_calls (pre_save deepDiff opts (forget_original doc) w) = []
  /\ world_after (pre_save deepDiff opts (forget_original doc) w) = w.
Proof.
  intros Hdiff Hnew Hne. unfold pre_save, _saveHistory, forget_original.
  cbn [isNew _original toObject collection_name]. rewrite Hdiff, Hnew.
  cbn [andb negb]. destruct (toObject doc) as [|[k x] rest]; [contradiction|].
  cbn [diffFields member bind]. repeat split.
Qed.


(** X15.  The history document of an update that raises nothing: its
    operation is ['u']; its [diff] is the sanitized [$set] of the update (the
    empty object when there is none); its [additionalFields] is always the
    empty object; and, metadata apart, its [doc] is the filter of the query
    sanitized twice, once by the hook and once more when the history document
    is built (both with [__v] set to [undefined]). *)
Theorem update_record query set collectionName w :
  thrown (pre_update opts query set collectionName w) = None ->
  exists q1 q2 sset,
    (if JS.truthy query then sanitizeObj query else Ok (VObj [])) = Ok q1
    /\ sanitizeObj (JS.or_else q1 (VObj [])) = Ok q2
    /\ sanitizeObj (JS.or_else set (VObj [])) = Ok sset
    /\ historyDoc_after (pre_update opts query set collectionName w) !! "op"
       = Some (HVal (VStr "u"))
    /\ historyDoc_after (pre_update opts query set collectionName w) !! "diff"
       = Some (HVal (JS.put sset "__v" VUndefined))
    /\ historyDoc_after (pre_update opts query set collectionName w)
         !! "additionalFields"
       = Some (HVal (VObj []))
    /\ (metadata opts = None ->
        historyDoc_after (pre_update opts query set collectionName w) !! "doc"
        = Some (HVal (JS.put q2 "__v" VUndefined))).
Proof.
  unfold pre_update.
  destruct (if JS.truthy query then sanitizeObj query else Ok (VObj []))
    as [q1|e]; [|discriminate].
  destruct (createHistoryDoc opts q1 set "u" collectionName (Some []) w)
    as [[h w']|e] eqn:Hc; [|discriminate].
  intros _.
  destruct (createHistoryDoc_fields opts _ _ _ _ _ _ _ _ Hc)
    as (sdoc & sdiff & doc' & diff' & Hd & Hf & Had & Haf & Hdoc & Hdf & Hop & _).
  exists q1, sdoc, sdiff. split; [reflexivity|]. split; [exact Hd|].
  split; [exact Hf|]. split; [|split; [|split]].
  - rewrite saveHistoryModel_frame by discriminate. exact Hop.
  - rewrite saveHistoryModel_frame by discriminate. rewrite Hdf.
    now rewrite (assign_put _ _ _ _ Haf).
  - rewrite saveHistoryModel_frame by discriminate.
    now rewrite (createHistoryDoc_additionalFields _ _ _ _ _ _ _ _ Hc).
  - intros Hmeta. rewrite saveHistoryModel_doc by exact Hmeta.
    rewrite Hdoc. now rewrite (assign_put _ _ _ _ Had).
Qed.

(** X16.  The history document of a remove that raises nothing: its
    operation is ['r'], its [diff] is the empty object and, metadata apart,
    its [doc] is the sanitized state of the document (both with [__v] set to
    [undefined]); it has no [additionalFields]. *)
Theorem remove_record doc w :
  thrown (pre_remove opts doc w) = None ->
  exists sdoc,
    sanitizeObj (VObj (toObject doc)) = Ok sdoc
    /\ historyDoc_after (pre_remove opts doc w) !! "op" = Some (HVal (VStr "r"))
    /\ historyDoc_after (pre_remove opts doc w) !! "diff"
       = Some (HVal (VObj [("__v", VUndefined)]))
    /\ historyDoc_after (pre_remove opts doc w) !! "additionalFields" = None
    /\ (metadata opts = None ->
        historyDoc_after (pre_remove opts doc w) !! "doc"
        = Some (HVal (JS.put sdoc "__v" VUndefined))).
Proof.
  unfold pre_remove.
  destruct (createHistoryDoc opts (VObj (toObject doc)) (VObj []) "r"
              (collection_name doc) None w) as [[h w']|e] eqn:Hc; [|discriminate].
  intros _.
  destruct (createHistoryDoc_fields opts _ _ _ _ _ _ _ _ Hc)
    as (sdoc & sdiff & doc' & diff' & Hd & Hf & Had & Haf & Hdoc & Hdf & Hop & _).
  cbn [JS.or_else JS.truthy] in Hd, Hf.
  exists sdoc. split; [exact Hd|]. split; [|split; [|split]].
  - rewrite saveHistoryModel_frame by discriminate. exact Hop.
  - rewrite saveHistoryModel_frame by discriminate. rewrite Hdf.
    vm_compute in Hf. injection Hf as <-.
    vm_compute in Haf. now injection Haf as <-.
  - rewrite saveHistoryModel_frame by discriminate.
    now rewrite (createHistoryDoc_additionalFields _ _ _ _ _ _ _ _ Hc).
  - intros Hmeta. rewrite saveHistoryModel_doc by exact Hmeta.
    rewrite Hdoc. now rewrite (assign_put _ _ _ _ Had).
Qed.

(** X17.  Whatever the metadata, the history document of a hook has no
    top-level field beyond the eight that [createHistoryDoc] sets: a metadata
    key the history schema declares is not among the fields of the document
    that is saved. *)
Theorem hooks_write_no_other_field w k :
  ~ In k ["doc"; "diff"; "op"; "date"; "col"; "docId"; "modifiedBy";
          "additionalFields"] ->
  (forall doc, historyDoc_after (pre_save deepDiff opts doc w) !! k = None)
  /\ (forall query set collectionName,
        historyDoc_after (pre_update opts query set collectionName w) !! k = None)
  /\ (forall doc, historyDoc_after (pre_remove opts doc w) !! k = None).
Proof.
  intros Hk.
  assert (Hdoc : k <> "doc") by (intros ->; apply Hk; simpl; tauto).
  split; [|split].
  - intros doc. now apply pre_save_keys.
  - intros query set c. unfold pre_update.
    destruct (if JS.truthy query then sanitizeObj query else Ok (VObj []))
      as [q|e]; [|apply lookup_empty].
    destruct (createHistoryDoc _ _ _ _ _ _ _) as [[h w']|e] eqn:Hc;
      [|apply lookup_empty].
    rewrite saveHistoryModel_frame by exact Hdoc.
    exact (createHistoryDoc_keys opts _ _ _ _ _ _ _ _ k Hc Hk).
  - intros doc. unfold pre_remove.
    destruct (createHistoryDoc _ _ _ _ _ _ _) as [[h w']|e] eqn:Hc;
      [|apply lookup_empty].
    rewrite saveHistoryModel_frame by exact Hdoc.
    exact (createHistoryDoc_keys opts _ _ _ _ _ _ _ _ k Hc Hk).
Qed.

End records.

Lemma save_without_diffOnly_has_no_original_witness :
  let doc := forget_original Sample.post_retitled in
  let r :=
    pre_save Sample.deepDiff Sample.no_options
      (post_init Sample.no_options doc) Sample.empty_world in
  exists snew,
    sanitizeObj (VObj (toObject doc)) = Ok snew
    /\ historyDoc_after r !! "op"
       = Some (HVal (VStr (if isNew doc then "i" else "u")))
    /\ historyDoc_after r !! "diff" = Some (HVal (JS.put snew "__v" VUndefined))
    /\ (metadata Sample.no_options = None ->
        historyDoc_after r !! "doc" = Some (HVal (VObj [("__v", VUndefined)]))).
Proof.
  apply (save_without_diffOnly_has_no_original Sample.deepDiff Sample.no_options
           (forget_original Sample.post_retitled) Sample.empty_world).
  - reflexivity.
  - reflexivity.
  - vm_compute. reflexivity.
Defined.

Lemma diff_only_save_without_snapshot_raises_witness :
  let r :=
    pre_save Sample.deepDiff Sample.diff_only
      (forget_original Sample.post_retitled) Sample.empty_world in
  thrown r = Some TypeError
  /\ next_calls r = []
  /\ world_after r = Sample.empty_world.
Proof.
  apply (diff_only_save_without_snapshot_raises Sample.deepDiff Sample.diff_only
           Sample.post_retitled Sample.empty_world).
  - reflexivity.
  - reflexivity.
  - discriminate.
Defined.


Lemma update_record_witness :
  let query := Sample.filter_with_operators in
  let set := VObj [("title", VStr "B")] in
  let r := pre_update Sample.no_options query set "posts" Sample.empty_world in
  exists q1 q2 sset,
    (if JS.truthy query then sanitizeObj query else Ok (VObj [])) = Ok q1
    /\ sanitizeObj (JS.or_else q1 (VObj [])) = Ok q2
    /\ sanitizeObj (JS.or_else set (VObj [])) = Ok sset
    /\ historyDoc_after r !! "op" = Some (HVal (VStr "u"))
    /\ historyDoc_after r !! "diff" = Some (HVal (JS.put sset "__v" VUndefined))
    /\ historyDoc_after r !! "additionalFields" = Some (HVal (VObj []))
    /\ (metadata Sample.no_options = None ->
        historyDoc_after r !! "doc" = Some (HVal (JS.put q2 "__v" VUndefined))).
Proof.
  apply (update_record Sample.no_options Sample.filter_with_operators
           (VObj [("title", VStr "B")]) "posts" Sample.empty_world).
  vm_compute. reflexivity.
Defined.

(** The filter of the update above is stored with both its operators
    stripped of their dollar: one by each of the two sanitizations. *)
Example update_record_filter :
  historyDoc_after
    (pre_update Sample.no_options Sample.filter_with_operators
       (VObj [("title", VStr "B")]) "posts" Sample.empty_world) !! "doc"
  = Some (HVal (VObj [("_id", VObj [("in", VArr [VStr "x"])]);
                      ("owner", VObj [("ne", VStr "bob")]);
                      ("__v", VUndefined)])).
Proof. vm_compute. reflexivity. Qed.

Lemma remove_record_witness :
  let doc := Sample.post_unchanged in
  let r := pre_remove Sample.no_options doc Sample.empty_world in
  exists sdoc,
    sanitizeObj (VObj (toObject doc)) = Ok sdoc
    /\ historyDoc_after r !! "op" = Some (HVal (VStr "r"))
    /\ historyDoc_after r !! "diff" = Some (HVal (VObj [("__v", VUndefined)]))
    /\ historyDoc_after r !! "additionalFields" = None
    /\ (metadata Sample.no_options = None ->
        historyDoc_after r !! "doc" = Some (HVal (JS.put sdoc "__v" VUndefined))).
Proof.
  apply (remove_record Sample.no_options Sample.post_unchanged
           Sample.empty_world).
  vm_compute. reflexivity.
Defined.

Lemma hooks_write_no_other_field_witness :
  (forall doc,
     historyDoc_after
       (pre_save Sample.deepDiff Sample.with_title_metadata doc
          Sample.empty_world) !! "title" = None)
  /\ (forall query set collectionName,
        historyDoc_after
          (pre_update Sample.with_title_metadata query set collectionName
             Sample.empty_world) !! "title" = None)
  /\ (forall doc,
        historyDoc_after
          (pre_remove Sample.with_title_metadata doc Sample.empty_world)
          !! "title" = None).
Proof.
  apply (hooks_write_no_other_field Sample.deepDiff Sample.with_title_metadata
           Sample.empty_world "title").
  simpl. intuition discriminate.
Defined.

(** ** The actor, further *)

Section actor_more.

Variable opts : options.

(** X18.  With actor tracking and no blacklist, the history document holds
    under [modifiedBy] the user of the request context when that is truthy,
    and otherwise what the request context held at the latest [findOne],
    whoever made it; building the history document changes nothing then. *)
Theorem actor_is_the_context_user_or_the_last_findOne mb w0 doc diff operation
    collectionName additionalFields w h w' :
  modifiedBy opts = Some mb ->
  match blacklist mb with Some (_ :: _) => False | _ => True end ->
  currentUser w = currentUser (pre_findOne opts w0) ->
  createHistoryDoc opts doc diff operation collectionName additionalFields w
    = Ok (h, w') ->
  h !! "modifiedBy"
  = Some (if htruthy (contextService_get w (contextPath mb))
          then contextService_get w (contextPath mb)
          else contextService_get w0 (contextPath mb))
  /\ w' = w.
Proof.
  intros Hmb Hbl Hcur Hc.
  destruct (createHistoryDoc_actor opts _ _ _ _ _ _ _ _ Hc)
    as (h0 & h1 & Hadd & Hfield).
  rewrite Hfield.
  rewrite (addModifiedByInfo_unfold opts mb) in Hadd by assumption.
  cbv zeta in Hadd. unfold pre_findOne in Hcur. rewrite Hmb in Hcur.
  cbn [currentUser with_currentUser] in Hcur. rewrite Hcur in Hadd.
  assert (Hr : match blacklist mb with
               | Some (k :: ks) =>
                   unsetKeys (k :: ks)
                     (if negb (htruthy (contextService_get w (contextPath mb)))
                      then contextService_get w0 (contextPath mb)
                      else contextService_get w (contextPath mb)) w
               | _ =>
                   Ok (if negb (htruthy (contextService_get w (contextPath mb)))
                       then contextService_get w0 (contextPath mb)
                       else contextService_get w (contextPath mb), w)
               end
               = Ok (if negb (htruthy (contextService_get w (contextPath mb)))
                     then contextService_get w0 (contextPath mb)
                     else contextService_get w (contextPath mb), w)).
  { destruct (blacklist mb) as [[|k ks]|]; [reflexivity | contradiction | reflexivity]. }
  rewrite Hr in Hadd. cbn [bind fst snd] in Hadd. injection Hadd as <- <-.
  split; [|reflexivity]. rewrite lookup_insert_eq.
  now destruct (htruthy (contextService_get w (contextPath mb))).
Qed.

Lemma createHistoryDoc_no_actor doc diff operation collectionName
    additionalFields w h w' :
  modifiedBy opts = None ->
  createHistoryDoc opts doc diff operation collectionName additionalFields w
    = Ok (h, w') ->
  h !! "modifiedBy" = None.
Proof.
  intros Hnone H.
  destruct (createHistoryDoc_steps opts _ _ _ _ _ _ _ _ H)
    as (sdoc & sdiff & doc' & diff' & h0 & h1 & _ & _ & _ & _ & Hbase
        & _ & Hm & ->).
  unfold addModifiedByInfo in Hm. rewrite Hnone in Hm. injection Hm as <- <-.
  assert (Hh0 : h0 !! "modifiedBy" = None).
  { rewrite Hbase by discriminate. cbv zeta.
    destruct (includeCollectionName opts);
      repeat (rewrite lookup_insert_ne by discriminate);
      apply lookup_empty. }
  destruct additionalFields; [|exact Hh0].
  now rewrite lookup_insert_ne by discriminate.
Qed.

(** X19.  Building a history document changes nothing in the world but,
    when there is a blacklist, the object of the actor in the heap (the
    actor, when an object, being held in the heap): the request context,
    [currentUser], the models, the records saved and every object of the heap
    other than the one the history document holds under [modifiedBy] are as
    before.  Without a blacklist nothing at all changes, and without actor
    tracking the document has no [modifiedBy]. *)
Theorem createHistoryDoc_changes_the_actor_only doc diff operation
    collectionName additionalFields w h w' :
  actors_in_heap w ->
  createHistoryDoc opts doc diff operation collectionName additionalFields w
    = Ok (h, w') ->
  only_heap_differs w w'
  /\ (forall l, h !! "modifiedBy" <> Some (HRef l) ->
        heap w' !! l = heap w !! l)
  /\ (match modifiedBy opts with
      | Some mb =>
          match blacklist mb with Some (_ :: _) => False | _ => True end
      | None => True
      end -> w' = w)
  /\ (modifiedBy opts = None -> h !! "modifiedBy" = None).
Proof.
  intros _ Hc.
  destruct (createHistoryDoc_world opts _ _ _ _ _ _ _ _ Hc)
    as (Hw & Hheap & Hsame).
  split; [exact Hw|]. split; [exact Hheap|]. split; [exact Hsame|].
  intros Hnone. exact (createHistoryDoc_no_actor _ _ _ _ _ _ _ _ Hnone Hc).
Qed.

End actor_more.

(** ** Patches *)

Section patches.

Lemma has_field_In fields k :
  JS.has_field fields k = true -> In k (map fst fields).
Proof.
  induction fields as [|[k0 v0] rest IH]; simpl; [discriminate|].
  destruct (String.eqb_spec k0 k) as [->|]; simpl; [now left|].
  intros H. right. now apply IH.
Qed.

(** X20.  [applyObjectPatch] gives every key of the patch the value the
    patch has for it and leaves the other keys of the document as they are;
    on the empty document it gives the patch itself. *)
Theorem applyObjectPatch_lookup patch : forall doc,
  NoDup (map fst patch) ->
  (forall k,
     JS.lookup_field (applyObjectPatch doc patch) k
     = if JS.has_field patch k then JS.lookup_field patch k
       else JS.lookup_field doc k)
  /\ applyObjectPatch [] patch = patch.
Proof.
  intros doc Hnd. split.
  - revert doc. induction patch as [|[k0 v0] rest IH]; intros doc k; [reflexivity|].
    cbn [applyObjectPatch JS.has_field JS.lookup_field].
    apply NoDup_cons in Hnd as [Hk0 Hrest].
    rewrite (IH Hrest), lookup_assign_field.
    destruct (String.eqb_spec k0 k) as [->|Hne]; cbn [orb]; [|reflexivity].
    destruct (JS.has_field rest k) eqn:E; [|reflexivity].
    exfalso. apply Hk0. apply list_elem_of_In. cbn [fst]. now apply has_field_In.
  - exact (build_object_distinct patch [] Hnd).
Qed.

End patches.

Lemma applyObjectPatch_lookup_witness :
  (forall k,
     JS.lookup_field
       (applyObjectPatch [("_id", VStr "abc"); ("title", VStr "A")]
          [("title", VStr "B"); ("tags", VArr [])]) k
     = if JS.has_field [("title", VStr "B"); ("tags", VArr [])] k
       then JS.lookup_field [("title", VStr "B"); ("tags", VArr [])] k
       else JS.lookup_field [("_id", VStr "abc"); ("title", VStr "A")] k)
  /\ applyObjectPatch [] [("title", VStr "B"); ("tags", VArr [])]
     = [("title", VStr "B"); ("tags", VArr [])].
Proof.
  apply (applyObjectPatch_lookup [("title", VStr "B"); ("tags", VArr [])]
           [("_id", VStr "abc"); ("title", VStr "A")]).
  apply NoDup_cons. split.
  - intros H. apply list_elem_of_In in H. simpl in H.
    destruct H as [H|[]]. discriminate H.
  - apply NoDup_singleton.
Defined.

(** ** The sanitizer as a JSON round trip *)

Section plain_values.

Lemma text_plain v : JSON.text (plain v) = JSON.text v.
Proof.
  induction v as [| |b|n|s|t|fields IH|items IH] using val_induction;
    try reflexivity.
  - cbn [plain JSON.text]. f_equal. f_equal. f_equal.
    induction IH as [|[k x] rest Hx _ IHrest]; [reflexivity|].
    cbn [snd] in Hx.
    destruct x; cbn [plain] in *; try (rewrite IHrest; reflexivity);
      try (rewrite IHrest, <- Hx; reflexivity).
  - cbn [plain JSON.text]. f_equal. f_equal. f_equal.
    induction IH as [|x rest Hx _ IHrest]; [reflexivity|].
    now rewrite Hx, IHrest.
Qed.

Lemma plain_members_keys fields k :
  In k (map fst
          ((fix members (fs : list (string * val)) : list (string * val) :=
              match fs with
              | [] => []
              | (k, VUndefined) :: rest => members rest
              | (k, x) :: rest => (k, plain x) :: members rest
              end) fields)) ->
  In k (map fst fields).
Proof.
  induction fields as [|[k0 x] rest IH]; [intros []|].
  destruct x; cbn [map fst In]; intros H;
    try (destruct H as [H|H]; [now left | right; now apply IH]).
  right. now apply IH.
Qed.

Lemma plain_normal v : js_value v -> json_normal (plain v).
Proof.
  induction v as [| |b|n|s|t|fields IH|items IH] using val_induction;
    intros Hv; try (cbn [plain]; constructor).
  - inversion Hv as [| | | | | |fields' Hvals Hkeys|]; subst fields'.
    clear Hv Hkeys.
    induction IH as [|[k x] rest Hx _ IHrest]; [constructor|].
    apply Forall_cons in Hvals as [Hxv Hrest]. cbn [snd] in *.
    destruct x; try (constructor; [now apply Hx | now apply IHrest]).
    now apply IHrest.
  - inversion Hv as [| | | | | |fields' Hvals Hkeys|]; subst fields'.
    clear Hv IH Hvals.
    induction fields as [|[k x] rest IHrest]; [constructor|].
    cbn [map fst] in Hkeys. apply NoDup_cons in Hkeys as [Hk Hrest].
    destruct x; try (cbn [map fst]; apply NoDup_cons; split;
                     [ intros Hin; apply Hk; apply list_elem_of_In;
                       apply list_elem_of_In in Hin;
                       now apply plain_members_keys
                     | now apply IHrest ]).
    now apply IHrest.
  - inversion Hv as [| | | | | | |items' Hvals]; subst items'. clear Hv.
    induction IH as [|x rest Hx _ IHrest]; [constructor|].
    apply Forall_cons in Hvals as [Hxv Hrest].
    constructor; [now apply Hx | now apply IHrest].
Qed.

Lemma plain_of_normal y : json_normal y -> plain y = y.
Proof.
  induction y as [| |b|n|s|t|fields IH|items IH] using val_induction;
    intros Hn; try reflexivity; try (inversion Hn; fail).
  - inversion Hn as [| | | |fields' Hvals _|]; subst fields'. clear Hn.
    cbn [plain]. f_equal.
    induction IH as [|[k x0] rest Hx0 _ IHrest]; [reflexivity|].
    apply Forall_cons in Hvals as [Hv Hrest]. cbn [snd] in *.
    rewrite (IHrest Hrest).
    destruct x0; try (now rewrite (Hx0 Hv)); inversion Hv.
  - inversion Hn as [| | | | |items' Hvals]; subst items'. clear Hn.
    cbn [plain]. f_equal.
    induction IH as [|x0 rest Hx0 _ IHrest]; [reflexivity|].
    apply Forall_cons in Hvals as [Hv Hrest].
    now rewrite (Hx0 Hv), (IHrest Hrest).
Qed.

(** X21.  Whatever [sanitizeObj] returns is plain JSON data: it holds no
    [undefined] and no date, none of its objects has a key twice, and
    writing it as JSON and reading it back gives it again. *)
Theorem sanitizeObj_gives_plain_json x y :
  sanitizeObj x = Ok y ->
  json_normal y /\ plain y = y /\ JSON.parse (JSON.text y) = Some y.
Proof.
  intros Hx. pose proof (sanitizeObj_normal x y Hx) as Hn.
  split; [exact Hn|]. split; [now apply plain_of_normal | now apply parse_text].
Qed.

(** X22.  On a value that is made of [null], booleans, safe integers,
    strings, valid dates, arrays and plain objects (with or without
    properties whose value is [undefined]), and in whose JSON text no double
    quote and no quote is followed by a dollar, [sanitizeObj] is the JSON
    round trip and raises nothing: every date has become its ISO text, every
    property whose value is [undefined] is gone (an [undefined] item of an
    array is [null]), and nothing else has changed. *)
Theorem sanitizeObj_of_a_clean_value x :
  x <> VUndefined ->
  js_value x ->
  occurs dquote_dollar (JSON.text x) = false ->
  occurs squote_dollar (JSON.text x) = false ->
  sanitizeObj x = Ok (plain x).
Proof.
  intros Hu Hv Hd Hs. unfold sanitizeObj.
  assert (JSON.stringify x = Some (JSON.text x)) as ->
    by (destruct x; [contradiction | reflexivity ..]).
  rewrite (replace_absent dquote_dollar) by exact Hd.
  rewrite (replace_absent squote_dollar) by exact Hs.
  rewrite <- (text_plain x). now rewrite (parse_text _ (plain_normal x Hv)).
Qed.

End plain_values.

(** ** Clearing the history *)

Section clearing.

Variable deepDiff : val -> val -> bool -> val.
Variable opts : options.

(** X23.  [clearHistory] after a save that has added a record, called on
    a model whose history collection is that of the saved document (the same
    model, or any model when a custom collection name is shared): when the
    store does the removal, the record just saved is gone with every record
    of that history model, the records of the other history models are left,
    and [next] is called without error; when the store refuses, no record is
    removed and [next] gets the error of the store. *)
Theorem clearHistory_after_a_save doc collectionName w :
  hm.historyCollectionName collectionName (customCollectionName opts)
  = hm.historyCollectionName (collection_name doc) (customCollectionName opts) ->
  persisted (world_after (pre_save deepDiff opts doc w)) <> persisted w ->
  let w1 := world_after (pre_save deepDiff opts doc w) in
  exists m,
    historyModel opts collectionName w1 = (Some m, w1)
    /\ In (modelName m) (map fst (persisted w1))
    /\ thrown (clearHistory opts collectionName w1) = None
    /\ match removeError w1 (modelName m) with
       | None =>
           persisted (world_after (clearHistory opts collectionName w1))
           = List.filter (fun r => negb (String.eqb (fst r) (modelName m)))
               (persisted w)
           /\ next_calls (clearHistory opts collectionName w1) = [VNull]
       | Some err =>
           persisted (world_after (clearHistory opts collectionName w1))
           = persisted w1
           /\ next_calls (clearHistory opts collectionName w1) = [err]
       end.
Proof.
  intros Hname Hsaved w1. subst w1.
  destruct (pre_save_outcome deepDiff opts doc w)
    as (_ & _ & [(m & Hm & _ & Hp & _)
                | [(m & err & _ & _ & Hp & _)
                  | [(err & _ & _ & _ & Hp) | (_ & _ & Hp)]]]);
    try contradiction.
  unfold historyModel in Hm. rewrite <- Hname in Hm.
  exists m. split; [exact Hm|].
  split. { rewrite Hp, map_app, in_app_iff. right. now left. }
  unfold clearHistory. rewrite Hm.
  destruct (removeError _ (modelName m)) as [err|];
    cbn [world_after next_calls thrown with_persisted persisted];
    [repeat split|].
  split; [reflexivity|]. split; [|reflexivity].
  rewrite Hp, List.filter_app. cbn [List.filter fst].
  rewrite String.eqb_refl. cbn [negb]. apply app_nil_r.
Qed.

End clearing.

Lemma actor_is_the_context_user_or_the_last_findOne_witness :
  match createHistoryDoc Sample.with_actor VUndefined
          (VObj (toObject Sample.new_post)) "i" "posts" None
          Sample.world_after_findOne with
  | Ok (h, w') =>
      h !! "modifiedBy"
      = Some (if htruthy (contextService_get Sample.world_after_findOne
                            "request:userInfo")
              then contextService_get Sample.world_after_findOne
                     "request:userInfo"
              else contextService_get Sample.world_with_user "request:userInfo")
      /\ w' = Sample.world_after_findOne
  | Throw _ => False
  end.
Proof.
  destruct (createHistoryDoc Sample.with_actor VUndefined
              (VObj (toObject Sample.new_post)) "i" "posts" None
              Sample.world_after_findOne) as [[h w']|e] eqn:E.
  - apply (actor_is_the_context_user_or_the_last_findOne Sample.with_actor
             {| schemaType := TMixed; contextPath := "request:userInfo";
                blacklist := None |}
             Sample.world_with_user VUndefined (VObj (toObject Sample.new_post))
             "i" "posts" None Sample.world_after_findOne h w').
    + reflexivity.
    + exact I.
    + vm_compute. reflexivity.
    + exact E.
  - assert (Hok : is_ok (createHistoryDoc Sample.with_actor VUndefined
                           (VObj (toObject Sample.new_post)) "i" "posts" None
                           Sample.world_after_findOne) = true)
      by (vm_compute; reflexivity).
    rewrite E in Hok. discriminate Hok.
Defined.

Lemma createHistoryDoc_changes_the_actor_only_witness :
  match createHistoryDoc Sample.with_blacklist VUndefined
          (VObj (toObject Sample.new_post)) "i" "posts" None
          Sample.world_with_user with
  | Ok (h, w') =>
      only_heap_differs Sample.world_with_user w'
      /\ (forall l, h !! "modifiedBy" <> Some (HRef l) ->
            heap w' !! l = heap Sample.world_with_user !! l)
      /\ (match modifiedBy Sample.with_blacklist with
          | Some mb =>
              match blacklist mb with Some (_ :: _) => False | _ => True end
          | None => True
          end -> w' = Sample.world_with_user)
      /\ (modifiedBy Sample.with_blacklist = None -> h !! "modifiedBy" = None)
  | Throw _ => False
  end.
Proof.
  destruct (createHistoryDoc Sample.with_blacklist VUndefined
              (VObj (toObject Sample.new_post)) "i" "posts" None
              Sample.world_with_user) as [[h w']|e] eqn:E.
  - exact (createHistoryDoc_changes_the_actor_only Sample.with_blacklist
             VUndefined (VObj (toObject Sample.new_post)) "i" "posts" None
             Sample.world_with_user h w' world_with_user_in_heap E).
  - assert (Hok : is_ok (createHistoryDoc Sample.with_blacklist VUndefined
                           (VObj (toObject Sample.new_post)) "i" "posts" None
                           Sample.world_with_user) = true)
      by (vm_compute; reflexivity).
    rewrite E in Hok. discriminate Hok.
Defined.

Lemma sanitizeObj_gives_plain_json_witness :
  match sanitizeObj Sample.task with
  | Ok y => json_normal y /\ plain y = y /\ JSON.parse (JSON.text y) = Some y
  | Throw _ => False
  end.
Proof.
  destruct (sanitizeObj Sample.task) as [y|e] eqn:E.
  - exact (sanitizeObj_gives_plain_json Sample.task y E).
  - assert (Hok : is_ok (sanitizeObj Sample.task) = true)
      by (vm_compute; reflexivity).
    rewrite E in Hok. discriminate Hok.
Defined.

Lemma sanitizeObj_of_a_clean_value_witness :
  sanitizeObj Sample.task = Ok (plain Sample.task).
Proof.
  apply (sanitizeObj_of_a_clean_value Sample.task).
  - discriminate.
  - constructor.
    + repeat constructor.
    + cbn [map fst].
      repeat (apply NoDup_cons; split;
              [ let H := fresh in
                intros H; apply list_elem_of_In in H; simpl in H;
                intuition discriminate
              | ]).
      constructor.
  - vm_compute. reflexivity.
  - vm_compute. reflexivity.
Defined.

(** What the sanitized task is. *)
Example sanitized_task :
  sanitizeObj Sample.task
  = Ok (VObj [("_id", VStr "abc"); ("due", VStr "1970-01-02T00:00:00.000Z")]).
Proof. vm_compute. reflexivity. Qed.

Lemma clearHistory_after_a_save_witness :
  let w1 :=
    world_after
      (pre_save Sample.deepDiff Sample.no_options Sample.new_post
         Sample.empty_world) in
  exists m,
    historyModel Sample.no_options "posts" w1 = (Some m, w1)
    /\ In (modelName m) (map fst (persisted w1))
    /\ thrown (clearHistory Sample.no_options "posts" w1) = None
    /\ match removeError w1 (modelName m) with
       | None =>
           persisted (world_after (clearHistory Sample.no_options "posts" w1))
           = List.filter (fun r => negb (String.eqb (fst r) (modelName m)))
               (persisted Sample.empty_world)
           /\ next_calls (clearHistory Sample.no_options "posts" w1) = [VNull]
       | Some err =>
           persisted (world_after (clearHistory Sample.no_options "posts" w1))
           = persisted w1
           /\ next_calls (clearHistory Sample.no_options "posts" w1) = [err]
       end.
Proof.
  apply (clearHistory_after_a_save Sample.deepDiff Sample.no_options
           Sample.new_post "posts" Sample.empty_world).
  - reflexivity.
  - vm_compute. discriminate.
Defined.

(** ** The date, the collection and the models of the hooks *)

Section stamps.

Variable deepDiff : val -> val -> bool -> val.
Variable opts : options.

Lemma stamped_after_createHistoryDoc c originalDoc newDoc doc diff operation
    additional w :
  let r :=
    match createHistoryDoc opts doc diff operation c additional w with
    | Ok (historyDoc, w') =>
        saveHistoryModel opts originalDoc newDoc historyDoc c w'
    | Throw e => raise e w
    end in
  next_calls r <> [] ->
  historyDoc_after r !! "date" = Some (HVal (VDate (now w)))
  /\ historyDoc_after r !! "col"
     = (if includeCollectionName opts then Some (HVal (VStr c)) else None).
Proof.
  destruct (createHistoryDoc _ _ _ _ _ _ _) as [[h w']|e] eqn:Hc;
    cbv zeta; [|intros H; now contradiction H].
  intros _.
  destruct (createHistoryDoc_fields opts _ _ _ _ _ _ _ _ Hc)
    as (sdoc & sdiff & doc' & diff' & _ & _ & _ & _ & _ & _ & _ & Hdate & Hcol & _).
  rewrite !saveHistoryModel_frame by discriminate. now split.
Qed.

(** X24.  The history document of a hook that reaches [next] carries, as
    [date], the time at which the hook ran and, as [col], the name of the
    collection of the model (not that of its history collection) when
    [includeCollectionName] is set; it has no [col] otherwise. *)
Theorem hooks_stamp_date_and_collection w :
  (forall doc,
     next_calls (pre_save deepDiff opts doc w) <> [] ->
     historyDoc_after (pre_save deepDiff opts doc w) !! "date"
     = Some (HVal (VDate (now w)))
     /\ historyDoc_after (pre_save deepDiff opts doc w) !! "col"
        = (if includeCollectionName opts
           then Some (HVal (VStr (collection_name doc))) else None))
  /\ (forall query set collectionName,
        next_calls (pre_update opts query set collectionName w) <> [] ->
        historyDoc_after (pre_update opts query set collectionName w) !! "date"
        = Some (HVal (VDate (now w)))
        /\ historyDoc_after (pre_update opts query set collectionName w) !! "col"
           = (if includeCollectionName opts
              then Some (HVal (VStr collectionName)) else None))
  /\ (forall doc,
        next_calls (pre_remove opts doc w) <> [] ->
        historyDoc_after (pre_remove opts doc w) !! "date"
        = Some (HVal (VDate (now w)))
        /\ historyDoc_after (pre_remove opts doc w) !! "col"
           = (if includeCollectionName opts
              then Some (HVal (VStr (collection_name doc))) else None)).
Proof.
  split; [|split].
  - intros doc. unfold pre_save, _saveHistory.
    destruct (diffOnly opts && negb (isNew doc)).
    + destruct (diffFields _ _ _ _ _ _) as [D|e];
        [|intros H; now contradiction H].
      apply stamped_after_createHistoryDoc.
    + apply stamped_after_createHistoryDoc.
  - intros query set c. unfold pre_update.
    destruct (if JS.truthy query then sanitizeObj query else Ok (VObj []))
      as [q|e]; [|intros H; now contradiction H].
    apply stamped_after_createHistoryDoc.
  - intros doc. unfold pre_remove. apply stamped_after_createHistoryDoc.
Qed.

(** The models after [saveHistoryModel]: those before it, or those after a
    call of [HistoryModel] for the history collection. *)
Lemma saveHistoryModel_models originalDoc newDoc historyDoc c w :
  let r := saveHistoryModel opts originalDoc newDoc historyDoc c w in
  exists w1,
    (w1 = w
     \/ w1 = snd (hm.HistoryModel
                   (hm.historyCollectionName c (customCollectionName opts))
                   opts w))
    /\ historyModels (world_after r) = historyModels w1
    /\ registry (world_after r) = registry w1.
Proof.
  assert (Hsave : forall h,
            historyModels (world_after (saveRecord opts h c w))
            = historyModels
                (snd (hm.HistoryModel
                        (hm.historyCollectionName c (customCollectionName opts))
                        opts w))
            /\ registry (world_after (saveRecord opts h c w))
               = registry
                   (snd (hm.HistoryModel
                           (hm.historyCollectionName c (customCollectionName opts))
                           opts w))).
  { intros h. unfold saveRecord.
    destruct (hm.HistoryModel _ opts w) as [[m|] w1]; [|split; reflexivity].
    destruct (saveError w1 (modelName m) h); split; reflexivity. }
  cbv zeta. unfold saveHistoryModel.
  destruct (metadata opts) as [ms|].
  - cbn [world_after].
    destruct (final (setMetadata ms originalDoc newDoc _)) as [[err d]|].
    + destruct (JS.truthy err).
      * exists w. split; [now left | split; reflexivity].
      * eexists. split; [right; reflexivity | apply Hsave].
    + exists w. split; [now left | split; reflexivity].
  - eexists. split; [right; reflexivity | apply Hsave].
Qed.

Lemma registered_once_after_createHistoryDoc c originalDoc newDoc doc diff
    operation additional w :
  NoDup (map modelName (registry w)) ->
  (forall m, In m (registry w) -> historyModels w !! modelName m <> None) ->
  let r :=
    match createHistoryDoc opts doc diff operation c additional w with
    | Ok (historyDoc, w') =>
        saveHistoryModel opts originalDoc newDoc historyDoc c w'
    | Throw e => raise e w
    end in
  NoDup (map modelName (registry (world_after r)))
  /\ (forall m, In m (registry (world_after r)) ->
        historyModels (world_after r) !! modelName m <> None).
Proof.
  intros Hnd Hreg.
  destruct (createHistoryDoc _ _ _ _ _ _ _) as [[h w']|e] eqn:Hc;
    cbv zeta; [|now split].
  destruct (createHistoryDoc_world opts _ _ _ _ _ _ _ _ Hc)
    as [(_ & _ & _ & Hm & Hr & _) _].
  assert (Hnd' : NoDup (map modelName (registry w'))) by now rewrite Hr.
  assert (Hreg' : forall m, In m (registry w') ->
                    historyModels w' !! modelName m <> None).
  { intros m. rewrite Hr, Hm. apply Hreg. }
  destruct (saveHistoryModel_models originalDoc newDoc h c w')
    as (w1 & [-> | ->] & -> & ->).
  - now split.
  - exact (HistoryModel_registry _ opts w' Hnd' Hreg').
Qed.

(** X25.  The hooks register no name with mongoose twice either: when the
    models registered so far have different names and are all in the cache,
    this is still so after a hook of save, update or remove. *)
Theorem hooks_register_a_name_once w :
  NoDup (map modelName (registry w)) ->
  (forall m, In m (registry w) -> historyModels w !! modelName m <> None) ->
  let kept (r : outcome) :=
    NoDup (map modelName (registry (world_after r)))
    /\ (forall m, In m (registry (world_after r)) ->
          historyModels (world_after r) !! modelName m <> None) in
  (forall doc, kept (pre_save deepDiff opts doc w))
  /\ (forall query set collectionName,
        kept (pre_update opts query set collectionName w))
  /\ (forall doc, kept (pre_remove opts doc w)).
Proof.
  intros Hnd Hreg kept. subst kept. cbv beta.
  split; [|split].
  - intros doc. unfold pre_save, _saveHistory.
    destruct (diffOnly opts && negb (isNew doc)).
    + destruct (diffFields _ _ _ _ _ _) as [D|e]; [|now split].
      now apply registered_once_after_createHistoryDoc.
    + now apply registered_once_after_createHistoryDoc.
  - intros query set c. unfold pre_update.
    destruct (if JS.truthy query then sanitizeObj query else Ok (VObj []))
      as [q|e]; [|now split].
    now apply registered_once_after_createHistoryDoc.
  - intros doc. unfold pre_remove.
    now apply registered_once_after_createHistoryDoc.
Qed.

End stamps.

Lemma hooks_register_a_name_once_witness :
  let kept (r : outcome) :=
    NoDup (map modelName (registry (world_after r)))
    /\ (forall m, In m (registry (world_after r)) ->
          historyModels (world_after r) !! modelName m <> None) in
  (forall doc,
     kept (pre_save Sample.deepDiff Sample.no_options doc Sample.empty_world))
  /\ (forall query set collectionName,
        kept (pre_update Sample.no_options query set collectionName
                Sample.empty_world))
  /\ (forall doc, kept (pre_remove Sample.no_options doc Sample.empty_world)).
Proof.
  apply (hooks_register_a_name_once Sample.deepDiff Sample.no_options
           Sample.empty_world).
  - simpl. constructor.
  - simpl. intros m [].
Defined.

(** The history document of the save of a new post by a plugin that
    includes the collection name. *)
Example stamped_new_post :
  let opts :=
    {| customCollectionName := Some "audit"; customDiffAlgo := None;
       diffOnly := false; metadata := None; modifiedBy := None;
       includeCollectionName := true; indexes := None;
       historyConnection := None |} in
  let r := pre_save Sample.deepDiff opts Sample.new_post Sample.empty_world in
  historyDoc_after r !! "date" = Some (HVal (VDate 1000))
  /\ historyDoc_after r !! "col" = Some (HVal (VStr "posts"))
  /\ map fst (persisted (world_after r)) = ["audit"].
Proof. vm_compute. repeat split. Qed.

(** ** JSON data with repeated keys read back *)

Section data.

Lemma merge_obj fields :
  merge (VObj fields)
  = VObj (JSON.build_object []
            (map (fun kv => (fst kv, merge (snd kv))) fields)).
Proof.
  cbn [merge]. do 2 f_equal.
  induction fields as [|[k x] rest IH]; [reflexivity|].
  cbn [map fst snd]. now rewrite IH.
Qed.

Lemma merge_arr items : merge (VArr items) = VArr (map merge items).
Proof.
  reflexivity.
Qed.

Lemma text_obj_data fields :
  Forall (fun kv => json_data (snd kv)) fields ->
  JSON.text (VObj fields)
  = "{" +++ JSON.join ","
              (map (fun kv => JSON.quote (fst kv) +++ ":" +++ JSON.text (snd kv))
                 fields) +++ "}".
Proof.
  intros Hn. cbn [JSON.text].
  match goal with
  | |- _ +++ JSON.join _ ?m +++ _ = _ +++ JSON.join _ ?m' +++ _ =>
      replace m with m'; [reflexivity|]
  end.
  induction Hn as [|[k x] rest Hx _ IH]; [reflexivity|].
  cbn [map fst snd]. rewrite IH. simpl in Hx. now destruct Hx.
Qed.

Lemma text_head_data v :
  json_data v ->
  exists c s,
    JSON.text v = String c s
    /\ Ascii.eqb c "]" = false /\ Ascii.eqb c "}" = false.
Proof.
  intros Hn. destruct Hn as [|b|n|s|fields|items].
  - eexists _, _. repeat split.
  - destruct b; eexists _, _; repeat split.
  - destruct (string_of_Z_head n) as (c & s & Hs & Hc).
    exists c, s. split; [exact Hs|].
    split.
    + destruct (Ascii.eqb_spec c "]") as [E|]; [subst c; discriminate Hc|reflexivity].
    + destruct (Ascii.eqb_spec c "}") as [E|]; [subst c; discriminate Hc|reflexivity].
  - eexists _, _. repeat split.
  - eexists _, _. repeat split.
  - eexists _, _. repeat split.
Qed.

Lemma parse_elements_data items :
  items <> [] ->
  Forall (fun x => reads_as x (merge x)) items ->
  forall f rest,
    (vsize (VArr items) <= S f)%nat ->
    JSON.head_is_digit rest = false ->
    JSON.parse_elements f
      (JSON.join "," (map JSON.text items) +++ String "]" rest)
    = Some (map merge items, rest).
Proof.
  induction items as [|x xs IH]; [contradiction|].
  intros _ Hall f rest Hsize Hrest.
  apply Forall_cons in Hall as [Hx Hxs].
  rewrite vsize_arr_cons in Hsize.
  destruct f as [|f]; [simpl in Hsize; lia|].
  cbn [JSON.parse_elements].
  destruct xs as [|y more].
  - cbn [map JSON.join String.append].
    rewrite (Hx f (String "]" rest)) by (simpl in *; lia || reflexivity).
    reflexivity.
  - change (JSON.join "," (map JSON.text (x :: y :: more)))
      with (JSON.text x +++ "," +++ JSON.join "," (map JSON.text (y :: more))).
    rewrite !append_assoc. cbn [String.append].
    rewrite (Hx f) by (simpl in *; lia || reflexivity).
    rewrite IH; try assumption; try discriminate.
    + reflexivity.
    + lia.
Qed.

Lemma parse_members_data fields :
  fields <> [] ->
  Forall (fun kv => reads_as (snd kv) (merge (snd kv))) fields ->
  forall f rest,
    (vsize (VObj fields) <= S f)%nat ->
    JSON.head_is_digit rest = false ->
    JSON.parse_members f
      (JSON.join ","
         (map (fun kv => JSON.quote (fst kv) +++ ":" +++ JSON.text (snd kv))
            fields) +++ String "}" rest)
    = Some (map (fun kv => (fst kv, merge (snd kv))) fields, rest).
Proof.
  induction fields as [|[k x] more IH]; [contradiction|].
  intros _ Hall f rest Hsize Hrest.
  apply Forall_cons in Hall as [Hx Hmore]. cbn [snd] in Hx.
  rewrite vsize_obj_cons in Hsize. cbn [snd] in Hsize.
  destruct f as [|f]; [simpl in Hsize; lia|].
  cbn [JSON.parse_members].
  destruct more as [|kv more].
  - cbn [map JSON.join fst snd]. unfold JSON.quote, JSON.str1.
    cbn [String.append]. rewrite !append_assoc. cbn [String.append].
    rewrite Ascii.eqb_refl, parse_chars_escape.
    rewrite (Hx f (String "}" rest)) by (simpl in *; lia || reflexivity).
    reflexivity.
  - change (JSON.join ","
              (map (fun kv0 => JSON.quote (fst kv0) +++ ":" +++ JSON.text (snd kv0))
                 ((k, x) :: kv :: more)))
      with ((JSON.quote k +++ ":" +++ JSON.text x) +++ "," +++
            JSON.join ","
              (map (fun kv0 => JSON.quote (fst kv0) +++ ":" +++ JSON.text (snd kv0))
                 (kv :: more))).
    unfold JSON.quote at 1. unfold JSON.str1.
    cbn [String.append]. rewrite !append_assoc. cbn [String.append].
    rewrite Ascii.eqb_refl, parse_chars_escape.
    rewrite (Hx f) by (simpl in *; lia || reflexivity).
    rewrite IH; try assumption; try discriminate.
    + reflexivity.
    + lia.
Qed.

(** The text of JSON data is read as the data with its repeated keys
    merged. *)
Lemma text_reads_as v : json_data v -> reads_as v (merge v).
Proof.
  induction v as [| |b|n|s|t|fields IH|items IH] using val_induction;
    intros Hn;
    try (inversion Hn; fail); intros fuel rest Hsize Hrest;
    (destruct fuel as [|f]; [simpl in Hsize; lia|]).
  - reflexivity.
  - destruct b; reflexivity.
  - destruct (string_of_Z_head n) as (c & s & Hs & Hc).
    destruct (number_head c Hc) as (H1 & H2 & H3).
    cbn [JSON.text JSON.parse_value merge]. rewrite Hs. cbn [String.append].
    rewrite H1, H2, H3, Hc.
    change (String c (s +++ rest)) with (String c s +++ rest).
    rewrite <- Hs. now apply parse_number_string_of_Z.
  - cbn [JSON.text JSON.parse_value merge]. unfold JSON.quote, JSON.str1.
    cbn [String.append]. rewrite append_assoc. cbn [String.append].
    rewrite Ascii.eqb_refl.
    change (Ascii.eqb JSON.dquote "[") with false.
    change (Ascii.eqb JSON.dquote "{") with false.
    cbv iota. now rewrite parse_chars_escape.
  - inversion Hn as [| | | |fields' Hvals|]; subst fields'.
    rewrite (text_obj_data fields Hvals), merge_obj.
    destruct fields as [|kv more]; [reflexivity|].
    assert (Hall : Forall (fun kv0 => reads_as (snd kv0) (merge (snd kv0)))
                     (kv :: more)).
    { clear - IH Hvals. induction IH as [|kv0 l Hkv0 _ IHl]; [constructor|].
      apply Forall_cons in Hvals as [Hv Hl].
      constructor; [now apply Hkv0 | now apply IHl]. }
    cbn [JSON.parse_value]. cbn [String.append].
    rewrite !append_assoc. cbn [String.append].
    rewrite (parse_members_data (kv :: more)) by (assumption || discriminate).
    destruct kv as [k x]. cbn [map JSON.join fst snd].
    destruct more; unfold JSON.quote; cbn [String.append];
      change (Ascii.eqb JSON.dquote "}") with false; reflexivity.
  - inversion Hn as [| | | | |items' Hvals]; subst items'.
    rewrite text_arr, merge_arr.
    destruct items as [|x more]; [reflexivity|].
    assert (Hall : Forall (fun x0 => reads_as x0 (merge x0)) (x :: more)).
    { clear - IH Hvals. induction IH as [|x0 l Hx0 _ IHl]; [constructor|].
      apply Forall_cons in Hvals as [Hv Hl].
      constructor; [now apply Hx0 | now apply IHl]. }
    destruct (text_head_data x) as (c & s' & Hhead & Hc & _).
    { now apply Forall_cons in Hvals as [Hv _]. }
    cbn [JSON.parse_value]. cbn [String.append].
    rewrite !append_assoc. cbn [String.append].
    rewrite (parse_elements_data (x :: more)) by (assumption || discriminate).
    cbn [map JSON.join].
    destruct more; cbn [map]; rewrite Hhead; cbn [String.append];
      rewrite Hc; reflexivity.
Qed.

Lemma vsize_le_text_data v :
  json_data v -> (vsize v <= String.length (JSON.text v))%nat.
Proof.
  induction v as [| |b|n|s|t|fields IH|items IH] using val_induction;
    intros Hn; try (inversion Hn; fail).
  - simpl. lia.
  - destruct b; simpl; lia.
  - destruct (string_of_Z_head n) as (c & s & Hs & _).
    cbn [JSON.text vsize]. rewrite Hs. simpl. lia.
  - simpl. lia.
  - inversion Hn as [| | | |fields' Hvals|]; subst fields'.
    rewrite (text_obj_data fields Hvals), !length_append.
    assert (Hall : Forall (fun kv => (vsize (snd kv)
                             <= String.length (JSON.text (snd kv)))%nat) fields).
    { clear - IH Hvals. induction IH as [|kv0 l Hkv0 _ IHl]; [constructor|].
      apply Forall_cons in Hvals as [Hv Hl].
      constructor; [now apply Hkv0 | now apply IHl]. }
    pose proof (length_join_obj fields Hall).
    change (String.length "{") with 1%nat.
    change (String.length "}") with 1%nat. lia.
  - inversion Hn as [| | | | |items' Hvals]; subst items'.
    rewrite text_arr, !length_append.
    assert (Hall : Forall (fun x => (vsize x
                             <= String.length (JSON.text x))%nat) items).
    { clear - IH Hvals. induction IH as [|x0 l Hx0 _ IHl]; [constructor|].
      apply Forall_cons in Hvals as [Hv Hl].
      constructor; [now apply Hx0 | now apply IHl]. }
    pose proof (length_join_arr items Hall).
    change (String.length "[") with 1%nat.
    change (String.length "]") with 1%nat. lia.
Qed.

(** [JSON.parse] reads the text of JSON data, whatever its keys. *)
Lemma parse_text_data v : json_data v -> JSON.parse (JSON.text v) = Some (merge v).
Proof.
  intros Hn. unfold JSON.parse.
  rewrite <- (append_empty_r (JSON.text v)) at 2.
  rewrite (text_reads_as v Hn); [reflexivity| |reflexivity].
  pose proof (vsize_le_text_data v Hn). lia.
Qed.

End data.

(** ** The two replacements of the sanitizer, on values *)

Section replacement.

(** The quote of the pattern: the double quote or the single quote. *)
Variable q : ascii.
Hypothesis Hq : q = JSON.dquote \/ q = "'"%char.

Let p : string := String q "$".
Let r : string := String q EmptyString.

Lemma prefix_cons a s b t :
  String.prefix (String a s) (String b t)
  = Ascii.eqb a b && String.prefix s t.
Proof.
  cbn [String.prefix]. destruct (ascii_dec a b) as [->|Hne].
  - now rewrite Ascii.eqb_refl.
  - apply Ascii.eqb_neq in Hne. now rewrite Hne.
Qed.

Lemma prefix_dollar c t :
  String.prefix "$" (String c t) = Ascii.eqb c "$".
Proof.
  rewrite prefix_cons.
  assert (String.prefix EmptyString t = true) as -> by (destruct t; reflexivity).
  rewrite andb_true_r. apply Ascii.eqb_sym.
Qed.

Lemma substring_all s : forall n,
  (String.length s <= n)%nat -> String.substring 0 n s = s.
Proof.
  induction s as [|c s IH]; intros n Hn.
  - destruct n; reflexivity.
  - destruct n as [|n]; [simpl in Hn; lia|].
    cbn [String.substring]. rewrite IH; [reflexivity | simpl in Hn; lia].
Qed.

Lemma replace_unfold pattern replacement s :
  replace pattern replacement s
  = if String.prefix pattern s then
      replacement +++ String.substring (String.length pattern) (String.length s) s
    else
      match s with
      | EmptyString => EmptyString
      | String c rest => String c (replace pattern replacement rest)
      end.
Proof. destruct s; reflexivity. Qed.

(** A character that is not the quote is passed over. *)
Lemma replace_char c X :
  Ascii.eqb c q = false -> replace p r (String c X) = String c (replace p r X).
Proof.
  intros Hc. apply replace_head. unfold p. rewrite prefix_cons.
  rewrite Ascii.eqb_sym, Hc. reflexivity.
Qed.

Lemma replace_free tok X :
  free_of q tok = true -> replace p r (tok +++ X) = tok +++ replace p r X.
Proof.
  induction tok as [|c tok IH]; [reflexivity|].
  cbn [free_of]. intros H. apply andb_true_iff in H as [Hc Htok].
  apply negb_true_iff in Hc. cbn [String.append].
  rewrite replace_char by exact Hc. now rewrite IH.
Qed.

(** The quote that a dollar follows loses the dollar. *)
Lemma replace_here Y : replace p r (String q (String "$" Y)) = String q Y.
Proof.
  rewrite replace_unfold. unfold p, r. rewrite !prefix_cons, !Ascii.eqb_refl.
  assert (String.prefix EmptyString Y = true) as -> by (destruct Y; reflexivity).
  cbn [andb String.length String.append String.substring].
  rewrite substring_all; [reflexivity | lia].
Qed.

(** The quote that no dollar follows is passed over. *)
Lemma replace_quote_char X :
  String.prefix "$" X = false ->
  replace p r (String q X) = String q (replace p r X).
Proof.
  intros HX. apply replace_head. unfold p. rewrite prefix_cons, Ascii.eqb_refl.
  exact HX.
Qed.

Lemma escape_char_free c :
  Ascii.eqb c q = false -> free_of q (JSON.escape_char c) = true.
Proof.
  destruct Hq as [-> | ->];
    destruct c as [[] [] [] [] [] [] [] []]; intros H;
    first [reflexivity | discriminate H].
Qed.

Lemma escape_char_quote :
  exists pre,
    JSON.escape_char q = pre +++ String q EmptyString
    /\ free_of q pre = true.
Proof.
  destruct Hq as [-> | ->].
  - exists (String JSON.backslash EmptyString). split; reflexivity.
  - exists EmptyString. split; reflexivity.
Qed.

Lemma escape_char_dollar c X :
  String.prefix "$" (JSON.escape_char c +++ X) = Ascii.eqb c "$".
Proof.
  assert (H : exists c' t,
            JSON.escape_char c = String c' t
            /\ Ascii.eqb c' "$" = Ascii.eqb c "$")
    by (destruct c as [[] [] [] [] [] [] [] []]; eexists _, _;
        split; reflexivity).
  destruct H as (c' & t & -> & <-). cbn [String.append]. apply prefix_dollar.
Qed.

Lemma escape_cons c s : JSON.escape (String c s) = JSON.escape_char c +++ JSON.escape s.
Proof. reflexivity. Qed.

(** The replacement in the characters of a string literal, up to its
    closing quote. *)
Lemma replace_escape s : forall rest,
  String.prefix p (String JSON.dquote rest) = false ->
  replace p r (JSON.escape s +++ String JSON.dquote rest)
  = match drop_dollar_after q s with
    | Some s' => JSON.escape s' +++ String JSON.dquote rest
    | None => JSON.escape s +++ String JSON.dquote (replace p r rest)
    end.
Proof.
  induction s as [|c s1 IH]; intros rest Hrest.
  - cbn [JSON.escape String.append drop_dollar_after].
    now rewrite replace_head by exact Hrest.
  - rewrite escape_cons, append_assoc. cbn [drop_dollar_after].
    destruct (Ascii.eqb c q) eqn:Ecq.
    + apply Ascii.eqb_eq in Ecq. subst c.
      destruct escape_char_quote as (pre & Hpre & Hfree).
      rewrite Hpre, append_assoc, (replace_free pre) by exact Hfree.
      cbn [String.append].
      destruct s1 as [|d s2].
      * cbn [JSON.escape String.append].
        rewrite replace_quote_char by (apply prefix_dollar).
        rewrite replace_head by exact Hrest.
        now rewrite !append_assoc.
      * rewrite escape_cons, append_assoc.
        destruct (Ascii.eqb d "$") eqn:Ed.
        -- apply Ascii.eqb_eq in Ed. subst d.
           change (JSON.escape_char "$") with "$". cbn [String.append].
           rewrite replace_here. rewrite (escape_cons q), Hpre.
           now rewrite !append_assoc.
        -- rewrite replace_quote_char
             by (now rewrite escape_char_dollar).
           rewrite <- append_assoc, <- escape_cons, IH by exact Hrest.
           destruct (drop_dollar_after q (String d s2)) as [s'|];
             cbn [option_map]; rewrite ?(escape_cons q), ?Hpre, !append_assoc;
             reflexivity.
    + rewrite (replace_free (JSON.escape_char c))
        by (now apply escape_char_free).
      rewrite IH by exact Hrest.
      destruct (drop_dollar_after q s1) as [s'|]; cbn [option_map];
        rewrite ?escape_cons, ?append_assoc; reflexivity.
Qed.

Lemma quote_append s rest :
  JSON.quote s +++ rest
  = String JSON.dquote (JSON.escape s +++ String JSON.dquote rest).
Proof.
  unfold JSON.quote, JSON.str1. cbn [String.append]. now rewrite append_assoc.
Qed.

Lemma replace_dquote Y :
  String.prefix "$" Y = false ->
  replace p r (String JSON.dquote Y) = String JSON.dquote (replace p r Y).
Proof.
  intros HY. apply replace_head. unfold p. rewrite prefix_cons, HY.
  apply andb_false_r.
Qed.

Lemma replace_dquote_here Y :
  q = JSON.dquote ->
  replace p r (String JSON.dquote (String "$" Y)) = String JSON.dquote Y.
Proof. intros <-. apply replace_here. Qed.

(** The replacement in a string literal followed by [rest]. *)
Lemma replace_quote s rest :
  String.prefix "$" rest = false ->
  replace p r (JSON.quote s +++ rest)
  = match strip_literal q s with
    | Some s' => JSON.quote s' +++ rest
    | None => JSON.quote s +++ replace p r rest
    end.
Proof.
  intros Hrest.
  assert (Hclose : String.prefix p (String JSON.dquote rest) = false).
  { unfold p. rewrite prefix_cons, Hrest. apply andb_false_r. }
  rewrite quote_append. unfold strip_literal.
  destruct (Ascii.eqb q JSON.dquote) eqn:Eq; cbn [andb].
  - apply Ascii.eqb_eq in Eq.
    destruct s as [|d s2].
    + cbn [String.prefix JSON.escape String.append drop_dollar_after].
      rewrite replace_dquote by (rewrite prefix_dollar; reflexivity).
      rewrite replace_dquote by exact Hrest.
      now rewrite quote_append.
    + rewrite prefix_dollar. destruct (Ascii.eqb d "$") eqn:Ed.
      * apply Ascii.eqb_eq in Ed. subst d.
        rewrite escape_cons. change (JSON.escape_char "$") with "$".
        cbn [String.append]. rewrite replace_dquote_here by exact Eq.
        now rewrite quote_append.
      * rewrite replace_dquote
          by (rewrite escape_cons, append_assoc; now rewrite escape_char_dollar).
        rewrite replace_escape by exact Hclose.
        destruct (drop_dollar_after q (String d s2)) as [s'|];
          now rewrite quote_append.
  - rewrite replace_char by (now rewrite Ascii.eqb_sym).
    rewrite replace_escape by exact Hclose.
    destruct (drop_dollar_after q s) as [s'|]; now rewrite quote_append.
Qed.

Lemma string_of_uint_free d : free_of q (NilEmpty.string_of_uint d) = true.
Proof. destruct Hq as [-> | ->]; induction d; simpl; auto. Qed.

Lemma string_of_Z_free n : free_of q (JSON.string_of_Z n) = true.
Proof.
  unfold JSON.string_of_Z.
  destruct (Z.to_int n) as [d|d]; cbn [NilZero.string_of_int].
  - destruct d; try apply string_of_uint_free.
    destruct Hq as [-> | ->]; reflexivity.
  - cbn [free_of].
    assert (Ascii.eqb "-" q = false) as ->
      by (destruct Hq as [-> | ->]; reflexivity).
    cbn [negb andb].
    destruct d; try apply string_of_uint_free.
    destruct Hq as [-> | ->]; reflexivity.
Qed.

Lemma token_char c :
  In c ["{"; "}"; "["; "]"; ","; ":"]%char -> Ascii.eqb c q = false.
Proof.
  intros Hc. destruct Hq as [-> | ->]; simpl in Hc;
    repeat (destruct Hc as [<- | Hc]; [reflexivity|]); contradiction.
Qed.

Lemma strip_members_data fs : forall fs',
  Forall (fun kv => json_data (snd kv)) fs ->
  Forall (fun kv => forall x', strip_first q (snd kv) = Some x' -> json_data x')
    fs ->
  strip_members q (strip_first q) fs = Some fs' ->
  Forall (fun kv => json_data (snd kv)) fs'.
Proof.
  induction fs as [|[k x] rest IH]; intros fs' Hdata Hstrip; [discriminate|].
  apply Forall_cons in Hdata as [Hx Hrest].
  apply Forall_cons in Hstrip as [Hsx Hsrest]. cbn [snd] in *.
  cbn [strip_members].
  destruct (strip_literal q k) as [k'|].
  { intros [= <-]. now constructor. }
  destruct (strip_first q x) as [x'|].
  { intros [= <-]. constructor; [now apply Hsx | exact Hrest]. }
  destruct (strip_members q (strip_first q) rest) as [rest'|]; [|discriminate].
  intros [= <-]. constructor; [exact Hx | now apply IH].
Qed.

Lemma strip_elems_data l : forall l',
  Forall json_data l ->
  Forall (fun x => forall x', strip_first q x = Some x' -> json_data x') l ->
  strip_elems (strip_first q) l = Some l' ->
  Forall json_data l'.
Proof.
  induction l as [|x rest IH]; intros l' Hdata Hstrip; [discriminate|].
  apply Forall_cons in Hdata as [Hx Hrest].
  apply Forall_cons in Hstrip as [Hsx Hsrest].
  cbn [strip_elems].
  destruct (strip_first q x) as [x'|].
  { intros [= <-]. constructor; [now apply Hsx | exact Hrest]. }
  destruct (strip_elems (strip_first q) rest) as [rest'|]; [|discriminate].
  intros [= <-]. constructor; [exact Hx | now apply IH].
Qed.

(** Taking a dollar out of JSON data leaves JSON data. *)
Lemma strip_first_data v :
  json_data v -> forall v', strip_first q v = Some v' -> json_data v'.
Proof.
  induction v as [| |b|n|s|t|fields IH|items IH] using val_induction;
    intros Hv v'; try discriminate.
  - cbn [strip_first]. destruct (strip_literal q s); [|discriminate].
    intros [= <-]. constructor.
  - inversion Hv as [| | | |fields' Hvals|]; subst fields'.
    cbn [strip_first].
    destruct (strip_members q (strip_first q) fields) as [fs'|] eqn:E;
      [|discriminate].
    intros [= <-]. constructor.
    apply (strip_members_data fields fs' Hvals); [|exact E].
    clear - IH Hvals. induction IH as [|kv l Hkv _ IHl]; [constructor|].
    apply Forall_cons in Hvals as [Hv Hl].
    constructor; [now apply Hkv | now apply IHl].
  - inversion Hv as [| | | | |items' Hvals]; subst items'.
    cbn [strip_first].
    destruct (strip_elems (strip_first q) items) as [l'|] eqn:E; [|discriminate].
    intros [= <-]. constructor.
    apply (strip_elems_data items l' Hvals); [|exact E].
    clear - IH Hvals. induction IH as [|x l Hx _ IHl]; [constructor|].
    apply Forall_cons in Hvals as [Hv Hl].
    constructor; [now apply Hx | now apply IHl].
Qed.

Lemma join_cons_cons sep a b l :
  JSON.join sep (a :: b :: l) = a +++ sep +++ JSON.join sep (b :: l).
Proof. reflexivity. Qed.

(** The replacement in the members of an object, up to its closing
    brace. *)
Lemma replace_members fields :
  fields <> [] ->
  Forall (fun kv =>
            forall rest, String.prefix "$" rest = false ->
              replace p r (JSON.text (snd kv) +++ rest)
              = match strip_first q (snd kv) with
                | Some x' => JSON.text x' +++ rest
                | None => JSON.text (snd kv) +++ replace p r rest
                end) fields ->
  forall rest,
    replace p r
      (JSON.join ","
         (map (fun kv => JSON.quote (fst kv) +++ ":" +++ JSON.text (snd kv))
            fields) +++ String "}" rest)
    = match strip_members q (strip_first q) fields with
      | Some fs' =>
          JSON.join ","
            (map (fun kv => JSON.quote (fst kv) +++ ":" +++ JSON.text (snd kv))
               fs') +++ String "}" rest
      | None =>
          JSON.join ","
            (map (fun kv => JSON.quote (fst kv) +++ ":" +++ JSON.text (snd kv))
               fields) +++ String "}" (replace p r rest)
      end.
Proof.
  induction fields as [|[k x] more IH]; [contradiction|].
  intros _ Hall rest. apply Forall_cons in Hall as [Hx Hmore]. cbn [snd] in Hx.
  cbn [strip_members].
  destruct more as [|kv more].
  - cbn [map JSON.join fst snd]. rewrite !append_assoc.
    rewrite replace_quote by reflexivity.
    destruct (strip_literal q k) as [k'|].
    { cbn [map JSON.join fst snd]. now rewrite !append_assoc. }
    cbn [String.append]. rewrite replace_char by (apply token_char; simpl; tauto).
    rewrite Hx by reflexivity.
    destruct (strip_first q x) as [x'|].
    { cbn [map JSON.join fst snd]. now rewrite !append_assoc. }
    cbn [strip_members option_map].
    rewrite replace_char by (apply token_char; simpl; tauto).
    reflexivity.
  - cbn [map]. rewrite join_cons_cons. cbn [fst snd]. rewrite !append_assoc.
    rewrite replace_quote by reflexivity.
    destruct (strip_literal q k) as [k'|].
    { cbn [map]. rewrite join_cons_cons. cbn [fst snd].
      now rewrite !append_assoc. }
    cbn [String.append]. rewrite replace_char by (apply token_char; simpl; tauto).
    rewrite Hx by reflexivity.
    destruct (strip_first q x) as [x'|].
    { cbn [map]. rewrite join_cons_cons. cbn [fst snd].
      now rewrite !append_assoc. }
    rewrite replace_char by (apply token_char; simpl; tauto).
    specialize (IH ltac:(discriminate) Hmore rest).
    cbn [map String.append] in IH. rewrite IH.
    destruct (strip_members q (strip_first q) (kv :: more)) as [fs'|] eqn:E;
      cbn [option_map].
    + destruct fs' as [|kv' more'].
      { exfalso. revert E. cbn [strip_members]. destruct kv as [k2 x2].
        destruct (strip_literal q k2); [discriminate|].
        destruct (strip_first q x2); [discriminate|].
        destruct (strip_members q (strip_first q) more); discriminate. }
      cbn [map]. rewrite join_cons_cons. cbn [fst snd].
      now rewrite !append_assoc.
    + reflexivity.
Qed.

Lemma replace_elems items :
  items <> [] ->
  Forall (fun x =>
            forall rest, String.prefix "$" rest = false ->
              replace p r (JSON.text x +++ rest)
              = match strip_first q x with
                | Some x' => JSON.text x' +++ rest
                | None => JSON.text x +++ replace p r rest
                end) items ->
  forall rest,
    replace p r (JSON.join "," (map JSON.text items) +++ String "]" rest)
    = match strip_elems (strip_first q) items with
      | Some l' => JSON.join "," (map JSON.text l') +++ String "]" rest
      | None =>
          JSON.join "," (map JSON.text items) +++ String "]" (replace p r rest)
      end.
Proof.
  induction items as [|x more IH]; [contradiction|].
  intros _ Hall rest. apply Forall_cons in Hall as [Hx Hmore].
  cbn [strip_elems].
  destruct more as [|y more].
  - cbn [map JSON.join]. rewrite Hx by reflexivity.
    destruct (strip_first q x) as [x'|]; [reflexivity|].
    cbn [strip_elems option_map].
    rewrite replace_char by (apply token_char; simpl; tauto).
    reflexivity.
  - cbn [map]. rewrite join_cons_cons, !append_assoc.
    rewrite Hx by reflexivity.
    destruct (strip_first q x) as [x'|].
    { cbn [map]. now rewrite join_cons_cons, !append_assoc. }
    cbn [String.append].
    rewrite replace_char by (apply token_char; simpl; tauto).
    specialize (IH ltac:(discriminate) Hmore rest). cbn [map] in IH.
    rewrite IH.
    destruct (strip_elems (strip_first q) (y :: more)) as [l'|] eqn:E;
      cbn [option_map].
    + destruct l' as [|y' more'].
      { exfalso. revert E. cbn [strip_elems].
        destruct (strip_first q y); [discriminate|].
        destruct (strip_elems (strip_first q) more); discriminate. }
      cbn [map]. now rewrite join_cons_cons, !append_assoc.
    + reflexivity.
Qed.

(** The replacement in the text of JSON data followed by [rest]: the first
    [q]-then-dollar of the text loses its dollar, and the result is the text
    of data again. *)
Lemma replace_text v :
  json_data v ->
  forall rest,
    String.prefix "$" rest = false ->
    replace p r (JSON.text v +++ rest)
    = match strip_first q v with
      | Some v' => JSON.text v' +++ rest
      | None => JSON.text v +++ replace p r rest
      end.
Proof.
  induction v as [| |b|n|s|t|fields IH|items IH] using val_induction;
    intros Hv rest Hrest; try (inversion Hv; fail).
  - cbn [JSON.text strip_first]. apply replace_free.
    destruct Hq as [-> | ->]; reflexivity.
  - cbn [strip_first]. destruct b; cbn [JSON.text]; apply replace_free;
      destruct Hq as [-> | ->]; reflexivity.
  - cbn [JSON.text strip_first]. apply replace_free, string_of_Z_free.
  - cbn [JSON.text strip_first]. rewrite replace_quote by exact Hrest.
    now destruct (strip_literal q s).
  - inversion Hv as [| | | |fields' Hvals|]; subst fields'.
    rewrite (text_obj_data fields Hvals). cbn [strip_first].
    destruct fields as [|kv more].
    + cbn [map JSON.join String.append strip_members option_map].
      rewrite !replace_char by (apply token_char; simpl; tauto). reflexivity.
    + rewrite !append_assoc. cbn [String.append].
      rewrite replace_char by (apply token_char; simpl; tauto).
      assert (Hall : Forall (fun kv0 =>
                forall rest0, String.prefix "$" rest0 = false ->
                  replace p r (JSON.text (snd kv0) +++ rest0)
                  = match strip_first q (snd kv0) with
                    | Some x' => JSON.text x' +++ rest0
                    | None => JSON.text (snd kv0) +++ replace p r rest0
                    end) (kv :: more)).
      { clear - IH Hvals. induction IH as [|kv0 l Hkv0 _ IHl]; [constructor|].
        apply Forall_cons in Hvals as [Hv Hl].
        constructor; [now apply Hkv0 | now apply IHl]. }
      rewrite (replace_members (kv :: more)) by (assumption || discriminate).
      destruct (strip_members q (strip_first q) (kv :: more)) as [fs'|] eqn:E;
        cbn [option_map].
      * assert (Hdata : Forall (fun kv0 => json_data (snd kv0)) fs').
        { apply (strip_members_data (kv :: more) fs' Hvals); [|exact E].
          clear - Hvals. induction Hvals as [|kv0 l Hkv0 _ IHl]; [constructor|].
          constructor; [|exact IHl].
          intros x'. now apply strip_first_data. }
        rewrite (text_obj_data fs' Hdata), ?append_assoc. reflexivity.
      * rewrite ?append_assoc. reflexivity.
  - inversion Hv as [| | | | |items' Hvals]; subst items'.
    rewrite text_arr. cbn [strip_first].
    destruct items as [|x more].
    + cbn [map JSON.join String.append strip_elems option_map].
      rewrite !replace_char by (apply token_char; simpl; tauto). reflexivity.
    + rewrite !append_assoc. cbn [String.append].
      rewrite replace_char by (apply token_char; simpl; tauto).
      assert (Hall : Forall (fun x0 =>
                forall rest0, String.prefix "$" rest0 = false ->
                  replace p r (JSON.text x0 +++ rest0)
                  = match strip_first q x0 with
                    | Some x' => JSON.text x' +++ rest0
                    | None => JSON.text x0 +++ replace p r rest0
                    end) (x :: more)).
      { clear - IH Hvals. induction IH as [|x0 l Hx0 _ IHl]; [constructor|].
        apply Forall_cons in Hvals as [Hv Hl].
        constructor; [now apply Hx0 | now apply IHl]. }
      rewrite (replace_elems (x :: more)) by (assumption || discriminate).
      destruct (strip_elems (strip_first q) (x :: more)) as [l'|];
        cbn [option_map]; rewrite ?text_arr, ?append_assoc; reflexivity.
Qed.

(** The replacement in the whole text of JSON data. *)
Lemma replace_text_whole v :
  json_data v ->
  replace p r (JSON.text v) = JSON.text (stripped q v)
  /\ json_data (stripped q v).
Proof.
  intros Hv. pose proof (replace_text v Hv EmptyString eq_refl) as H.
  rewrite append_empty_r in H. unfold stripped.
  destruct (strip_first q v) as [v'|] eqn:E.
  - rewrite append_empty_r in H. split; [exact H|].
    exact (strip_first_data v Hv v' E).
  - split; [|exact Hv]. rewrite H.
    assert (replace p r EmptyString = EmptyString) as -> by reflexivity.
    apply append_empty_r.
Qed.

End replacement.

(** ** What the sanitizer returns *)

Section sanitizer.

Lemma plain_data v : json_data (plain v).
Proof.
  induction v as [| |b|n|s|t|fields IH|items IH] using val_induction;
    try (cbn [plain]; constructor).
  - induction IH as [|[k x] rest Hx _ IHrest]; [constructor|].
    cbn [snd] in Hx. destruct x; try (constructor; [exact Hx | exact IHrest]).
    exact IHrest.
  - induction IH as [|x rest Hx _ IHrest]; [constructor|].
    constructor; [exact Hx | exact IHrest].
Qed.

(** The text [sanitizeObj] gives to [JSON.parse]: the text of data. *)
Lemma sanitized_text x :
  x <> VUndefined ->
  JSON.stringify x = Some (JSON.text x)
  /\ replace squote_dollar "'"
       (replace dquote_dollar (JSON.str1 JSON.dquote) (JSON.text x))
     = JSON.text (stripped "'" (stripped JSON.dquote (plain x)))
  /\ json_data (stripped "'" (stripped JSON.dquote (plain x))).
Proof.
  intros Hx. split; [destruct x; [contradiction | reflexivity ..]|].
  rewrite <- (text_plain x).
  destruct (replace_text_whole JSON.dquote (or_introl eq_refl) (plain x)
              (plain_data x)) as [Hd Hdata].
  change (replace dquote_dollar (JSON.str1 JSON.dquote) (JSON.text (plain x)))
    with (replace (String JSON.dquote "$") (String JSON.dquote EmptyString)
            (JSON.text (plain x))).
  rewrite Hd.
  destruct (replace_text_whole "'"%char (or_intror eq_refl)
              (stripped JSON.dquote (plain x)) Hdata) as [Hs Hdata'].
  split; [exact Hs | exact Hdata'].
Qed.

(** X26.  On a value that is made of [null], booleans, safe integers,
    strings, valid dates, arrays and plain objects (with or without
    properties whose value is [undefined]), [sanitizeObj] raises nothing.  It
    returns the value written as JSON (every date as its ISO text, no
    property whose value is [undefined]), without the dollar of the first
    double-quote-then-dollar of the text (the first key or string, in the
    order of the text, that starts with a dollar or has a double quote
    followed by a dollar) and then without the dollar of the first
    quote-then-dollar; where taking the dollar out of a key gives an object a
    key twice, the later value wins. *)
Theorem sanitizeObj_value x :
  x <> VUndefined ->
  sanitizeObj x
  = Ok (merge (stripped "'" (stripped JSON.dquote (plain x)))).
Proof.
  intros Hx. destruct (sanitized_text x Hx) as (Ht & Hr & Hdata).
  unfold sanitizeObj. rewrite Ht, Hr.
  now rewrite (parse_text_data _ Hdata).
Qed.

Lemma sanitizeObj_value_witness :
  sanitizeObj (VObj [("$a", VNum 1); ("a", VNum 2)])
  = Ok (merge (stripped "'" (stripped JSON.dquote
                               (plain (VObj [("$a", VNum 1); ("a", VNum 2)]))))).
Proof.
  apply (sanitizeObj_value (VObj [("$a", VNum 1); ("a", VNum 2)])).
  discriminate.
Defined.

(** A field is lost when taking the dollar out of a key gives the key of
    another field. *)
Example sanitizeObj_loses_a_field :
  sanitizeObj (VObj [("$a", VNum 1); ("a", VNum 2)]) = Ok (VObj [("a", VNum 2)]).
Proof. vm_compute. reflexivity. Qed.



End sanitizer.

(** ** When the hooks reach [next] *)

Section reach.

Variable deepDiff : val -> val -> bool -> val.
Variable opts : options.





End reach.

